(** * myref/bib.py: a shallow embedding and its verified properties

    The development follows the layout of [myref/bib.py]:

    - Python strings and the few [str] methods the module calls;
    - the fragment of [re] that [parse_doi] needs: a compiler from the
      pattern text to a list of nodes and a backtracking matcher;
    - [parse_doi] and [extract_doi];
    - [os.path] helpers, bibliography records and their [file] field;
    - the [MyRef] library index ([sort], [insert_entry],
      [rename_entry_files], [add_pdf], [save]);
    - the [cached] decorator and the [add] sub-command.

    Strings are Python 2 byte strings: a [string] of 8-bit [ascii]
    characters.  Exceptions are values of [exn]; a call that can raise
    returns a [result].  Calls to [logging] only print and are left out; the
    text of a log line is kept where building it can raise (the [cmd] of
    [move]). *)

From Stdlib Require Import Ascii String List Arith Lia Bool OrderedTypeEx.
From stdpp Require Import base option list strings gmap sorting.

Local Open Scope string_scope.
Local Open Scope list_scope.

(** ** Exceptions *)

Inductive exn : Type :=
  | ValueError (msg : string)
  | AssertionError (msg : string)
  | KeyError (key : string)
  | IndexError
  | ReError (pattern : string)
  | CalledProcessError
  | IOError (path : string)
  | OSError (path : string)
  | URLError (url : string)
  | BibtexError
  | UnicodeDecodeError (codec : string)
  | ShutilError (src dst : string).

Inductive result (A : Type) : Type :=
  | OK (a : A)
  | Raise (e : exn).

Arguments OK {A} a.
Arguments Raise {A} e.

#[global] Instance result_ret : MRet result := fun A a => OK a.
#[global] Instance result_bind : MBind result := fun A B f m =>
  match m with
  | OK a => f a
  | Raise e => Raise e
  end.

(** A computation over a mutable state [S] that can raise: the state
    reached when the exception is raised is kept, as in Python. *)
Definition prog (S A : Type) : Type := S -> result A * S.

#[global] Instance prog_ret {S} : MRet (prog S) := fun A a s => (OK a, s).
#[global] Instance prog_bind {S} : MBind (prog S) := fun A B f m s =>
  match m s with
  | (OK a, s') => f a s'
  | (Raise e, s') => (Raise e, s')
  end.

Definition lift {S A} (r : result A) : prog S A := fun s => (r, s).
Definition get {S} : prog S S := fun s => (OK s, s).
Definition modify {S} (f : S -> S) : prog S unit := fun s => (OK tt, f s).

(** ** Python strings *)

Module Py.

Definition LF : ascii := "010"%char.
Definition TAB : ascii := "009"%char.
Definition VT : ascii := "011"%char.
Definition FF : ascii := "012"%char.
Definition CR : ascii := "013"%char.

Definition is_digit (c : ascii) : bool :=
  Nat.leb 48 (nat_of_ascii c) && Nat.leb (nat_of_ascii c) 57.

Definition is_upper (c : ascii) : bool :=
  Nat.leb 65 (nat_of_ascii c) && Nat.leb (nat_of_ascii c) 90.

Definition is_lower (c : ascii) : bool :=
  Nat.leb 97 (nat_of_ascii c) && Nat.leb (nat_of_ascii c) 122.

(** [string.whitespace] of the C locale, what [str.strip()] removes. *)
Definition is_space (c : ascii) : bool :=
  Ascii.eqb c " " || Ascii.eqb c TAB || Ascii.eqb c LF
  || Ascii.eqb c VT || Ascii.eqb c FF || Ascii.eqb c CR.

Definition lower_char (c : ascii) : ascii :=
  if is_upper c then ascii_of_nat (nat_of_ascii c + 32) else c.

(** [s.lower()] *)
Fixpoint lower (s : string) : string :=
  match s with
  | EmptyString => EmptyString
  | String c s' => String (lower_char c) (lower s')
  end.

(** [s.startswith(p)] *)
Fixpoint startswith (p s : string) : bool :=
  match p, s with
  | EmptyString, _ => true
  | String a p', String b s' => Ascii.eqb a b && startswith p' s'
  | String _ _, EmptyString => false
  end.

(** [s[n:]] *)
Fixpoint drop (n : nat) (s : string) : string :=
  match n, s with
  | 0, _ => s
  | S n', String _ s' => drop n' s'
  | S _, EmptyString => EmptyString
  end.

(** [s.endswith(suffix)] *)
Definition endswith (suffix s : string) : bool :=
  Nat.leb (String.length suffix) (String.length s)
  && String.eqb (drop (String.length s - String.length suffix) s) suffix.

(** [s.replace(old, new)] for a non-empty [old]: occurrences are found from
    the left and do not overlap.  [skip] counts the characters of an
    occurrence that is being stepped over. *)
Fixpoint replace_from (old new : string) (skip : nat) (s : string) : string :=
  match s with
  | EmptyString => EmptyString
  | String c s' =>
      match skip with
      | S k => replace_from old new k s'
      | 0 =>
          if startswith old s
          then new +:+ replace_from old new (String.length old - 1) s'
          else String c (replace_from old new 0 s')
      end
  end.

Definition replace (old new s : string) : string := replace_from old new 0 s.

(** [s.lstrip(chars)], [s.rstrip(chars)] and [s.strip(chars)], the set of
    characters given as a predicate. *)
Fixpoint lstrip (p : ascii -> bool) (s : string) : string :=
  match s with
  | EmptyString => EmptyString
  | String c s' => if p c then lstrip p s' else s
  end.

Fixpoint rstrip (p : ascii -> bool) (s : string) : string :=
  match s with
  | EmptyString => EmptyString
  | String c s' =>
      match rstrip p s' with
      | EmptyString => if p c then EmptyString else String c EmptyString
      | r => String c r
      end
  end.

Definition strip (p : ascii -> bool) (s : string) : string :=
  rstrip p (lstrip p s).

Definition one_of (chars : string) (c : ascii) : bool :=
  existsb (Ascii.eqb c) (list_ascii_of_string chars).

(** [sep.join(l)] *)
Fixpoint join (sep : string) (l : list string) : string :=
  match l with
  | [] => EmptyString
  | [x] => x
  | x :: l' => x +:+ sep +:+ join sep l'
  end.

(** [s.split(sep)] for a one-character separator: never an empty list. *)
Fixpoint split (sep : ascii) (s : string) : list string :=
  match s with
  | EmptyString => [EmptyString]
  | String c s' =>
      if Ascii.eqb c sep then EmptyString :: split sep s'
      else match split sep s' with
           | [] => [String c EmptyString]
           | x :: l => String c x :: l
           end
  end.

(** [c in s] for a character [c] *)
Fixpoint contains (c : ascii) (s : string) : bool :=
  match s with
  | EmptyString => false
  | String a s' => Ascii.eqb a c || contains c s'
  end.

(** [s.rfind(c)], as the number of characters up to and including the last
    [c]: [0] stands for Python's [-1 + 1]. *)
Fixpoint rfind1 (c : ascii) (s : string) : nat :=
  match s with
  | EmptyString => 0
  | String a s' =>
      match rfind1 c s' with
      | 0 => if Ascii.eqb a c then 1 else 0
      | S n => S (S n)
      end
  end.

(** [s[:n]] *)
Fixpoint take (n : nat) (s : string) : string :=
  match n, s with
  | 0, _ => EmptyString
  | S n', String c s' => String c (take n' s')
  | S _, EmptyString => EmptyString
  end.

(** The bytes that the [ascii] codec decodes: those below 128.  Python 2
    uses this codec when a byte string is joined to a unicode string. *)
Definition is_ascii (s : string) : bool :=
  forallb (fun c => Nat.ltb (nat_of_ascii c) 128) (list_ascii_of_string s).

(** The byte strings that [s.decode('utf-8')] decodes, as the decoder of
    Python 2.7 reads them: a byte below 128 stands alone; C2..DF start a
    sequence of two bytes, E0..EF of three, F0..F4 of four; the bytes that
    follow are in 80..BF, the first of them at least A0 after E0, at least
    90 after F0 and at most 8F after F4.  (Encoded surrogates, ED A0..BF,
    are let through by this version of the decoder.)  [need] counts the
    bytes still to come in the sequence, [lo] and [hi] bound the next
    one. *)
Fixpoint utf8_from (need lo hi : nat) (s : string) : bool :=
  match s with
  | EmptyString => Nat.eqb need 0
  | String c s' =>
      let b := nat_of_ascii c in
      match need with
      | S k => Nat.leb lo b && Nat.leb b hi && utf8_from k 128 191 s'
      | 0 =>
          if Nat.ltb b 128 then utf8_from 0 128 191 s'
          else if Nat.leb 194 b && Nat.leb b 223 then utf8_from 1 128 191 s'
          else if Nat.eqb b 224 then utf8_from 2 160 191 s'
          else if Nat.leb 225 b && Nat.leb b 239 then utf8_from 2 128 191 s'
          else if Nat.eqb b 240 then utf8_from 3 144 191 s'
          else if Nat.leb 241 b && Nat.leb b 243 then utf8_from 3 128 191 s'
          else if Nat.eqb b 244 then utf8_from 3 128 143 s'
          else false
      end
  end.

Definition is_utf8 (s : string) : bool := utf8_from 0 128 191 s.

End Py.

(** ** The fragment of [re] used by [parse_doi]

    A pattern is compiled to a list of nodes.  A node is a set of characters
    with a quantifier, or one of the two ends of the capturing group.  The
    compiler reads the pattern text character by character, as [re.compile]
    does, so the pattern below is the very text the Python code builds. *)

Module Re.

Inductive citem : Type :=
  | CLit (c : ascii)   (* the character itself *)
  | CDigit             (* \d *)
  | CDot.              (* . outside a class: anything but a newline *)

Inductive quant : Type := Once | Star | StarLazy.

Inductive node : Type :=
  | NSet (cls : list citem) (q : quant)
  | NOpen
  | NClose.

Inductive pmode : Type :=
  | PNormal
  | PEscape
  | PClass (items : list citem)
  | PClassEscape (items : list citem).

(** What a backslash followed by [c] stands for; [None] for the escapes
    this fragment leaves out. *)
Definition escape (c : ascii) : option citem :=
  if Ascii.eqb c "d" then Some CDigit
  else if Ascii.eqb c "n" then Some (CLit Py.LF)
  else if Py.is_digit c || Py.is_upper c || Py.is_lower c then None
  else Some (CLit c).

(** One character of the pattern; [out] holds the nodes read so far, last
    node first. *)
Definition step (st : list node * pmode) (c : ascii)
  : option (list node * pmode) :=
  let '(out, mode) := st in
  match mode with
  | PNormal =>
      if Ascii.eqb c "\" then Some (out, PEscape)
      else if Ascii.eqb c "[" then Some (out, PClass [])
      else if Ascii.eqb c "(" then Some (NOpen :: out, PNormal)
      else if Ascii.eqb c ")" then Some (NClose :: out, PNormal)
      else if Ascii.eqb c "." then Some (NSet [CDot] Once :: out, PNormal)
      else if Ascii.eqb c "*" then
        match out with
        | NSet cls Once :: out' => Some (NSet cls Star :: out', PNormal)
        | _ => None
        end
      else if Ascii.eqb c "?" then
        match out with
        | NSet cls Star :: out' => Some (NSet cls StarLazy :: out', PNormal)
        | _ => None
        end
      else if Ascii.eqb c "+" || Ascii.eqb c "|" || Ascii.eqb c "{"
              || Ascii.eqb c "^" || Ascii.eqb c "$" || Ascii.eqb c "]"
      then None
      else Some (NSet [CLit c] Once :: out, PNormal)
  | PEscape =>
      match escape c with
      | Some it => Some (NSet [it] Once :: out, PNormal)
      | None => None
      end
  | PClass items =>
      if Ascii.eqb c "\" then Some (out, PClassEscape items)
      else if Ascii.eqb c "]" then
        match items with
        | [] => None
        | _ => Some (NSet (rev items) Once :: out, PNormal)
        end
      else if Ascii.eqb c "-" || Ascii.eqb c "^" || Ascii.eqb c "[" then None
      else Some (out, PClass (CLit c :: items))
  | PClassEscape items =>
      match escape c with
      | Some it => Some (out, PClass (it :: items))
      | None => None
      end
  end.

Fixpoint steps (st : list node * pmode) (p : string)
  : option (list node * pmode) :=
  match p with
  | EmptyString => Some st
  | String c p' =>
      match step st c with
      | Some st' => steps st' p'
      | None => None
      end
  end.

(** [re.compile(pattern)] *)
Definition compile (pattern : string) : option (list node) :=
  match steps ([], PNormal) pattern with
  | Some (out, PNormal) => Some (rev out)
  | _ => None
  end.

Definition in_item (c : ascii) (it : citem) : bool :=
  match it with
  | CLit a => Ascii.eqb c a
  | CDigit => Py.is_digit c
  | CDot => negb (Ascii.eqb c Py.LF)
  end.

Definition in_cls (cls : list citem) (c : ascii) : bool :=
  existsb (in_item c) cls.

(** A match is the captured text and the text left after the match.  [keep]
    records a consumed character when the matcher is inside the group. *)
Definition keep (g : bool) (c : ascii) (m : option (string * string))
  : option (string * string) :=
  match m with
  | Some (cap, rest) => Some (if g then String c cap else cap, rest)
  | None => None
  end.

(** The backtracking matcher, anchored at the start of the text.  A greedy
    star first tries to take one more character, a lazy star first tries
    the rest of the pattern; the first way that succeeds is the match. *)
Fixpoint match_here (r : list node) (g : bool) : string -> option (string * string) :=
  match r with
  | [] => fun s => Some (EmptyString, s)
  | NOpen :: r' => match_here r' true
  | NClose :: r' => match_here r' false
  | NSet cls Once :: r' =>
      fun s =>
        match s with
        | String c s' =>
            if in_cls cls c then keep g c (match_here r' g s') else None
        | EmptyString => None
        end
  | NSet cls StarLazy :: r' =>
      fix lazy (s : string) : option (string * string) :=
        match match_here r' g s with
        | Some m => Some m
        | None =>
            match s with
            | String c s' => if in_cls cls c then keep g c (lazy s') else None
            | EmptyString => None
            end
        end
  | NSet cls Star :: r' =>
      fix greedy (s : string) : option (string * string) :=
        match s with
        | String c s' =>
            if in_cls cls c then
              match keep g c (greedy s') with
              | Some m => Some m
              | None => match_here r' g s
              end
            else match_here r' g s
        | EmptyString => match_here r' g s
        end
  end.

(** [pattern.findall(text)] for a pattern with one group: the captured
    texts of the matches found from the left, which do not overlap.
    [skip] counts the characters of the last match still to step over. *)
Fixpoint findall_from (r : list node) (skip : nat) (s : string) : list string :=
  match skip with
  | S k =>
      match s with
      | String _ s' => findall_from r k s'
      | EmptyString => []
      end
  | 0 =>
      match match_here r false s with
      | Some (cap, rest) =>
          cap :: match s with
                 | String _ s' =>
                     findall_from r (String.length s - String.length rest - 1) s'
                 | EmptyString => []
                 end
      | None =>
          match s with
          | String _ s' => findall_from r 0 s'
          | EmptyString => []
          end
      end
  end.

Definition findall (r : list node) (s : string) : list string :=
  findall_from r 0 s.

End Re.

(** ** DOI extraction *)

(** The pattern text of [parse_doi], lines 208 to 222. *)
Definition doi_prefixes : list string :=
  ["doi:"; "doi: "; "doi "; "dx\.doi\.org/"; "doi/"].

Definition doi_regexp (space_digit : bool) : string :=
  let doi := "10\.\d\d\d\d/.*?" in
  let doi := if space_digit then doi +:+ "[ \d]*" else doi in
  let stop := "[, \n]" in
  let prefix := "[" +:+ Py.join "|" doi_prefixes +:+ "]" in
  prefix +:+ "(" +:+ doi +:+ ")" +:+ stop.

(** The clean-up of a match, lines 232 to 235. *)
Definition clean_doi (space_digit : bool) (m : string) : string :=
  let doi := Py.strip (Py.one_of ".") (Py.replace (String Py.LF "") "" m) in
  if space_digit then Py.replace " " "_" doi else doi.

Definition parse_doi (txt : string) (space_digit : bool) : result string :=
  match Re.compile (doi_regexp space_digit) with
  | None => Raise (ReError (doi_regexp space_digit))
  | Some re =>
      match Re.findall re (Py.lower txt) with
      | [] => Raise (ValueError "no matches")
      | m :: _ =>
          let doi := clean_doi space_digit m in
          if Nat.ltb 8 (String.length doi) then OK doi
          else Raise (AssertionError ("failed to extract doi: " +:+ doi))
      end
  end.

(** ** [os.path] (posixpath) *)

Module OsPath.

(** [os.path.join(a, b)] *)
Definition join (a b : string) : string :=
  if Py.startswith "/" b then b
  else if String.eqb a "" || Py.endswith "/" a then a +:+ b
  else a +:+ "/" +:+ b.

(** [os.path.splitext(p)]: the extension starts at the last dot of the last
    component, unless that component has only dots before it. *)
Definition splitext (p : string) : string * string :=
  let sep1 := Py.rfind1 "/" p in
  let dot1 := Py.rfind1 "." p in
  if Nat.ltb sep1 dot1 then
    let between := Py.take (dot1 - 1 - sep1) (Py.drop sep1 p) in
    if String.eqb (Py.lstrip (Py.one_of ".") between) "" then (p, "")
    else (Py.take (dot1 - 1) p, Py.drop (dot1 - 1) p)
  else (p, "").

(** [os.path.basename(p)] *)
Definition basename (p : string) : string := Py.drop (Py.rfind1 "/" p) p.

(** [os.path.dirname(p)] *)
Definition dirname (p : string) : string :=
  let head := Py.take (Py.rfind1 "/" p) p in
  if String.eqb (Py.lstrip (Py.one_of "/") head) "" then head
  else Py.rstrip (Py.one_of "/") head.

End OsPath.

(** ** Bibliography records and their [file] field *)

(** A record is the [dict] that bibtexparser builds for an entry. *)
Abbreviation record := (gmap string string).

(** Unpacking [fname, ftype = x]: [x] must have two items. *)
Definition unpack2 (x : list string) : result (string * string) :=
  match x with
  | [a; b] => OK (a, b)
  | _ => Raise (ValueError "too many values to unpack")
  end.

(** The items are what Python builds: the list [ef.split(':')], or the pair
    [(ef, 'pdf')]. *)
Definition getentryfiles (e : record) : list (list string) :=
  let files := Py.strip Py.is_space (default "" (e !! "file")) in
  if String.eqb files "" then []
  else map (fun ef => if Py.contains ":" ef then Py.split ":" ef
                      else [ef; "pdf"])
           (Py.split ";" files).

Definition setentryfiles (e : record) (files : list string) (overwrite : bool)
  : result record :=
  existingfiles ←
    (if negb overwrite
     then mapM (fun x => '(fname, ftype) ← unpack2 x; mret fname)
               (getentryfiles e)
     else mret []);
  let efiles :=
    map (fun file => let '(base, ext) := OsPath.splitext file in
                     file +:+ ":" +:+ Py.drop 1 ext) files in
  mret (<["file" := Py.join ";" (efiles ++ existingfiles)]> e).

(** ** The world outside the process

    [bibfile] is the bibliography file named by [--bibtex] ([None] when it
    does not exist); [fs] holds the other regular files (PDFs, the text
    files of pdftotext, the cache side file) by path, [dirs] the
    directories.  The bibliography file is kept apart from [fs]: the model
    leaves out runs in which its path is also the path of one of those
    files.  [DRYRUN] is the module's global flag.

    A path names a file as it is written: two paths are the same file when
    they are the same string.  The world is taken to be in order around a
    path that is written to: no regular file stands where the path needs a
    directory, and the path is not itself a directory ([clear_target]
    below says so, for the statements that depend on it). *)

Record world : Type := World {
  bibfile : option string;
  fs : gmap string string;
  dirs : gset string;
  DRYRUN : bool
}.

Definition set_bibfile (b : option string) (w : world) : world :=
  World b (fs w) (dirs w) (DRYRUN w).
Definition set_fs (f : gmap string string) (w : world) : world :=
  World (bibfile w) f (dirs w) (DRYRUN w).
Definition set_dirs (d : gset string) (w : world) : world :=
  World (bibfile w) (fs w) d (DRYRUN w).
Definition set_DRYRUN (b : bool) (w : world) : world :=
  World (bibfile w) (fs w) (dirs w) b.

(** [os.path.exists(p)] for a path other than the bibliography file. *)
Definition path_exists (p : string) (w : world) : bool :=
  bool_decide (is_Some (fs w !! p)) || bool_decide (p ∈ dirs w).

(** [os.makedirs(d)] *)
Definition makedirs (d : string) : prog world unit := fun w =>
  if String.eqb d "" then (Raise (OSError d), w)
  else (OK tt, set_dirs ({[d]} ∪ dirs w) w).

(** [shutil.copy(f1, f2)] and [shutil.move(f1, f2)], for a destination that
    is not a directory.  [shutil.copy] refuses to copy a file onto itself;
    [shutil.move] renames it to itself. *)
Definition shutil_copy (f1 f2 : string) : prog world unit := fun w =>
  match fs w !! f1 with
  | Some content =>
      if String.eqb f1 f2 then (Raise (ShutilError f1 f2), w)
      else (OK tt, set_fs (<[f2 := content]> (fs w)) w)
  | None => (Raise (IOError f1), w)
  end.

Definition shutil_move (f1 f2 : string) : prog world unit := fun w =>
  match fs w !! f1 with
  | Some content => (OK tt, set_fs (<[f2 := content]> (delete f1 (fs w))) w)
  | None => (Raise (IOError f1), w)
  end.

(** The log line of [move], [verb + f1.decode('utf-8') + ' ' + f2]:
    [f1] has to be UTF-8, and [f2], a byte string joined to the decoded
    text, has to be ASCII; [UnicodeDecodeError] is raised otherwise. *)
Definition move_cmd (verb f1 f2 : string) : result string :=
  if negb (Py.is_utf8 f1) then Raise (UnicodeDecodeError "utf8")
  else if negb (Py.is_ascii f2) then Raise (UnicodeDecodeError "ascii")
  else OK (verb +:+ f1 +:+ " " +:+ f2).

Definition move (f1 f2 : string) (copy : bool) : prog world unit :=
  let dirname := OsPath.dirname f2 in
  w ← get;
  _ ← (if negb (path_exists dirname w) then makedirs dirname else mret tt);
  if copy then
    cmd ← lift (move_cmd "cp " f1 f2);
    w ← get;
    if negb (DRYRUN w) then shutil_copy f1 f2 else mret tt
  else
    cmd ← lift (move_cmd "mv " f1 f2);
    w ← get;
    if negb (DRYRUN w) then shutil_move f1 f2 else mret tt.

(** ** External collaborators

    The programs and libraries that [bib.py] calls and that are not part of
    it: the pdftotext command ([None] when it exits with an error, else the
    text it writes), the CrossRef server, bibtexparser and json. *)

(** The file that [pdftotext <pdf>] writes: the name of the PDF with a
    final [.pdf] or [.PDF] replaced by [.txt], and with [.txt] added when
    it has no such ending. *)
Definition pdftotext_target (pdf : string) : string :=
  if Py.endswith ".pdf" pdf || Py.endswith ".PDF" pdf
  then Py.take (String.length pdf - 4) pdf +:+ ".txt"
  else pdf +:+ ".txt".

Record collaborators : Type := Collaborators {
  pdftotext : string -> option nat -> option nat -> option string;
  urlopen : string -> result string;
  bibtexparser_loads : string -> result (list record);
  bibtexparser_dumps : list record -> string;
  json_dumps : gmap string string -> string;
  json_loads : string -> result (gmap string string)
}.

Section Model.

Variable co : collaborators.

Definition readpdf (pdf : string) (first last : option nat) (keeptxt : bool)
  : prog world string := fun w =>
  let txtfile := Py.replace ".pdf" ".txt" pdf in
  match pdftotext co pdf first last with
  | None => (Raise CalledProcessError, w)
  | Some text =>
      let w1 := set_fs (<[pdftotext_target pdf := text]> (fs w)) w in
      match fs w1 !! txtfile with
      | Some txt =>
          (OK txt, if keeptxt then w1 else set_fs (delete txtfile (fs w1)) w1)
      | None => (Raise (IOError txtfile), w1)
      end
  end.

Definition extract_doi (pdf : string) (space_digit : bool) : prog world string :=
  txt ← readpdf pdf (Some 1) (Some 1) false;
  match parse_doi txt space_digit with
  | Raise (ValueError _) =>
      (* sometimes first page is blank *)
      txt ← readpdf pdf (Some 2) (Some 2) false;
      lift (parse_doi txt space_digit)
  | doi => lift doi
  end.

(** *** The library index *)

Record MyRef : Type := mkMyRef {
  filesdir : string;
  txt : string;
  bibtex : string;
  entries : list record;          (* self.db.entries *)
  key_field : string
}.

Definition set_entries (l : list record) (self : MyRef) : MyRef :=
  mkMyRef (filesdir self) (txt self) (bibtex self) l (key_field self).

(** [e[k]] *)
Definition getitem (e : record) (k : string) : result string :=
  match e !! k with
  | Some v => OK v
  | None => Raise (KeyError k)
  end.

Definition key (self : MyRef) (e : record) : result string :=
  v ← getitem e (key_field self); mret (Py.lower v).

(** [sorted(l, key=...)] is stable; on keyed items it is insertion sort. *)
Fixpoint insert_by_key (x : string * record) (l : list (string * record))
  : list (string * record) :=
  match l with
  | [] => [x]
  | y :: l' =>
      if String.leb (fst x) (fst y) then x :: l else y :: insert_by_key x l'
  end.

Definition sorted (l : list (string * record)) : list (string * record) :=
  foldr insert_by_key [] l.

Definition sort : prog MyRef unit := fun self =>
  match mapM (key self) (entries self) with
  | OK keys => (OK tt, set_entries (map snd (sorted (zip keys (entries self)))) self)
  | Raise ex => (Raise ex, self)
  end.

(** [bisect.bisect_left(a, x)]: the loop of the library, which halves
    [hi - lo]; [length a] rounds are more than it ever runs. *)
Fixpoint bisect_loop (fuel : nat) (a : list string) (x : string) (lo hi : nat)
  : nat :=
  match fuel with
  | 0 => lo
  | S fuel' =>
      if Nat.ltb lo hi then
        let mid := (lo + hi) / 2 in
        match a !! mid with
        | Some am =>
            if String.ltb am x then bisect_loop fuel' a x (mid + 1) hi
            else bisect_loop fuel' a x lo mid
        | None => lo
        end
      else lo
  end.

Definition bisect_left (a : list string) (x : string) : nat :=
  bisect_loop (length a) a x 0 (length a).

(** [insert_entry] returns a record of [self.db.entries]: the model returns
    its index with it, so that a caller that mutates the returned record
    can write the change to that place of the list. *)
Definition insert_entry (e : record) (replace : bool)
  : prog MyRef (nat * record) := fun self =>
  match mapM (key self) (entries self) with
  | Raise ex => (Raise ex, self)
  | OK keys =>
      match key self e with
      | Raise ex => (Raise ex, self)
      | OK k =>
          let i := bisect_left keys k in
          if Nat.ltb i (length keys)
             && bool_decide (keys !! i = Some k) then
            let self' :=
              if replace then set_entries (<[i := e]> (entries self)) self
              else self in
            match entries self' !! i with
            | Some ei => (OK (i, ei), self')
            | None => (Raise IndexError, self')
            end
          else
            (OK (i, e),
             set_entries (take i (entries self) ++ e :: drop i (entries self))
                         self)
      end
  end.

(** The bibliography file is [world]'s [bibfile], whatever [bibtex] names. *)
Definition save (self : MyRef) : prog world unit :=
  modify (set_bibfile (Some (bibtexparser_dumps co (entries self)))).

(** [MyRef(bibtex, filesdir)] *)
Definition MyRef_init (bibtex filesdir key_field : string) : prog world MyRef :=
  fun w =>
  match bibfile w with
  | None => (Raise (IOError bibtex), w)
  | Some content =>
      match bibtexparser_loads co content with
      | Raise ex => (Raise ex, w)
      | OK db =>
          match sort (mkMyRef filesdir "/tmp" bibtex db key_field) with
          | (OK _, self) => (OK self, w)
          | (Raise ex, _) => (Raise ex, w)
          end
      end
  end.

Definition newbib (bibtex filesdir : string) : prog world MyRef := fun w =>
  match bibfile w with
  | Some _ => (Raise (AssertionError ""), w)
  | None => MyRef_init bibtex filesdir "ID" (set_bibfile (Some "") w)
  end.

(** The loop of the several-files case; [efiles] is the list built so far. *)
Fixpoint rename_several (newdir : string) (copy : bool)
    (files : list (list string)) (efiles : list string)
  : prog world (list string) :=
  match files with
  | [] => mret efiles
  | x :: files' =>
      '(file, ftype) ← lift (unpack2 x);
      let newfile := OsPath.join newdir (OsPath.basename file) in
      _ ← (if negb (String.eqb file newfile) then move file newfile copy
           else mret tt);
      rename_several newdir copy files' (efiles ++ [file +:+ ":" +:+ ftype])
  end.

(** [rename_entry_files] mutates [e]; the model returns the record as the
    call leaves it. *)
Definition rename_entry_files (self : MyRef) (e : record) (copy : bool)
  : prog world record :=
  let files := getentryfiles e in
  year ← lift (getitem e "year");
  let direc := OsPath.join (filesdir self) year in
  match files with
  | [] => mret e
  | [x] =>
      '(file, type) ← lift (unpack2 x);
      let '(base, ext) := OsPath.splitext file in
      ID ← lift (getitem e "ID");
      let newfile := OsPath.join direc (ID +:+ ext) in
      _ ← (if negb (String.eqb file newfile) then move file newfile copy
           else mret tt);
      mret (<["file" := newfile +:+ ":" +:+ type]> e)
  | _ =>
      (* several files: only rename container *)
      ID ← lift (getitem e "ID");
      let newdir := OsPath.join direc ID in
      efiles ← rename_several newdir copy files [];
      mret (<["file" := Py.join ";" efiles]> e)
  end.

(** *** The lookup cache *)

Section Cached.

Variable file : string.
Variable fun_ : string -> prog world string.

(** The cache a decorated function starts with. *)
Definition cached_load (w : world) : result (gmap string string) :=
  match fs w !! file with
  | Some content => json_loads co content
  | None => OK ∅
  end.

(** The state of [decorated] is the [cache] of its closure and the world. *)
Definition decorated (doi : string)
  : prog (gmap string string * world) string := fun '(cache, w) =>
  match cache !! doi with
  | Some res => (OK res, (cache, w))
  | None =>
      match fun_ doi w with
      | (Raise ex, w1) => (Raise ex, (cache, w1))
      | (OK res, w1) =>
          let cache' := <[doi := res]> cache in
          (OK res,
           (cache',
            if negb (DRYRUN w1)
            then set_fs (<[file := json_dumps co cache']> (fs w1)) w1
            else w1))
      end
  end.

End Cached.

Definition fetch_bibtex_uncached (doi : string) : prog world string :=
  let url :=
    "http://api.crossref.org/works/" +:+ doi
    +:+ "/transform/application/x-bibtex" in
  html ← lift (urlopen co url);
  (* html.decode('utf-8') *)
  lift (if Py.is_utf8 html then OK html
        else Raise (UnicodeDecodeError "utf8")).

Definition fetch_bibtex : string -> prog (gmap string string * world) string :=
  decorated ".crossref-bibtex.json" fetch_bibtex_uncached.

(** *** Adding a PDF *)

(** What [add_pdf] works on: the [MyRef] object, the cache of
    [fetch_bibtex] and the world. *)
Record process : Type := Process {
  self : MyRef;
  cache : gmap string string;
  env : world
}.

Definition in_world {A} (m : prog world A) : prog process A := fun st =>
  let '(r, w) := m (env st) in (r, Process (self st) (cache st) w).

Definition in_self {A} (m : prog MyRef A) : prog process A := fun st =>
  let '(r, my) := m (self st) in (r, Process my (cache st) (env st)).

Definition in_cache {A} (m : prog (gmap string string * world) A)
  : prog process A := fun st =>
  let '(r, (c, w)) := m (cache st, env st) in (r, Process (self st) c w).

(** A change made to the record returned by [insert_entry] is a change of
    [self.db.entries[i]]. *)
Definition store (i : nat) (e : record) : prog MyRef unit :=
  modify (fun self => set_entries (<[i := e]> (entries self)) self).

Definition add_pdf (pdf : string) (rename copy overwrite : bool)
    (attachments : option (list string)) (space_digit : bool)
  : prog process unit :=
  doi ← in_world (extract_doi pdf space_digit);
  (* get bib tex based on doi *)
  bibtex ← in_cache (fetch_bibtex doi);
  bib ← lift (bibtexparser_loads co bibtex);
  entry ← lift (match bib with e :: _ => OK e | [] => Raise IndexError end);
  (* add entry to library *)
  '(i, entry) ← in_self (insert_entry entry false);
  (* add pdf to entry *)
  let files := [pdf] ++ default [] attachments in
  entry ← lift (setentryfiles entry files overwrite);
  _ ← in_self (store i entry);
  (* rename files *)
  if rename then
    st ← get;
    entry ← in_world (rename_entry_files (self st) entry copy);
    in_self (store i entry)
  else mret tt.

(** The options of the [add] sub-command. *)
Record options : Type := Options {
  o_pdf : string;
  o_bibtex : string;
  o_filesdir : string;
  o_attachments : option (list string);
  o_rename : bool;
  o_copy : bool;
  o_dry_run : bool;
  o_append : bool
}.

Definition addpdf (o : options) : prog (gmap string string * world) unit :=
  fun '(c, w) =>
  let w := set_DRYRUN (o_dry_run o) w in
  let '(r, w) :=
    (if bool_decide (is_Some (bibfile w))
     then MyRef_init (o_bibtex o) (o_filesdir o) "ID" w
     else newbib (o_bibtex o) (o_filesdir o) w) in
  match r with
  | Raise ex => (Raise ex, (c, w))
  | OK my =>
      match add_pdf (o_pdf o) (o_rename o) (o_copy o) (negb (o_append o))
                    (o_attachments o) true (Process my c w) with
      | (Raise ex, st) => (Raise ex, (cache st, env st))
      | (OK _, st) =>
          if negb (o_dry_run o) then
            let '(r, w) := save (self st) (env st) in (r, (cache st, w))
          else (OK tt, (cache st, env st))
      end
  end.

End Model.

(** ** Definitions used to state the properties *)

(** The nodes that [doi_regexp] compiles to. *)
Definition prefix_class : list Re.citem :=
  map Re.CLit (list_ascii_of_string "doi:|doi: |doi |dx.doi.org/|doi/").

Definition doi_nodes (space_digit : bool) : list Re.node :=
  [Re.NSet prefix_class Re.Once; Re.NOpen;
   Re.NSet [Re.CLit "1"] Re.Once; Re.NSet [Re.CLit "0"] Re.Once;
   Re.NSet [Re.CLit "."] Re.Once;
   Re.NSet [Re.CDigit] Re.Once; Re.NSet [Re.CDigit] Re.Once;
   Re.NSet [Re.CDigit] Re.Once; Re.NSet [Re.CDigit] Re.Once;
   Re.NSet [Re.CLit "/"] Re.Once; Re.NSet [Re.CDot] Re.StarLazy]
  ++ (if space_digit then [Re.NSet [Re.CLit " "; Re.CDigit] Re.Star] else [])
  ++ [Re.NClose; Re.NSet [Re.CLit ","; Re.CLit " "; Re.CLit Py.LF] Re.Once].

(** A DOI candidate starts at position [i] of [txt]: the pattern matches
    there. *)
Definition candidate_at (space_digit : bool) (txt : string) (i : nat) : bool :=
  match Re.compile (doi_regexp space_digit) with
  | Some re =>
      match Re.match_here re false (Py.drop i (Py.lower txt)) with
      | Some _ => true
      | None => false
      end
  | None => false
  end.

(** The prefixes as the specification lists them, and the test that a text
    ends with one of them (case-insensitively). *)
Definition recognized_prefixes : list string :=
  ["doi:"; "doi: "; "doi "; "dx.doi.org/"; "doi/"].

Definition ends_with_recognized_prefix (s : string) : bool :=
  existsb (fun p => Py.endswith p (Py.lower s)) recognized_prefixes.

(** The clean-up of a match in the words of the specification: newlines
    are taken out, periods at the end are taken off, and spaces become
    underscores. *)
Fixpoint drop_leading (p : ascii -> bool) (l : list ascii) : list ascii :=
  match l with
  | [] => []
  | c :: l' => if p c then drop_leading p l' else l
  end.

Definition spec_clean_doi (m : string) : string :=
  let chars :=
    List.filter (fun c => negb (Ascii.eqb c Py.LF)) (list_ascii_of_string m) in
  let chars := rev (drop_leading (fun c => Ascii.eqb c ".") (rev chars)) in
  string_of_list_ascii
    (map (fun c => if Ascii.eqb c " " then "_"%char else c) chars).

(** The first match of the pattern in a page of text, if any. *)
Definition first_match (space_digit : bool) (txt : string) : option string :=
  head (Re.findall (doi_nodes space_digit) (Py.lower txt)).

(** All the characters of a string satisfy [p]. *)
Fixpoint str_all (p : ascii -> bool) (s : string) : bool :=
  match s with
  | EmptyString => true
  | String c s' => p c && str_all p s'
  end.

(** The classes whose characters a match records in the group. *)
Fixpoint captured_classes (r : list Re.node) (g : bool) : list (list Re.citem) :=
  match r with
  | [] => []
  | Re.NOpen :: r' => captured_classes r' true
  | Re.NClose :: r' => captured_classes r' false
  | Re.NSet cls _ :: r' => (if g then [cls] else []) ++ captured_classes r' g
  end.

(** The text of page [n] of a PDF, when pdftotext succeeds. *)
Definition page_text (co : collaborators) (pdf : string) (n : nat)
  : option string :=
  pdftotext co pdf (Some n) (Some n).

(** The match that [extract_doi] works on: the first match of page 1, and
    when page 1 has none, the first match of page 2. *)
Definition selected_match (co : collaborators) (pdf : string)
    (space_digit : bool) : option string :=
  match page_text co pdf 1 with
  | None => None
  | Some t1 =>
      match first_match space_digit t1 with
      | Some m => Some m
      | None =>
          match page_text co pdf 2 with
          | None => None
          | Some t2 => first_match space_digit t2
          end
      end
  end.

Definition not_found {A} (r : result A) : Prop :=
  exists msg, r = Raise (ValueError msg).

Definition validation_failure {A} (r : result A) : Prop :=
  exists msg, r = Raise (AssertionError msg).

(** A PDF whose pages 1 and 2 both read [page]. *)
Definition same_pages (page : string) : collaborators :=
  Collaborators (fun _ _ _ => Some page) (fun url => Raise (URLError url))
                (fun _ => Raise BibtexError) (fun _ => "")
                (fun _ => "") (fun _ => OK ∅).

Definition empty_world : world := World None ∅ ∅ false.

(** The order of Python on byte strings, and a list that never
    decreases. *)
Definition key_le (a b : string) : Prop := String.leb a b = true.

Definition nondecreasing (keys : list string) : Prop := Sorted key_le keys.

(** The normalized keys of the collection, and the invariant of the
    index: every record has a key and the keys never decrease. *)
Definition keys_of (self : MyRef) : result (list string) :=
  mapM (key self) (entries self).

Definition sorted_index (self : MyRef) : Prop :=
  exists keys, keys_of self = OK keys /\ nondecreasing keys.

(** The index after a sequence of [insert_entry] calls, given as the
    record and the [replace] flag of each call. *)
Definition insert_entries (calls : list (record * bool)) (self : MyRef)
  : MyRef :=
  foldl (fun my '(e, replace) => snd (insert_entry e replace my)) self calls.

(** A small library for the examples: the bibliography file holds three
    entries, out of order, and the server knows one DOI. *)
Definition entry (ID year : string) : record :=
  <["ID" := ID]> (<["year" := year]> ∅).

Definition demo_entries : list record :=
  [entry "Smith2020" "2020"; entry "adams1999" "1999"; entry "Baker2001" "2001"].

Definition demo_co : collaborators :=
  Collaborators
    (fun _ _ _ => Some "Biogeosciences, doi:10.5194/bg-8-515-2011, 2011")
    (fun url =>
       if String.eqb url
            "http://api.crossref.org/works/10.5194/bg-8-515-2011/transform/application/x-bibtex"
       then OK "@article{Perrette_2011}" else Raise (URLError url))
    (fun txt => if String.eqb txt "@article{Perrette_2011}"
                then OK [entry "Perrette_2011" "2011"]
                else if String.eqb txt "" then OK []
                else OK demo_entries)
    (fun db => "@saved")
    (fun _ => "{}")
    (fun _ => OK ∅).

Definition demo_world : world :=
  World (Some "@three entries") (<["/tmp/x.pdf" := "%PDF"]> ∅) ∅ false.

Definition demo_my : MyRef :=
  mkMyRef "files" "/tmp" "myref.bib"
          [entry "adams1999" "1999"; entry "Baker2001" "2001";
           entry "Smith2020" "2020"]
          "ID".

(** A record and its key, as [sort] pairs them. *)
Definition keyed (my : MyRef) (p : string * record) : Prop :=
  key my p.2 = OK p.1.

(** A path with the type that its extension gives, and a (path, type)
    pair, as they are written in the [file] field. *)
Definition tagged_path (file : string) : string :=
  file +:+ ":" +:+ Py.drop 1 (OsPath.splitext file).2.

Definition tagged_pair (p : string * string) : string :=
  p.1 +:+ ":" +:+ p.2.

(** The (path, type) pairs of a record, when every item unpacks. *)
Definition associations (e : record) : result (list (string * string)) :=
  mapM unpack2 (getentryfiles e).

(** The first character of [s], if any, is not in [p]; the last character
    of [s], if any, is not in [p]. *)
Definition head_ok (p : ascii -> bool) (s : string) : bool :=
  match s with
  | EmptyString => true
  | String c _ => negb (p c)
  end.

Fixpoint tail_ok (p : ascii -> bool) (s : string) : bool :=
  match s with
  | EmptyString => true
  | String c EmptyString => negb (p c)
  | String _ s' => tail_ok p s'
  end.

(** One item of [getentryfiles]. *)
Definition file_item (ef : string) : list string :=
  if Py.contains ":" ef then Py.split ":" ef else [ef; "pdf"].





(** What holds of [lo] and [hi] on every round of the loop of
    [bisect_left a x]. *)
Definition bisect_inv (a : list string) (x : string) (lo hi : nat) : Prop :=
  lo <= hi <= length a
  /\ (forall j v, j < lo -> a !! j = Some v -> String.ltb v x = true)
  /\ (forall j v, hi <= j -> a !! j = Some v -> String.ltb v x = false).

(** The bibliography file, seen from the process. *)
Definition bib_of (st : process) : option string := bibfile (env st).

(** A computation leaves the observation [obs] of its state as it was,
    whether it returns or raises. *)
Definition preserves {S A O : Type} (obs : S -> O) (m : prog S A) : Prop :=
  forall s, obs (m s).2 = obs s.

(** The first step of [addpdf]: the flag is set and the [MyRef] object is
    built, from the bibliography file or by [newbib]. *)
Definition constructed (co : collaborators) (o : options) (w : world)
  : result MyRef * world :=
  let w := set_DRYRUN (o_dry_run o) w in
  if bool_decide (is_Some (bibfile w))
  then MyRef_init co (o_bibtex o) (o_filesdir o) "ID" w
  else newbib co (o_bibtex o) (o_filesdir o) w.

(** A PDF that pdftotext cannot read, in a world without a bibliography
    file; the rest is as in [demo_co]. *)
Definition unreadable_co : collaborators :=
  Collaborators (fun _ _ _ => None) (urlopen demo_co)
                (bibtexparser_loads demo_co) (bibtexparser_dumps demo_co)
                (json_dumps demo_co) (json_loads demo_co).

Definition add_options (dry_run : bool) : options :=
  Options "/tmp/x.pdf" "myref.bib" "files" None false false dry_run false.

(** The number of occurrences of [c] in [s]. *)
Fixpoint count (c : ascii) (s : string) : nat :=
  match s with
  | EmptyString => 0
  | String a s' => (if Ascii.eqb a c then 1 else 0) + count c s'
  end.

(** The tokens of the [file] field, as [getentryfiles] cuts them. *)
Definition file_tokens (e : record) : list string :=
  let files := Py.strip Py.is_space (default "" (e !! "file")) in
  if String.eqb files "" then [] else Py.split ";" files.

(** A path and the type that [setentryfiles] gives it. *)
Definition typed_path (file : string) : string * string :=
  (file, Py.drop 1 (OsPath.splitext file).2).

(** A path that can stand in the [file] field: it has no colon and no
    semicolon, and no white space at either end. *)
Definition plain_path (file : string) : Prop :=
  Py.contains ":" file = false /\ Py.contains ";" file = false
  /\ head_ok Py.is_space file = true /\ tail_ok Py.is_space file = true.

(** A library whose bibliography file reads back as it was dumped. *)
Definition faithful_co : collaborators :=
  Collaborators (pdftotext demo_co) (urlopen demo_co)
                (fun txt => if String.eqb txt "@saved"
                            then OK (entries demo_my) else Raise BibtexError)
                (fun db => "@saved") (json_dumps demo_co) (json_loads demo_co).

(** The text file that [readpdf] reads and removes. *)
Definition txtfile_of (pdf : string) : string := Py.replace ".pdf" ".txt" pdf.

(** The PDF is named so that [readpdf] looks for the text where pdftotext
    writes it, as [paper.pdf] is; [paper.PDF] and [my.pdfs/paper.pdf] are
    not. *)
Definition own_text (pdf : string) : Prop :=
  txtfile_of pdf = pdftotext_target pdf.






(** What a dry run must not change: the flag and, in a dry run, the file
    at [path]. *)
Definition dry_file (path : string) (w : world) : bool * option (option string) :=
  (DRYRUN w, if DRYRUN w then Some (fs w !! path) else None).

(** A character that can stand in a DOI as [parse_doi] returns it: not one
    of the characters at which the pattern stops. *)
Definition doi_char (c : ascii) : bool :=
  negb (Ascii.eqb c ",") && negb (Ascii.eqb c " ")
  && negb (Ascii.eqb c Py.LF).

(** A json library that reads back the one cache it is asked to dump. *)
Definition json_co : collaborators :=
  Collaborators (pdftotext demo_co) (urlopen demo_co)
                (bibtexparser_loads demo_co) (bibtexparser_dumps demo_co)
                (fun _ => "{10.5194/bg-8-515-2011: @article{Perrette_2011}}")
                (fun _ => OK {["10.5194/bg-8-515-2011"
                               := "@article{Perrette_2011}"]}).


(** The record [e] has the normalized key [k], read in the field [kf]. *)
Definition has_key (kf k : string) (e : record) : Prop :=
  Py.lower <$> (e !! kf) = Some k.

#[global] Instance has_key_dec kf k e : Decision (has_key kf k e).
Proof. unfold has_key. apply _. Defined.

(** A server that answers every request with an empty text. *)
Definition blank_co : collaborators :=
  Collaborators (pdftotext demo_co) (fun _ => OK "")
                (bibtexparser_loads demo_co) (bibtexparser_dumps demo_co)
                (json_dumps demo_co) (json_loads demo_co).

(** A library that already holds the record of the demonstration DOI. *)
Definition known_my : MyRef :=
  mkMyRef "files" "/tmp" "myref.bib"
          [<["note" := "mine"]> (entry "perrette_2011" "2011")] "ID".

(** * Properties of the DOI extractor *)

Section DoiPattern.

Lemma compile_doi_regexp space_digit :
  Re.compile (doi_regexp space_digit) = Some (doi_nodes space_digit).
Proof. destruct space_digit; vm_compute; reflexivity. Qed.

Lemma append_cons c a b : String c a +:+ b = String c (a +:+ b).
Proof. reflexivity. Qed.

Lemma append_nil b : "" +:+ b = b.
Proof. reflexivity. Qed.

Lemma lower_app a b : Py.lower (a +:+ b) = Py.lower a +:+ Py.lower b.
Proof. induction a as [|c a IH]; simpl; [reflexivity | now rewrite IH]. Qed.

Lemma lower_length a : String.length (Py.lower a) = String.length a.
Proof. induction a as [|c a IH]; simpl; [reflexivity | now rewrite IH]. Qed.

Lemma drop_app_length a b : Py.drop (String.length a) (a +:+ b) = b.
Proof. induction a as [|c a IH]; simpl; [now destruct b | exact IH]. Qed.

(** Positions at which the pattern does not match are passed over. *)
Lemma findall_skip_prefix re p rest :
  (forall i, i < String.length p ->
             Re.match_here re false (Py.drop i (p +:+ rest)) = None) ->
  Re.findall_from re 0 (p +:+ rest) = Re.findall_from re 0 rest.
Proof.
  induction p as [|c p IH]; intros H; [reflexivity|].
  pose proof (H 0 ltac:(simpl; lia)) as H0.
  change (Py.drop 0 (String c p +:+ rest)) with (String c (p +:+ rest)) in H0.
  change (String c p +:+ rest) with (String c (p +:+ rest)).
  unfold Re.findall_from at 1; fold Re.findall_from.
  rewrite H0. apply IH. intros i Hi.
  apply (H (S i)). simpl. lia.
Qed.

Lemma findall_from_nomatch re c s :
  Re.match_here re false (String c s) = None ->
  Re.findall_from re 0 (String c s) = Re.findall_from re 0 s.
Proof.
  intros H. unfold Re.findall_from at 1; fold Re.findall_from. now rewrite H.
Qed.

Lemma findall_from_match re s cap rest :
  Re.match_here re false s = Some (cap, rest) ->
  head (Re.findall_from re 0 s) = Some cap.
Proof.
  intros H. destruct s; unfold Re.findall_from; fold Re.findall_from;
    now rewrite H.
Qed.

(** [parse_doi] in terms of the first match and its clean-up. *)
Lemma parse_doi_first_match txt sd :
  parse_doi txt sd =
  match first_match sd txt with
  | None => Raise (ValueError "no matches")
  | Some m =>
      if Nat.ltb 8 (String.length (clean_doi sd m)) then OK (clean_doi sd m)
      else Raise (AssertionError
                    ("failed to extract doi: " +:+ clean_doi sd m))
  end.
Proof.
  unfold parse_doi, first_match. rewrite compile_doi_regexp.
  now destruct (Re.findall _ _).
Qed.

Lemma candidate_at_spec sd txt i :
  candidate_at sd txt i = false <->
  Re.match_here (doi_nodes sd) false (Py.drop i (Py.lower txt)) = None.
Proof.
  unfold candidate_at. rewrite compile_doi_regexp.
  destruct (Re.match_here _ _ _); split; congruence.
Qed.

End DoiPattern.

Section MatchShape.

Import Re.

Lemma keep_Some g c m cap rest :
  keep g c m = Some (cap, rest) ->
  exists cap', m = Some (cap', rest)
               /\ cap = if g then String c cap' else cap'.
Proof.
  destruct m as [[cap' rest']|]; simpl; [|discriminate].
  intros [= <- <-]. eauto.
Qed.

Lemma match_here_once cls r g s cap rest :
  match_here (NSet cls Once :: r) g s = Some (cap, rest) ->
  exists c s' cap',
    s = String c s' /\ in_cls cls c = true
    /\ match_here r g s' = Some (cap', rest)
    /\ cap = if g then String c cap' else cap'.
Proof.
  destruct s as [|c s']; simpl; [discriminate|].
  destruct (in_cls cls c) eqn:Hc; [|discriminate].
  intros H. apply keep_Some in H as (cap' & H & ->). eauto 10.
Qed.

Lemma match_here_lazy cls r g s :
  match_here (NSet cls StarLazy :: r) g s =
  match match_here r g s with
  | Some m => Some m
  | None =>
      match s with
      | String c s' =>
          if in_cls cls c
          then keep g c (match_here (NSet cls StarLazy :: r) g s')
          else None
      | EmptyString => None
      end
  end.
Proof. destruct s; reflexivity. Qed.

Lemma match_here_greedy cls r g s :
  match_here (NSet cls Star :: r) g s =
  match s with
  | String c s' =>
      if in_cls cls c then
        match keep g c (match_here (NSet cls Star :: r) g s') with
        | Some m => Some m
        | None => match_here r g s
        end
      else match_here r g s
  | EmptyString => match_here r g s
  end.
Proof. destruct s; reflexivity. Qed.

(** Every character of the captured text was taken by a node inside the
    group. *)
Lemma captured_chars (p : ascii -> bool) r :
  forall g s cap rest,
    (forall cls c, In cls (captured_classes r g) ->
                   in_cls cls c = true -> p c = true) ->
    match_here r g s = Some (cap, rest) ->
    str_all p cap = true.
Proof.
  induction r as [|n r IH]; intros g s cap rest Hp H.
  - simpl in H. injection H as <- <-. reflexivity.
  - destruct n as [cls q| |]; [|exact (IH true s cap rest Hp H)
                                |exact (IH false s cap rest Hp H)].
    assert (Hrest : forall cls' c, In cls' (captured_classes r g) ->
                                   in_cls cls' c = true -> p c = true).
    { intros cls' c Hin. apply Hp. simpl. apply in_or_app. now right. }
    assert (Hcls : forall c, g = true -> in_cls cls c = true -> p c = true).
    { intros c -> Hc. apply (Hp cls); [simpl; now left | exact Hc]. }
    destruct q.
    + apply match_here_once in H as (c & s' & cap' & -> & Hc & H & ->).
      specialize (IH g s' cap' rest Hrest H).
      destruct g; [simpl; rewrite IH, (Hcls c) by auto; reflexivity | exact IH].
    + revert cap H. induction s as [|c s' IHs]; intros cap H;
        rewrite match_here_greedy in H.
      * exact (IH g _ cap rest Hrest H).
      * destruct (in_cls cls c) eqn:Hc; [|exact (IH g _ cap rest Hrest H)].
        destruct (keep g c _) as [m|] eqn:Hk;
          [|exact (IH g _ cap rest Hrest H)].
        injection H as ->.
        apply keep_Some in Hk as (cap' & Hk & ->).
        specialize (IHs cap' Hk).
        destruct g; [simpl; rewrite IHs, (Hcls c) by auto; reflexivity
                    | exact IHs].
    + revert cap H. induction s as [|c s' IHs]; intros cap H;
        rewrite match_here_lazy in H.
      * destruct (match_here r g "") as [m|] eqn:Hm; [|discriminate].
        injection H as ->. exact (IH g _ cap rest Hrest Hm).
      * destruct (match_here r g (String c s')) as [m|] eqn:Hm.
        { injection H as ->. exact (IH g _ cap rest Hrest Hm). }
        destruct (in_cls cls c) eqn:Hc; [|discriminate].
        apply keep_Some in H as (cap' & Hk & ->).
        specialize (IHs cap' Hk).
        destruct g; [simpl; rewrite IHs, (Hcls c) by auto; reflexivity
                    | exact IHs].
Qed.

Lemma in_cls_lit a c : in_cls [CLit a] c = true -> c = a.
Proof.
  unfold in_cls. simpl. rewrite orb_false_r. apply Ascii.eqb_eq.
Qed.

(** A match starts with [10.], four characters of the digit class and a
    slash, and holds no newline. *)
Lemma doi_match_shape sd s cap rest :
  match_here (doi_nodes sd) false s = Some (cap, rest) ->
  exists d1 d2 d3 d4 tail,
    cap = String "1" (String "0" (String "." (String d1 (String d2
            (String d3 (String d4 (String "/" tail)))))))
    /\ str_all (fun c => negb (Ascii.eqb c Py.LF)) cap = true.
Proof.
  intros H. pose proof H as Hall.
  apply (captured_chars (fun c => negb (Ascii.eqb c Py.LF))) in Hall.
  - unfold doi_nodes in H. cbn [app] in H.
    apply match_here_once in H as (c0 & s0 & cap0 & -> & _ & H & ->).
    change (match_here (NOpen :: ?r) false s0) with (match_here r true s0) in H.
    apply match_here_once in H as (c1 & s1 & cap1 & -> & E1 & H & ->).
    apply match_here_once in H as (c2 & s2 & cap2 & -> & E2 & H & ->).
    apply match_here_once in H as (c3 & s3 & cap3 & -> & E3 & H & ->).
    apply match_here_once in H as (c4 & s4 & cap4 & -> & _ & H & ->).
    apply match_here_once in H as (c5 & s5 & cap5 & -> & _ & H & ->).
    apply match_here_once in H as (c6 & s6 & cap6 & -> & _ & H & ->).
    apply match_here_once in H as (c7 & s7 & cap7 & -> & _ & H & ->).
    apply match_here_once in H as (c8 & s8 & cap8 & -> & E8 & H & ->).
    apply in_cls_lit in E1, E2, E3, E8. subst.
    exists c4, c5, c6, c7, cap8. split; [reflexivity | exact Hall].
  - intros cls c Hin Hc.
    assert (Hcases : In cls [[CLit "1"]; [CLit "0"]; [CLit "."]; [CDigit];
                             [CLit "/"]; [CDot]; [CLit " "; CDigit]]).
    { destruct sd; simpl in Hin; simpl; tauto. }
    clear Hin. simpl in Hcases.
    destruct Hcases as [<-|[<-|[<-|[<-|[<-|[<-|[<-|[]]]]]]]];
      try (apply in_cls_lit in Hc; subst c; reflexivity).
    + unfold in_cls in Hc; simpl in Hc. rewrite orb_false_r in Hc.
      destruct (Ascii.eqb_spec c Py.LF) as [->|]; [discriminate | reflexivity].
    + unfold in_cls in Hc; simpl in Hc. rewrite orb_false_r in Hc. exact Hc.
    + unfold in_cls in Hc; simpl in Hc. rewrite orb_false_r in Hc.
      destruct (Ascii.eqb_spec c Py.LF) as [->|]; [discriminate | reflexivity].
Qed.

Lemma findall_from_head re : forall s skip m,
  head (findall_from re skip s) = Some m ->
  exists s' rest, match_here re false s' = Some (m, rest).
Proof.
  induction s as [|c s IH]; intros skip m H.
  - destruct skip; simpl in H; [|discriminate].
    destruct (match_here re false "") as [[cap rest]|] eqn:Hm;
      [|discriminate].
    injection H as ->. eauto.
  - destruct skip as [|k].
    + unfold findall_from in H; fold findall_from in H.
      destruct (match_here re false (String c s)) as [[cap rest]|] eqn:Hm.
      * injection H as ->. eauto.
      * eapply IH, H.
    + simpl in H. eapply IH, H.
Qed.

Lemma replace_absent a new : forall s,
  str_all (fun c => negb (Ascii.eqb c a)) s = true ->
  Py.replace (String a "") new s = s.
Proof.
  unfold Py.replace. induction s as [|c s IH]; intros H; [reflexivity|].
  simpl in H. apply andb_prop in H as [Hc Hs].
  cbn [Py.replace_from Py.startswith].
  rewrite Ascii.eqb_sym. apply negb_true_iff in Hc. rewrite Hc. simpl.
  now rewrite IH.
Qed.

Lemma replace_char_length a b : forall s,
  String.length (Py.replace (String a "") (String b "") s) = String.length s.
Proof.
  unfold Py.replace. induction s as [|c s IH]; [reflexivity|].
  cbn [Py.replace_from Py.startswith String.length Nat.sub].
  rewrite andb_true_r.
  destruct (Ascii.eqb a c).
  - rewrite append_cons, append_nil. simpl. now rewrite IH.
  - simpl. now rewrite IH.
Qed.

Lemma rstrip_keeps p c : forall a b,
  p c = false ->
  String.length a + 1 <= String.length (Py.rstrip p (a +:+ String c b)).
Proof.
  intros a b Hc. induction a as [|x a IH].
  - rewrite append_nil. simpl. destruct (Py.rstrip p b); [rewrite Hc|];
      simpl; lia.
  - rewrite append_cons. cbn [Py.rstrip].
    destruct (Py.rstrip p (a +:+ String c b)) eqn:Hr; simpl in *; lia.
Qed.

(** The clean-up never cuts into the [10.dddd/] head of a match. *)
Lemma first_match_clean_length sd txt m :
  first_match sd txt = Some m -> 8 <= String.length (clean_doi sd m).
Proof.
  unfold first_match, findall. intros H.
  apply findall_from_head in H as (s' & rest & H).
  apply doi_match_shape in H as (d1 & d2 & d3 & d4 & tail & -> & Hall).
  unfold clean_doi. rewrite (replace_absent Py.LF "" _ Hall).
  assert (Hs : 8 <= String.length
                      (Py.strip (Py.one_of ".")
                         (String "1" (String "0" (String "." (String d1
                           (String d2 (String d3 (String d4
                             (String "/" tail)))))))))).
  { unfold Py.strip. cbn [Py.lstrip]. change (Py.one_of "." "1") with false.
    cbv iota.
    apply (rstrip_keeps (Py.one_of ".") "/"
             (String "1" (String "0" (String "." (String d1 (String d2
                (String d3 (String d4 ""))))))) tail). reflexivity. }
  destruct sd; [rewrite replace_char_length|]; exact Hs.
Qed.

Lemma replace_char_cons a b c s :
  Py.replace (String a "") (String b "") (String c s)
  = String (if Ascii.eqb a c then b else c)
           (Py.replace (String a "") (String b "") s).
Proof.
  unfold Py.replace.
  cbn [Py.replace_from Py.startswith String.length Nat.sub].
  rewrite andb_true_r. destruct (Ascii.eqb a c); [|reflexivity].
  now rewrite append_cons, append_nil.
Qed.

(** The clean-up of a match, as the specification words it. *)
Lemma filter_all (p : ascii -> bool) : forall s,
  str_all p s = true ->
  List.filter p (list_ascii_of_string s) = list_ascii_of_string s.
Proof.
  induction s as [|c s IH]; [reflexivity|]. simpl. intros H.
  apply andb_prop in H as [-> H]. now rewrite (IH H).
Qed.

Lemma drop_leading_snoc p c : forall l,
  drop_leading p (l ++ [c]) =
  match drop_leading p l with
  | [] => if p c then [] else [c]
  | r => r ++ [c]
  end.
Proof.
  induction l as [|x l IH]; [reflexivity|]. simpl.
  destruct (p x); [exact IH | reflexivity].
Qed.

Lemma rstrip_last (p : ascii -> bool) : forall s,
  list_ascii_of_string (Py.rstrip p s)
  = rev (drop_leading p (rev (list_ascii_of_string s))).
Proof.
  induction s as [|c s IH]; [reflexivity|].
  cbn [Py.rstrip list_ascii_of_string rev]. rewrite drop_leading_snoc.
  destruct (drop_leading p (rev (list_ascii_of_string s))) as [|x r].
  - destruct (Py.rstrip p s); [|discriminate]. now destruct (p c).
  - rewrite rev_app_distr. change (rev [c]) with [c]. cbn [app].
    rewrite <- IH.
    destruct (Py.rstrip p s) eqn:E; [|reflexivity].
    cbn in IH. symmetry in IH. apply app_eq_nil in IH as [_ IH].
    discriminate.
Qed.

Lemma replace_space_map : forall s,
  list_ascii_of_string (Py.replace " " "_" s)
  = map (fun c => if Ascii.eqb c " " then "_"%char else c)
        (list_ascii_of_string s).
Proof.
  induction s as [|c s IH]; [reflexivity|].
  rewrite replace_char_cons. cbn [list_ascii_of_string map].
  now rewrite IH, (Ascii.eqb_sym " " c).
Qed.

Lemma clean_doi_as_specified s m rest :
  match_here (doi_nodes true) false s = Some (m, rest) ->
  clean_doi true m = spec_clean_doi m.
Proof.
  intros H.
  apply doi_match_shape in H as (d1 & d2 & d3 & d4 & tail & -> & Hlf).
  unfold clean_doi, spec_clean_doi.
  rewrite (replace_absent Py.LF "" _ Hlf), (filter_all _ _ Hlf).
  unfold Py.strip. cbn [Py.lstrip]. change (Py.one_of "." "1") with false.
  cbv iota.
  rewrite <- (string_of_list_ascii_of_string (Py.replace " " "_" _)).
  rewrite replace_space_map, rstrip_last. do 3 f_equal.
  generalize (rev (list_ascii_of_string
    (String "1" (String "0" (String "." (String d1 (String d2
       (String d3 (String d4 (String "/" tail)))))))))).
  induction l as [|c l IH]; [reflexivity|]. simpl.
  unfold Py.one_of at 1. simpl. rewrite orb_false_r.
  destruct (Ascii.eqb c "."); [exact IH | reflexivity].
Qed.

End MatchShape.

(** The DOI round trip of the specification. *)
Example parse_doi_round_trip :
  parse_doi "doi: 10.5194/bg-8-515-2011, " true = OK "10.5194/bg-8-515-2011"
  /\ parse_doi "doi: 10.5194/bg-8-515-2011, " false
     = OK "10.5194/bg-8-515-2011".
Proof. split; vm_compute; reflexivity. Qed.

(** The character before the DOI is all that the prefix part of the pattern
    looks at: a match starts with one character of [prefix_class]. *)
Lemma doi_match_prefix_char sd c s m :
  Re.match_here (doi_nodes sd) false (String c s) = Some m ->
  Re.in_cls prefix_class c = true.
Proof.
  destruct m as [cap rest]. unfold doi_nodes. cbn [app]. intros H.
  apply match_here_once in H as (c' & s' & cap' & [= <- <-] & Hc & _).
  exact Hc.
Qed.

(** C7 does not hold as stated: a text that holds
    [doi:10.5194/bg 8 515 2011,] after another DOI candidate is parsed to
    that candidate, the first match being the one that is taken. *)
Lemma parse_doi_earlier_candidate :
  parse_doi (" 10.1234/x " +:+ "doi:10.5194/bg 8 515 2011,") true
  = OK "10.1234/x"
  /\ candidate_at true (" 10.1234/x " +:+ "doi:10.5194/bg 8 515 2011,") 0
     = true.
Proof. split; vm_compute; reflexivity. Qed.

(** C7, amended.  With the space-digit fix, a text that starts with
    [doi:10.5194/bg 8 515 2011,] is parsed to [10.5194/bg_8_515_2011],
    whatever follows.  So is a text that holds it further on, when no DOI
    candidate starts before that place: the first match is then
    [10.5194/bg 8 515 2011].  Of the first match of any text, whatever it
    is, [parse_doi] returns the clean-up that the specification words:
    without newlines (a match holds none), without the periods at its end,
    and with underscores for its spaces; a period before the comma is
    taken off in this way. *)
Theorem parse_doi_space_digit_fix :
  (forall post,
     parse_doi ("doi:10.5194/bg 8 515 2011," +:+ post) true
     = OK "10.5194/bg_8_515_2011")
  /\ (forall pre post,
        (forall i, i < String.length pre ->
           candidate_at true (pre +:+ "doi:10.5194/bg 8 515 2011," +:+ post) i
           = false) ->
        first_match true (pre +:+ "doi:10.5194/bg 8 515 2011," +:+ post)
        = Some "10.5194/bg 8 515 2011"
        /\ clean_doi true "10.5194/bg 8 515 2011" = "10.5194/bg_8_515_2011"
        /\ parse_doi (pre +:+ "doi:10.5194/bg 8 515 2011," +:+ post) true
           = OK "10.5194/bg_8_515_2011")
  /\ (forall txt m,
        first_match true txt = Some m ->
        str_all (fun c => negb (Ascii.eqb c Py.LF)) m = true
        /\ parse_doi txt true
           = if Nat.ltb 8 (String.length (spec_clean_doi m))
             then OK (spec_clean_doi m)
             else Raise (AssertionError
                           ("failed to extract doi: " +:+ spec_clean_doi m)))
  /\ spec_clean_doi "10.5194/bg 8 515 2011" = "10.5194/bg_8_515_2011"
  /\ parse_doi "doi:10.5194/bg-8-515-2011., " true
     = OK "10.5194/bg-8-515-2011".
Proof.
  assert (Hgen : forall pre post,
    (forall i, i < String.length pre ->
       candidate_at true (pre +:+ "doi:10.5194/bg 8 515 2011," +:+ post) i
       = false) ->
    first_match true (pre +:+ "doi:10.5194/bg 8 515 2011," +:+ post)
    = Some "10.5194/bg 8 515 2011"
    /\ clean_doi true "10.5194/bg 8 515 2011" = "10.5194/bg_8_515_2011"
    /\ parse_doi (pre +:+ "doi:10.5194/bg 8 515 2011," +:+ post) true
       = OK "10.5194/bg_8_515_2011").
  { intros pre post Hpre.
    assert (Hfirst : first_match true
              (pre +:+ "doi:10.5194/bg 8 515 2011," +:+ post)
            = Some "10.5194/bg 8 515 2011").
    { unfold first_match, Re.findall. rewrite !lower_app.
      rewrite findall_skip_prefix.
      - change (Py.lower "doi:10.5194/bg 8 515 2011,")
          with "doi:10.5194/bg 8 515 2011,".
        rewrite !append_cons, append_nil.
        do 3 (rewrite findall_from_nomatch by reflexivity).
        apply findall_from_match with (rest := Py.lower post). reflexivity.
      - intros i Hi. rewrite lower_length in Hi.
        rewrite <- !lower_app. apply candidate_at_spec, Hpre, Hi. }
    split; [exact Hfirst|]. split; [vm_compute; reflexivity|].
    rewrite parse_doi_first_match, Hfirst. vm_compute. reflexivity. }
  split; [|split; [exact Hgen|split; [|split; vm_compute; reflexivity]]].
  - intros post. apply (Hgen "" post). intros i Hi. simpl in Hi. lia.
  - intros txt m Hm. rewrite parse_doi_first_match, Hm.
    unfold first_match, Re.findall in Hm.
    apply findall_from_head in Hm as (s' & rest & Hm).
    rewrite (clean_doi_as_specified _ _ _ Hm). split; [|reflexivity].
    now apply doi_match_shape in Hm as (_ & _ & _ & _ & _ & _ & Hlf).
Qed.

Lemma parse_doi_space_digit_fix_witness :
  parse_doi ("Biogeosciences, " +:+ "doi:10.5194/bg 8 515 2011,"
             +:+ " 2011") true
  = OK "10.5194/bg_8_515_2011".
Proof.
  apply (proj1 (proj2 parse_doi_space_digit_fix) "Biogeosciences, " " 2011").
  intros i Hi.
  do 16 (destruct i as [|i]; [vm_compute; reflexivity|]).
  simpl in Hi. lia.
Defined.

(** C1.  [parse_doi] finds a DOI that none of the five prefixes precedes:
    the prefix part of the pattern is a character class, so one character
    out of [doi:| x.rg/] before the DOI is enough, here the space after
    [see] (and the [g] of [org], and a bar). *)
Theorem parse_doi_matches_without_prefix :
  ends_with_recognized_prefix "see " = false
  /\ parse_doi "see 10.5194/bg-8-515-2011 for details" true
     = OK "10.5194/bg-8-515-2011"
  /\ parse_doi "see 10.5194/bg-8-515-2011 for details" false
     = OK "10.5194/bg-8-515-2011"
  /\ ends_with_recognized_prefix "org" = false
  /\ parse_doi "org10.5194/bg-8-515-2011 " false = OK "10.5194/bg-8-515-2011"
  /\ ends_with_recognized_prefix "|" = false
  /\ parse_doi "|10.5194/bg-8-515-2011 " false = OK "10.5194/bg-8-515-2011".
Proof. repeat split; vm_compute; reflexivity. Qed.

Section ExtractDoi.

Variable co : collaborators.

Lemma readpdf_result pdf first last w :
  own_text pdf ->
  exists w',
    readpdf co pdf first last false w =
    (match pdftotext co pdf first last with
     | Some t => OK t
     | None => Raise CalledProcessError
     end, w').
Proof.
  unfold own_text, txtfile_of. intros Hown. unfold readpdf. rewrite Hown.
  destruct (pdftotext co pdf first last) as [t|]; [|eauto].
  cbn [fs set_fs]. rewrite lookup_insert_eq. eauto.
Qed.

(** The result of [extract_doi], by cases on the two pages. *)
Lemma extract_doi_result pdf sd w :
  own_text pdf ->
  fst (extract_doi co pdf sd w) =
  match page_text co pdf 1 with
  | None => Raise CalledProcessError
  | Some t1 =>
      match parse_doi t1 sd with
      | Raise (ValueError _) =>
          match page_text co pdf 2 with
          | None => Raise CalledProcessError
          | Some t2 => parse_doi t2 sd
          end
      | r => r
      end
  end.
Proof.
  intros Hown. unfold extract_doi, page_text, mbind, prog_bind.
  destruct (readpdf_result pdf (Some 1) (Some 1) w Hown) as [w1 ->].
  destruct (pdftotext co pdf (Some 1) (Some 1)) as [t1|]; [|reflexivity].
  destruct (parse_doi t1 sd) as [d|[]]; try reflexivity.
  destruct (readpdf_result pdf (Some 2) (Some 2) w1 Hown) as [w2 ->].
  destruct (pdftotext co pdf (Some 2) (Some 2)) as [t2|]; reflexivity.
Qed.

Lemma parse_doi_not_found txt sd :
  not_found (parse_doi txt sd) <-> first_match sd txt = None.
Proof.
  rewrite parse_doi_first_match. unfold not_found.
  destruct (first_match sd txt) as [m|].
  - destruct (Nat.ltb _ _); (split; [intros [? ?]|intros ?]); congruence.
  - split; eauto.
Qed.

Lemma parse_doi_validation txt sd :
  validation_failure (parse_doi txt sd) <->
  exists m, first_match sd txt = Some m
            /\ String.length (clean_doi sd m) <= 8.
Proof.
  rewrite parse_doi_first_match. unfold validation_failure.
  destruct (first_match sd txt) as [m|].
  - destruct (Nat.ltb_spec 8 (String.length (clean_doi sd m))).
    + split; [intros [? ?]; congruence|].
      intros (m' & [= <-] & Hm). lia.
    + split; [|eauto]. intros _. exists m. split; [reflexivity | lia].
  - split; [intros [? ?]; congruence | intros (? & ? & _); congruence].
Qed.

Lemma selected_match_result pdf sd w :
  own_text pdf ->
  fst (extract_doi co pdf sd w) =
  match page_text co pdf 1 with
  | None => Raise CalledProcessError
  | Some t1 =>
      match first_match sd t1 with
      | Some _ => parse_doi t1 sd
      | None =>
          match page_text co pdf 2 with
          | None => Raise CalledProcessError
          | Some t2 => parse_doi t2 sd
          end
      end
  end.
Proof.
  intros Hown. rewrite (extract_doi_result _ _ _ Hown).
  destruct (page_text co pdf 1) as [t1|]; [|reflexivity].
  rewrite (parse_doi_first_match t1).
  destruct (first_match sd t1) as [m|]; [|reflexivity].
  now destruct (Nat.ltb _ _).
Qed.

End ExtractDoi.

(** C4 does not hold as stated: [10.1/ab] after a prefix and before
    a comma is no match, since the pattern asks for four digits after
    [10.], and [extract_doi] ends with the not-found error, not with the
    validation error. *)
Lemma extract_doi_short_candidate_not_found :
  fst (extract_doi (same_pages "doi:10.1/ab, ") "paper.pdf" true empty_world)
  = Raise (ValueError "no matches")
  /\ ~ validation_failure
        (fst (extract_doi (same_pages "doi:10.1/ab, ") "paper.pdf" true
                          empty_world))
  /\ first_match true "doi:10.1/ab, " = None
  /\ first_match false "doi:10.1/ab, " = None.
Proof.
  assert (H : fst (extract_doi (same_pages "doi:10.1/ab, ") "paper.pdf" true
                               empty_world)
              = Raise (ValueError "no matches")) by (vm_compute; reflexivity).
  split; [exact H|]. split; [|split; vm_compute; reflexivity].
  rewrite H. intros [msg Hmsg]. discriminate.
Qed.

(** C4, amended.  For a PDF named so that [readpdf] finds the text that
    pdftotext wrote, as [paper.pdf] is (a name ending in [.pdf] that holds
    [.pdf] nowhere else), [extract_doi] raises the not-found error exactly
    when both pages are read and neither has a match; it raises the validation
    error exactly when the match it selects (the first one of page 1, else
    the first one of page 2) has a cleaned length of at most 8.  A match
    always keeps its [10.dddd/] head, so that length is then 8, as for
    [10.1234/]; a cleaned length of 9 or more is returned. *)
Theorem extract_doi_failures (co : collaborators) (pdf : string)
    (space_digit : bool) (w : world) :
  own_text pdf ->
  let r := fst (extract_doi co pdf space_digit w) in
  (not_found r <->
     exists t1 t2,
       page_text co pdf 1 = Some t1 /\ page_text co pdf 2 = Some t2
       /\ first_match space_digit t1 = None
       /\ first_match space_digit t2 = None)
  /\ (validation_failure r <->
        exists m, selected_match co pdf space_digit = Some m
                  /\ String.length (clean_doi space_digit m) <= 8)
  /\ (forall m, selected_match co pdf space_digit = Some m ->
                8 <= String.length (clean_doi space_digit m))
  /\ (forall m, selected_match co pdf space_digit = Some m ->
                9 <= String.length (clean_doi space_digit m) ->
                r = OK (clean_doi space_digit m))
  /\ fst (extract_doi (same_pages "doi:10.1234/ ") pdf space_digit w)
     = Raise (AssertionError "failed to extract doi: 10.1234/")
  /\ fst (extract_doi (same_pages "doi:10.1234/a ") pdf space_digit w)
     = OK "10.1234/a".
Proof.
  intros Hown. cbv zeta. rewrite (selected_match_result _ _ _ _ Hown).
  unfold selected_match.
  refine (conj _ (conj _ (conj _ (conj _ (conj _ _))))).
  - destruct (page_text co pdf 1) as [t1|].
    + destruct (first_match space_digit t1) as [m|] eqn:H1.
      * rewrite parse_doi_not_found, H1.
        split; [discriminate|]. intros (t1' & t2 & [= <-] & _ & ? & _).
        congruence.
      * destruct (page_text co pdf 2) as [t2|].
        -- rewrite parse_doi_not_found. split.
           ++ intros H2. exists t1, t2. auto.
           ++ intros (t1' & t2' & [= <-] & [= <-] & _ & H2). exact H2.
        -- split; [intros [? ?]; discriminate|].
           intros (? & ? & _ & ? & _). discriminate.
    + split; [intros [? ?]; discriminate|].
      intros (? & ? & ? & _). discriminate.
  - destruct (page_text co pdf 1) as [t1|].
    + destruct (first_match space_digit t1) as [m|] eqn:H1.
      * rewrite parse_doi_validation, H1. reflexivity.
      * destruct (page_text co pdf 2) as [t2|].
        -- apply parse_doi_validation.
        -- split; [intros [? ?]; discriminate|].
           intros (? & ? & _). discriminate.
    + split; [intros [? ?]; discriminate|].
      intros (? & ? & _). discriminate.
  - intros m Hm.
    destruct (page_text co pdf 1) as [t1|]; [|discriminate].
    destruct (first_match space_digit t1) as [m1|] eqn:H1.
    + injection Hm as ->. exact (first_match_clean_length _ _ _ H1).
    + destruct (page_text co pdf 2) as [t2|]; [|discriminate].
      exact (first_match_clean_length _ _ _ Hm).
  - intros m Hm Hlen.
    assert (Hok : forall t, first_match space_digit t = Some m ->
                            parse_doi t space_digit
                            = OK (clean_doi space_digit m)).
    { intros t Ht. rewrite parse_doi_first_match, Ht.
      destruct (Nat.ltb_spec 8 (String.length (clean_doi space_digit m)));
        [reflexivity | lia]. }
    destruct (page_text co pdf 1) as [t1|]; [|discriminate].
    destruct (first_match space_digit t1) as [m1|] eqn:H1.
    + injection Hm as ->. exact (Hok _ H1).
    + destruct (page_text co pdf 2) as [t2|]; [|discriminate].
      exact (Hok _ Hm).
  - rewrite (extract_doi_result _ _ _ _ Hown).
    destruct space_digit; vm_compute; reflexivity.
  - rewrite (extract_doi_result _ _ _ _ Hown).
    destruct space_digit; vm_compute; reflexivity.
Qed.

Lemma extract_doi_failures_witness :
  own_text "paper.pdf"
  /\ fst (extract_doi (same_pages "doi:10.1234/a ") "paper.pdf" true
                      empty_world)
     = OK "10.1234/a".
Proof.
  split; [reflexivity|].
  apply (extract_doi_failures (same_pages "doi:10.1234/a ") "paper.pdf" true
           empty_world).
  reflexivity.
Defined.

(** A PDF named otherwise: pdftotext writes [paper.txt], [readpdf] opens
    [paper.PDF], and what the pages read does not come into it. *)
Example extract_doi_other_name :
  txtfile_of "paper.PDF" = "paper.PDF"
  /\ pdftotext_target "paper.PDF" = "paper.txt"
  /\ extract_doi (same_pages "doi:10.1234/a ") "paper.PDF" true empty_world
     = (Raise (IOError "paper.PDF"),
        set_fs (<["paper.txt" := "doi:10.1234/a "]> ∅) empty_world)
  /\ extract_doi (same_pages "doi:10.1234/a ") "paper.PDF" true
       (set_fs (<["paper.PDF" := "%PDF doi:10.9999/zz "]> ∅) empty_world)
     = (OK "10.9999/zz",
        set_fs (<["paper.txt" := "doi:10.1234/a "]> ∅) empty_world).
Proof. repeat split; vm_compute; reflexivity. Qed.

(** * Properties of the library index *)

Section KeyOrder.

Lemma leb_ltb a b : String.leb a b = negb (String.ltb b a).
Proof.
  unfold String.leb, String.ltb. rewrite (String.compare_antisym b a).
  now destruct (String.compare a b).
Qed.

Lemma ltb_lt a b : String.ltb a b = true <-> String_as_OT.lt a b.
Proof.
  unfold String.ltb. rewrite <- String_as_OT.cmp_lt. unfold String_as_OT.cmp.
  destruct (String.compare a b); split; congruence.
Qed.

Lemma ltb_irrefl a : String.ltb a a = false.
Proof.
  destruct (String.ltb a a) eqn:H; [|reflexivity].
  apply ltb_lt, String_as_OT.lt_not_eq in H. now destruct H.
Qed.

Lemma ltb_trans a b c :
  String.ltb a b = true -> String.ltb b c = true -> String.ltb a c = true.
Proof. rewrite !ltb_lt. apply String_as_OT.lt_trans. Qed.

Lemma ltb_leb_incl a b : String.ltb a b = true -> String.leb a b = true.
Proof.
  unfold String.ltb, String.leb. now destruct (String.compare a b).
Qed.

Lemma leb_cases a b : String.leb a b = true -> String.ltb a b = true \/ a = b.
Proof.
  unfold String.ltb, String.leb.
  destruct (String.compare a b) eqn:H; try discriminate; auto.
  right. now apply String.compare_eq_iff.
Qed.

Lemma leb_refl a : String.leb a a = true.
Proof. rewrite leb_ltb, ltb_irrefl. reflexivity. Qed.

Lemma leb_ltb_trans a b c :
  String.leb a b = true -> String.ltb b c = true -> String.ltb a c = true.
Proof.
  intros [H| ->]%leb_cases; [apply ltb_trans, H | trivial].
Qed.

Lemma ltb_leb_trans a b c :
  String.ltb a b = true -> String.leb b c = true -> String.ltb a c = true.
Proof.
  intros H [H'| <-]%leb_cases; [eapply ltb_trans; eauto | trivial].
Qed.

#[local] Instance key_le_trans : Transitive key_le.
Proof.
  intros a b c [H| ->]%leb_cases H'; [|exact H'].
  apply ltb_leb_incl. eapply ltb_leb_trans; eauto.
Qed.

#[local] Instance key_le_refl : Reflexive key_le.
Proof. intros a. apply leb_refl. Qed.

Lemma nondecreasing_strong keys :
  nondecreasing keys <-> StronglySorted key_le keys.
Proof.
  split; [|apply StronglySorted_Sorted].
  apply Sorted.Sorted_StronglySorted. exact key_le_trans.
Qed.

(** In a list that never decreases, a later item is not smaller. *)
Lemma nondecreasing_lookup keys i j a b :
  nondecreasing keys -> i <= j ->
  keys !! i = Some a -> keys !! j = Some b -> key_le a b.
Proof.
  rewrite nondecreasing_strong. intros Hs. revert i j.
  induction Hs as [|x l Hs IH Hx]; intros i j Hij Hi Hj; [discriminate|].
  destruct i as [|i], j as [|j]; simpl in *; try lia.
  - injection Hi as <-. injection Hj as <-. reflexivity.
  - injection Hi as <-. rewrite Forall_forall in Hx.
    apply Hx. eapply list_elem_of_lookup_2, Hj.
  - apply (IH i j); [lia | exact Hi | exact Hj].
Qed.

End KeyOrder.

Section Bisect.

Variable a : list string.
Variable x : string.
Hypothesis a_sorted : nondecreasing a.

Lemma bisect_loop_inv fuel : forall lo hi,
  hi - lo <= fuel -> bisect_inv a x lo hi ->
  let r := bisect_loop fuel a x lo hi in bisect_inv a x r r.
Proof.
  induction fuel as [|fuel IH]; intros lo hi Hfuel (Hb & Hlo & Hhi);
    cbn [bisect_loop]; cbv zeta.
  - assert (lo = hi) as -> by lia. repeat split; auto; lia.
  - destruct (Nat.ltb_spec lo hi) as [Hlt|Hge].
    2:{ assert (lo = hi) as -> by lia. repeat split; auto; lia. }
    pose proof (Nat.div_mod_eq (lo + hi) 2) as Hdiv.
    pose proof (Nat.mod_upper_bound (lo + hi) 2 ltac:(lia)) as Hmod.
    set (mid := (lo + hi) / 2) in *.
    assert (Hmid : lo <= mid < hi) by lia.
    destruct (lookup_lt_is_Some_2 a mid ltac:(lia)) as [am Ham].
    rewrite Ham. destruct (String.ltb am x) eqn:Hcmp.
    + apply IH; [lia|]. split; [lia|]. split; [|exact Hhi].
      intros j v Hj Hv.
      assert (key_le v am)
        by (eapply (nondecreasing_lookup a j mid); eauto; lia).
      eapply leb_ltb_trans; eauto.
    + apply IH; [lia|]. split; [lia|]. split; [exact Hlo|].
      intros j v Hj Hv.
      assert (Hle : key_le am v)
        by (eapply (nondecreasing_lookup a mid j); eauto).
      destruct (String.ltb v x) eqn:Hv'; [|reflexivity].
      rewrite (leb_ltb_trans am v x Hle Hv') in Hcmp. discriminate.
Qed.

(** [bisect_left] on a sorted list: the items before the place it returns
    are smaller than [x], the items from that place on are not. *)
Lemma bisect_left_spec :
  let i := bisect_left a x in
  i <= length a
  /\ (forall j v, j < i -> a !! j = Some v -> String.ltb v x = true)
  /\ (forall j v, i <= j -> a !! j = Some v -> String.ltb v x = false).
Proof.
  unfold bisect_left.
  destruct (bisect_loop_inv (length a) 0 (length a)) as (Hb & Hlo & Hhi).
  - lia.
  - split; [lia|]. split; [intros; lia|].
    intros j v Hj Hv. apply lookup_lt_Some in Hv. lia.
  - split; [lia|]. split; assumption.
Qed.

End Bisect.

Section MapM.

Context {A B : Type} (f : A -> result B).

Lemma mapM_OK l ks :
  mapM f l = OK ks <-> Forall2 (fun x k => f x = OK k) l ks.
Proof.
  revert ks. induction l as [|x l IH]; intros ks; simpl.
  - split; [intros [= <-]; constructor | intros ->%Forall2_nil_inv_l; reflexivity].
  - unfold mbind, result_bind, mret, result_ret.
    destruct (f x) as [k|ex] eqn:Hx.
    + destruct (mapM f l) as [ks'|ex] eqn:Hl.
      * split.
        -- intros [= <-]. constructor; [exact Hx | now apply IH].
        -- intros (k' & ks'' & Hk & Hks & ->)%Forall2_cons_inv_l.
           apply IH in Hks. congruence.
      * split; [discriminate|].
        intros (k' & ks'' & Hk & Hks & ->)%Forall2_cons_inv_l.
        apply IH in Hks. discriminate.
    + split; [discriminate|].
      intros (k' & ks'' & Hk & Hks & ->)%Forall2_cons_inv_l. congruence.
Qed.

End MapM.

Section InsertEntry.

Variable my : MyRef.
Variable keys : list string.
Hypothesis Hkeys : keys_of my = OK keys.
Hypothesis Hsorted : nondecreasing keys.

Variable e : record.
Variable k : string.
Hypothesis Hk : key my e = OK k.

Let i := bisect_left keys k.

Lemma keys_entries : Forall2 (fun x k => key my x = OK k) (entries my) keys.
Proof. now apply mapM_OK. Qed.

Lemma keys_length : length (entries my) = length keys.
Proof. exact (Forall2_length _ _ _ keys_entries). Qed.

Lemma key_set_entries l x : key (set_entries l my) x = key my x.
Proof. reflexivity. Qed.

(** The binary search finds the key when the key is there. *)
Lemma bisect_left_found : k ∈ keys <-> keys !! i = Some k.
Proof.
  split; [|apply list_elem_of_lookup_2].
  intros [j Hj]%list_elem_of_lookup_1.
  destruct (bisect_left_spec keys k Hsorted) as (Hlen & Hlo & Hhi).
  fold i in Hlen, Hlo, Hhi.
  assert (Hij : i <= j).
  { destruct (Nat.le_gt_cases i j) as [|Hlt]; [assumption|].
    specialize (Hlo j k Hlt Hj). rewrite ltb_irrefl in Hlo. discriminate. }
  destruct (lookup_lt_is_Some_2 keys i) as [v Hv].
  { apply lookup_lt_Some in Hj. lia. }
  rewrite Hv. f_equal. apply String.leb_antisym.
  - exact (nondecreasing_lookup keys i j v k Hsorted Hij Hv Hj).
  - rewrite leb_ltb, (Hhi i v (Nat.le_refl i) Hv). reflexivity.
Qed.

Lemma found_test :
  Nat.ltb i (length keys) && bool_decide (keys !! i = Some k)
  = bool_decide (k ∈ keys).
Proof.
  destruct (decide (k ∈ keys)) as [Hin|Hin].
  - rewrite (bool_decide_eq_true_2 _ Hin).
    apply bisect_left_found in Hin.
    rewrite (bool_decide_eq_true_2 _ Hin), andb_true_r.
    apply Nat.ltb_lt. eapply lookup_lt_Some, Hin.
  - rewrite (bool_decide_eq_false_2 _ Hin).
    rewrite bool_decide_eq_false_2, andb_false_r; [reflexivity|].
    now rewrite <- bisect_left_found.
Qed.

(** [insert_entry], by cases. *)
Lemma insert_entry_present replace :
  k ∈ keys ->
  exists existing,
    entries my !! i = Some existing /\ key my existing = OK k
    /\ insert_entry e replace my =
       if replace
       then (OK (i, e), set_entries (<[i := e]> (entries my)) my)
       else (OK (i, existing), my).
Proof.
  intros Hin. pose proof Hin as Hi. apply bisect_left_found in Hi.
  destruct (Forall2_lookup_r _ _ _ _ _ keys_entries Hi) as (ei & Hei & Hkei).
  exists ei. split; [exact Hei|]. split; [exact Hkei|].
  unfold insert_entry. fold (keys_of my). rewrite Hkeys, Hk. fold i.
  rewrite found_test, (bool_decide_eq_true_2 _ Hin).
  destruct replace; cbn [entries set_entries].
  - rewrite list_lookup_insert_eq; [reflexivity|].
    eapply lookup_lt_Some, Hei.
  - now rewrite Hei.
Qed.

Lemma insert_entry_absent replace :
  k ∉ keys ->
  insert_entry e replace my =
  (OK (i, e),
   set_entries (take i (entries my) ++ e :: drop i (entries my)) my).
Proof.
  intros Hin. unfold insert_entry. fold (keys_of my). rewrite Hkeys, Hk.
  fold i. now rewrite found_test, (bool_decide_eq_false_2 _ Hin).
Qed.

(** The keys after the call. *)
Lemma keys_after_replace :
  k ∈ keys ->
  keys_of (set_entries (<[i := e]> (entries my)) my) = OK keys.
Proof.
  intros Hi%bisect_left_found. unfold keys_of. cbn [entries set_entries].
  apply mapM_OK. rewrite <- (list_insert_id keys i k Hi).
  apply Forall2_insert; [exact keys_entries | exact Hk].
Qed.

Lemma keys_after_insert :
  keys_of (set_entries (take i (entries my) ++ e :: drop i (entries my)) my)
  = OK (take i keys ++ k :: drop i keys).
Proof.
  unfold keys_of. cbn [entries set_entries]. apply mapM_OK.
  apply Forall2_app; [apply Forall2_take, keys_entries|].
  constructor; [exact Hk | apply Forall2_drop, keys_entries].
Qed.

Lemma nondecreasing_insert : nondecreasing (take i keys ++ k :: drop i keys).
Proof.
  destruct (bisect_left_spec keys k Hsorted) as (Hlen & Hlo & Hhi).
  fold i in Hlen, Hlo, Hhi.
  pose proof Hsorted as Hs. rewrite nondecreasing_strong in Hs.
  rewrite <- (take_drop i keys) in Hs.
  apply StronglySorted_app in Hs as (Hcross & Htake & Hdrop).
  apply nondecreasing_strong, StronglySorted_app.
  assert (Hbefore : forall v, v ∈ take i keys -> String.ltb v k = true).
  { intros v [j Hj]%list_elem_of_lookup_1.
    pose proof (lookup_lt_Some _ _ _ Hj) as Hjl. rewrite length_take in Hjl.
    rewrite lookup_take_lt in Hj by lia. apply (Hlo j v); [lia | exact Hj]. }
  assert (Hafter : forall v, v ∈ drop i keys -> key_le k v).
  { intros v [j Hj]%list_elem_of_lookup_1. rewrite lookup_drop in Hj.
    unfold key_le. rewrite leb_ltb, (Hhi (i + j) v); [reflexivity|lia|exact Hj]. }
  split; [|split; [exact Htake|]].
  - intros x1 x2 H1 [->|H2]%elem_of_cons.
    + apply ltb_leb_incl, Hbefore, H1.
    + apply Hcross; assumption.
  - apply StronglySorted_cons. split; [|exact Hdrop].
    apply Forall_forall. exact Hafter.
Qed.

(** The invariant is kept, whatever the call does. *)
Lemma insert_entry_sorted replace :
  sorted_index (snd (insert_entry e replace my)).
Proof.
  destruct (decide (k ∈ keys)) as [Hin|Hin].
  - destruct (insert_entry_present replace Hin) as (ei & _ & _ & ->).
    destruct replace; cbn [snd].
    + exists keys. split; [apply keys_after_replace, Hin | exact Hsorted].
    + exists keys. split; [exact Hkeys | exact Hsorted].
  - rewrite (insert_entry_absent replace Hin). cbn [snd].
    eexists. split; [apply keys_after_insert | apply nondecreasing_insert].
Qed.

(** After the call the key is in the collection. *)
Lemma insert_entry_key_present replace :
  exists keys', keys_of (snd (insert_entry e replace my)) = OK keys'
                /\ nondecreasing keys' /\ k ∈ keys'.
Proof.
  destruct (decide (k ∈ keys)) as [Hin|Hin].
  - destruct (insert_entry_present replace Hin) as (ei & _ & _ & ->).
    exists keys. destruct replace; cbn [snd];
      (split; [first [apply keys_after_replace, Hin | exact Hkeys]|]);
      split; assumption.
  - rewrite (insert_entry_absent replace Hin). cbn [snd].
    eexists. split; [apply keys_after_insert|].
    split; [apply nondecreasing_insert|]. set_solver.
Qed.

End InsertEntry.

Section Sort.

Variable my : MyRef.

Lemma insert_by_key_perm x l : insert_by_key x l ≡ₚ x :: l.
Proof.
  induction l as [|y l IH]; simpl; [reflexivity|].
  destruct (String.leb x.1 y.1); [reflexivity|].
  rewrite IH. apply perm_swap.
Qed.

Lemma sorted_perm l : sorted l ≡ₚ l.
Proof.
  induction l as [|x l IH]; simpl; [reflexivity|].
  now rewrite insert_by_key_perm, IH.
Qed.

Lemma insert_by_key_sorted x l :
  StronglySorted key_le (map fst l) ->
  StronglySorted key_le (map fst (insert_by_key x l)).
Proof.
  induction l as [|y l IH]; simpl; intros Hs.
  - repeat constructor.
  - apply StronglySorted_cons in Hs as [Hy Hs].
    destruct (String.leb x.1 y.1) eqn:Hxy; simpl.
    + apply StronglySorted_cons. split.
      * constructor; [exact Hxy|].
        eapply Forall_impl; [exact Hy|]. intros v Hv.
        exact (key_le_trans _ _ _ Hxy Hv).
      * apply StronglySorted_cons. auto.
    + apply StronglySorted_cons. split; [|auto].
      rewrite insert_by_key_perm. simpl. constructor; [|exact Hy].
      apply ltb_leb_incl. rewrite leb_ltb in Hxy.
      now apply negb_false_iff in Hxy.
Qed.

Lemma sorted_sorted l : nondecreasing (map fst (sorted l)).
Proof.
  apply nondecreasing_strong.
  induction l as [|x l IH]; simpl; [constructor|].
  apply insert_by_key_sorted, IH.
Qed.

Lemma sorted_keyed l : Forall (keyed my) l -> Forall (keyed my) (sorted l).
Proof. now rewrite sorted_perm. Qed.

Lemma zip_keyed ks es :
  Forall2 (fun x k => key my x = OK k) es ks -> Forall (keyed my) (zip ks es).
Proof. induction 1; simpl; constructor; auto. Qed.

Lemma keyed_keys l :
  Forall (keyed my) l -> mapM (key my) (map snd l) = OK (map fst l).
Proof.
  intros H. apply mapM_OK. induction H; simpl; constructor; auto.
Qed.

(** [sort] leaves a collection that satisfies the invariant, or raises
    without a change. *)
Lemma sort_sorted r my' :
  sort my = (r, my') ->
  match r with
  | OK _ => sorted_index my'
  | Raise _ => my' = my
  end.
Proof.
  unfold sort. destruct (mapM (key my) (entries my)) as [ks|ex] eqn:Hks;
    intros [= <- <-]; [|reflexivity].
  exists (map fst (sorted (zip ks (entries my)))).
  split; [|apply sorted_sorted].
  unfold keys_of. cbn [entries set_entries].
  apply (keyed_keys (sorted (zip ks (entries my)))).
  apply sorted_keyed, zip_keyed, mapM_OK, Hks.
Qed.

End Sort.

Lemma MyRef_init_sorted co bibtex filesdir key_field w my w' :
  MyRef_init co bibtex filesdir key_field w = (OK my, w') -> sorted_index my.
Proof.
  unfold MyRef_init. destruct (bibfile w); [|discriminate].
  destruct (bibtexparser_loads co s) as [db|]; [|discriminate].
  destruct (sort _) as [[u|ex] self] eqn:Hsort; [|discriminate].
  intros [= <- <-]. exact (sort_sorted _ _ _ Hsort).
Qed.

Lemma newbib_sorted co bibtex filesdir w my w' :
  newbib co bibtex filesdir w = (OK my, w') -> sorted_index my.
Proof.
  unfold newbib. destruct (bibfile w); [discriminate|].
  apply MyRef_init_sorted.
Qed.

Lemma sorted_index_insert_entry my e replace :
  sorted_index my -> sorted_index (snd (insert_entry e replace my)).
Proof.
  intros (keys & Hkeys & Hsorted).
  destruct (key my e) as [k|ex] eqn:Hk.
  - exact (insert_entry_sorted my keys Hkeys Hsorted e k Hk replace).
  - unfold insert_entry. fold (keys_of my). rewrite Hkeys, Hk. cbn [snd].
    exists keys. auto.
Qed.

Lemma sorted_index_insert_entries calls : forall my,
  sorted_index my -> sorted_index (insert_entries calls my).
Proof.
  unfold insert_entries.
  induction calls as [|[e replace] calls IH]; intros my Hmy; [exact Hmy|].
  simpl. apply IH, sorted_index_insert_entry, Hmy.
Qed.

(** C2.  The keys of the collection never decrease: after [MyRef] is
    built from any bibliography (or [newbib] makes an empty one), and after
    every call of any sequence of [insert_entry] calls, with either value
    of [replace]. *)
Theorem sort_invariant (co : collaborators) (bibtex filesdir key_field : string)
    (w w' : world) (my : MyRef) (calls : list (record * bool)) :
  MyRef_init co bibtex filesdir key_field w = (OK my, w')
  \/ newbib co bibtex filesdir w = (OK my, w') ->
  sorted_index (insert_entries calls my).
Proof.
  intros H. apply sorted_index_insert_entries.
  destruct H as [H|H];
    [eapply MyRef_init_sorted, H | eapply newbib_sorted, H].
Qed.

Lemma sort_invariant_witness :
  sorted_index
    (insert_entries [(entry "Clark2005" "2005", false);
                     (entry "ADAMS1999" "2024", true);
                     (entry "clark2005" "2006", false)]
                    demo_my).
Proof.
  apply (sort_invariant demo_co "myref.bib" "files" "ID" demo_world demo_world).
  left. vm_compute. reflexivity.
Defined.

Lemma insert_entry_key_field e replace my :
  key_field (snd (insert_entry e replace my)) = key_field my.
Proof.
  unfold insert_entry.
  destruct (mapM (key my) (entries my)); [|reflexivity].
  destruct (key my e); [|reflexivity].
  destruct (_ && _); [|reflexivity].
  destruct replace; cbn [entries set_entries];
    destruct (_ !! _); reflexivity.
Qed.

Lemma key_same_field my my' x :
  key_field my' = key_field my -> key my' x = key my x.
Proof. unfold key. now intros ->. Qed.

(** C3.  In a sorted collection that holds the normalized identifier of
    [e]: with [replace=False] the call changes nothing and returns the
    record that was there; with [replace=True] it puts [e] at the place of
    that record and nowhere else.  Hence a second insertion of the same
    identifier with [replace=False] leaves the collection as the first
    one left it. *)
Theorem insert_entry_existing_key (my : MyRef) (keys : list string)
    (e : record) (k : string) :
  keys_of my = OK keys -> nondecreasing keys -> key my e = OK k ->
  (k ∈ keys ->
     exists i existing,
       entries my !! i = Some existing /\ key my existing = OK k
       /\ insert_entry e false my = (OK (i, existing), my)
       /\ insert_entry e true my
          = (OK (i, e), set_entries (<[i := e]> (entries my)) my)
       /\ length (<[i := e]> (entries my)) = length (entries my)
       /\ (forall j, j <> i ->
                     <[i := e]> (entries my) !! j = entries my !! j))
  /\ (forall e2, key my e2 = OK k ->
        let my1 := snd (insert_entry e false my) in
        snd (insert_entry e2 false my1) = my1
        /\ length (entries (snd (insert_entry e2 false my1)))
           = length (entries my1)).
Proof.
  intros Hkeys Hsorted Hk. split.
  - intros Hin.
    destruct (insert_entry_present my keys Hkeys Hsorted e k Hk false Hin)
      as (existing & Hex & Hkex & Hfalse).
    destruct (insert_entry_present my keys Hkeys Hsorted e k Hk true Hin)
      as (_ & _ & _ & Htrue).
    exists (bisect_left keys k), existing.
    repeat (split; [assumption|]). split; [apply length_insert|].
    intros j Hj. now apply list_lookup_insert_ne.
  - intros e2 Hk2 my1.
    destruct (insert_entry_key_present my keys Hkeys Hsorted e k Hk false)
      as (keys1 & Hkeys1 & Hsorted1 & Hin1).
    fold my1 in Hkeys1.
    assert (Hk2' : key my1 e2 = OK k).
    { rewrite <- Hk2. apply key_same_field, insert_entry_key_field. }
    destruct (insert_entry_present my1 keys1 Hkeys1 Hsorted1 e2 k Hk2' false
                Hin1) as (existing & _ & _ & ->).
    split; reflexivity.
Qed.

Lemma insert_entry_existing_key_witness :
  exists i existing,
    entries demo_my !! i = Some existing
    /\ key demo_my existing = OK "baker2001"
    /\ insert_entry (entry "BAKER2001" "1066") false demo_my
       = (OK (i, existing), demo_my)
    /\ insert_entry (entry "BAKER2001" "1066") true demo_my
       = (OK (i, entry "BAKER2001" "1066"),
          set_entries (<[i := entry "BAKER2001" "1066"]> (entries demo_my))
                      demo_my)
    /\ length (<[i := entry "BAKER2001" "1066"]> (entries demo_my))
       = length (entries demo_my)
    /\ (forall j, j <> i ->
                  <[i := entry "BAKER2001" "1066"]> (entries demo_my) !! j
                  = entries demo_my !! j).
Proof.
  refine (proj1 (insert_entry_existing_key demo_my
                   ["adams1999"; "baker2001"; "smith2020"]
                   (entry "BAKER2001" "1066") "baker2001" _ _ _) _).
  - vm_compute. reflexivity.
  - repeat constructor.
  - vm_compute. reflexivity.
  - apply list_elem_of_lookup_2 with (i := 1). reflexivity.
Defined.

(** * Properties of the file associations *)

Lemma mapM_unpack_fst files pairs :
  mapM unpack2 files = OK pairs ->
  mapM (fun x => '(fname, ftype) ← unpack2 x; mret fname) files
  = OK (map fst pairs).
Proof.
  revert pairs. induction files as [|x files IH]; intros pairs; simpl.
  - now intros [= <-].
  - unfold mbind, result_bind, mret, result_ret in *.
    destruct (unpack2 x) as [[f t]|]; [|discriminate].
    destruct (mapM unpack2 files) as [ps|]; [|discriminate].
    intros [= <-]. now rewrite (IH ps).
Qed.

(** With [overwrite=True] the field is the new paths, each with the type
    of its extension. *)
Lemma setentryfiles_overwrite e files :
  setentryfiles e files true
  = OK (<["file" := Py.join ";" (map tagged_path files)]> e).
Proof.
  unfold setentryfiles. cbn. rewrite app_nil_r. do 3 f_equal.
  apply map_ext. intros file. unfold tagged_path.
  now destruct (OsPath.splitext file).
Qed.

(** With [overwrite=False] the new paths come first and the paths that
    were there follow, without a type. *)
Lemma setentryfiles_append e files pairs :
  associations e = OK pairs ->
  setentryfiles e files false
  = OK (<["file" := Py.join ";" (map tagged_path files ++ map fst pairs)]> e).
Proof.
  intros H. unfold setentryfiles. cbn [negb].
  rewrite (mapM_unpack_fst _ _ H). cbn. do 4 f_equal.
  apply map_ext. intros file. unfold tagged_path.
  now destruct (OsPath.splitext file).
Qed.

(** C5.  Appending a PDF to a record that holds [notes.txt:txt] writes
    [notes.txt] without its type: the record that held
    ([notes.txt], [txt]) now holds ([notes.txt], [pdf]). *)
Theorem setentryfiles_append_drops_type :
  let e := <["file" := "notes.txt:txt"]> (entry "smith2020" "2020") in
  getentryfiles e = [["notes.txt"; "txt"]]
  /\ exists e',
       setentryfiles e ["/tmp/x.pdf"] false = OK e'
       /\ e' !! "file" = Some "/tmp/x.pdf:pdf;notes.txt"
       /\ getentryfiles e' = [["/tmp/x.pdf"; "pdf"]; ["notes.txt"; "pdf"]].
Proof.
  cbv zeta. split; [vm_compute; reflexivity|].
  eexists. split; [apply setentryfiles_append; vm_compute; reflexivity|].
  split; vm_compute; reflexivity.
Qed.

(** ** The [file] field read back *)

Section FileField.

Lemma append_nil_r a : a +:+ "" = a.
Proof. induction a as [|c a IH]; [reflexivity|]. now rewrite append_cons, IH. Qed.

Lemma append_assoc a b c : (a +:+ b) +:+ c = a +:+ (b +:+ c).
Proof.
  induction a as [|x a IH]; [reflexivity|]. now rewrite !append_cons, IH.
Qed.

Lemma contains_app c a b :
  Py.contains c (a +:+ b) = Py.contains c a || Py.contains c b.
Proof.
  induction a as [|x a IH]; [reflexivity|].
  rewrite append_cons. simpl. now rewrite IH, orb_assoc.
Qed.

Lemma split_nonempty c s : Py.split c s <> [].
Proof.
  destruct s as [|x s]; simpl; [discriminate|].
  destruct (Ascii.eqb x c); [discriminate|].
  now destruct (Py.split c s).
Qed.


Lemma split_none c : forall s, Py.contains c s = false -> Py.split c s = [s].
Proof.
  induction s as [|x s IH]; intros H; [reflexivity|].
  simpl in *. apply orb_false_elim in H as [Hx Hs].
  rewrite Hx, (IH Hs). reflexivity.
Qed.

Lemma split_app_sep c : forall a rest,
  Py.contains c a = false ->
  Py.split c (a +:+ String c rest) = a :: Py.split c rest.
Proof.
  induction a as [|x a IH]; intros rest H.
  - rewrite append_nil. simpl. now rewrite Ascii.eqb_refl.
  - rewrite append_cons. simpl in *. apply orb_false_elim in H as [Hx Ha].
    now rewrite Hx, (IH rest Ha).
Qed.

Lemma split_join c : forall toks,
  toks <> [] -> Forall (fun t => Py.contains c t = false) toks ->
  Py.split c (Py.join (String c "") toks) = toks.
Proof.
  induction toks as [|t toks IH]; intros Hne Hall; [congruence|].
  apply Forall_cons in Hall as [Ht Hall].
  destruct toks as [|t' toks]; [exact (split_none c t Ht)|].
  change (Py.join (String c "") (t :: t' :: toks))
    with (t +:+ String c "" +:+ Py.join (String c "") (t' :: toks)).
  rewrite append_cons, append_nil, (split_app_sep c t _ Ht).
  now rewrite IH.
Qed.


Variable p : ascii -> bool.

Lemma lstrip_head_ok s : head_ok p s = true -> Py.lstrip p s = s.
Proof.
  destruct s as [|c s]; [reflexivity|]. simpl.
  now intros ->%negb_true_iff.
Qed.

Lemma head_ok_lstrip s : head_ok p (Py.lstrip p s) = true.
Proof.
  induction s as [|c s IH]; [reflexivity|]. simpl.
  destruct (p c) eqn:Hc; [exact IH|]. simpl. now rewrite Hc.
Qed.

Lemma rstrip_tail_ok s : tail_ok p s = true -> Py.rstrip p s = s.
Proof.
  induction s as [|c s IH]; [reflexivity|].
  destruct s as [|d s].
  - simpl. now intros ->%negb_true_iff.
  - intros H. change (tail_ok p (String d s) = true) in H.
    cbn [Py.rstrip] in *. now rewrite (IH H).
Qed.

Lemma tail_ok_rstrip s : tail_ok p (Py.rstrip p s) = true.
Proof.
  induction s as [|c s IH]; [reflexivity|]. cbn [Py.rstrip].
  destruct (Py.rstrip p s) as [|d r].
  - destruct (p c) eqn:Hc; [reflexivity|]. simpl. now rewrite Hc.
  - exact IH.
Qed.

Lemma head_ok_rstrip s : head_ok p s = true -> head_ok p (Py.rstrip p s) = true.
Proof.
  destruct s as [|c s]; [reflexivity|]. cbn [Py.rstrip head_ok].
  intros H. destruct (Py.rstrip p s); [|exact H].
  apply negb_true_iff in H. rewrite H. simpl. now rewrite H.
Qed.

Lemma strip_ok s :
  head_ok p (Py.strip p s) = true /\ tail_ok p (Py.strip p s) = true.
Proof.
  unfold Py.strip. split; [|apply tail_ok_rstrip].
  apply head_ok_rstrip, head_ok_lstrip.
Qed.

Lemma strip_id s :
  head_ok p s = true -> tail_ok p s = true -> Py.strip p s = s.
Proof.
  intros Hh Ht. unfold Py.strip. now rewrite (lstrip_head_ok s Hh), rstrip_tail_ok.
Qed.

Lemma head_ok_app a b :
  head_ok p a = true -> head_ok p b = true -> head_ok p (a +:+ b) = true.
Proof. destruct a; [now rewrite append_nil | now rewrite append_cons]. Qed.

Lemma tail_ok_app a b :
  b <> "" -> tail_ok p b = true -> tail_ok p (a +:+ b) = true.
Proof.
  intros Hb Ht. induction a as [|c a IH]; [now rewrite append_nil|].
  rewrite append_cons.
  destruct (a +:+ b) as [|d r] eqn:Hab; [|exact IH].
  destruct a; [rewrite append_nil in Hab; congruence|].
  rewrite append_cons in Hab. discriminate.
Qed.



End FileField.

Section ReadBack.

Lemma getentryfiles_items e :
  getentryfiles e =
  let files := Py.strip Py.is_space (default "" (e !! "file")) in
  if String.eqb files "" then [] else map file_item (Py.split ";" files).
Proof. reflexivity. Qed.

Lemma tail_ok_colon t :
  tail_ok Py.is_space t = true -> tail_ok Py.is_space (String ":" t) = true.
Proof. destruct t; [reflexivity | trivial]. Qed.


Lemma tagged_pair_item f t :
  Py.contains ":" f = false -> Py.contains ":" t = false ->
  file_item (tagged_pair (f, t)) = [f; t].
Proof.
  intros Hf Ht. unfold file_item, tagged_pair. cbn [fst snd].
  rewrite append_cons, append_nil, contains_app. simpl.
  rewrite orb_true_r, (split_app_sep ":" f t Hf), (split_none ":" t Ht).
  reflexivity.
Qed.

Lemma join_tagged_nonempty pr pairs :
  Py.join ";" (map tagged_pair (pr :: pairs)) <> "".
Proof.
  assert (H : Py.contains ":" (Py.join ";" (map tagged_pair (pr :: pairs)))
              = true).
  { assert (Ht : Py.contains ":" (tagged_pair pr) = true).
    { unfold tagged_pair. rewrite append_cons, append_nil, contains_app.
      simpl. apply orb_true_r. }
    cbn [map Py.join]. destruct (map tagged_pair pairs); [exact Ht|].
    now rewrite contains_app, Ht. }
  intros Hnil. rewrite Hnil in H. discriminate.
Qed.

Lemma join_cons2 sep a b l :
  Py.join sep (a :: b :: l) = a +:+ sep +:+ Py.join sep (b :: l).
Proof. reflexivity. Qed.



Lemma unpack_pairs pairs :
  Forall (fun pr : string * string =>
            (Py.contains ":" pr.1 = false /\ Py.contains ":" pr.2 = false)
            /\ Py.contains ";" (tagged_pair pr) = false) pairs ->
  mapM unpack2 (map file_item (map tagged_pair pairs)) = OK pairs.
Proof.
  intros H. apply mapM_OK.
  induction H as [|[f t] pairs [[Hf Ht] _] _ IH]; simpl; constructor; auto.
  now rewrite (tagged_pair_item f t Hf Ht).
Qed.


End ReadBack.

(** * Properties of the renaming *)

Section Rename.

Variable my : MyRef.
Variable e : record.
Variable copy : bool.



End Rename.


Section Move.

Variables f1 f2 : string.
Variable copy : bool.
Variable w : world.

Let dir := OsPath.dirname f2.

(** The world once [move] has seen to the directory of the target. *)
Let w1 : world :=
  if path_exists dir w then w else set_dirs ({[dir]} ∪ dirs w) w.

(** The outcomes of [move], in the order in which the code reaches them. *)
Lemma move_cases :
  move f1 f2 copy w =
  if negb (path_exists dir w) && String.eqb dir "" then (Raise (OSError dir), w)
  else if negb (Py.is_utf8 f1) then (Raise (UnicodeDecodeError "utf8"), w1)
  else if negb (Py.is_ascii f2) then (Raise (UnicodeDecodeError "ascii"), w1)
  else if DRYRUN w then (OK tt, w1)
  else match fs w !! f1 with
       | Some content =>
           if copy then
             if String.eqb f1 f2 then (Raise (ShutilError f1 f2), w1)
             else (OK tt, set_fs (<[f2 := content]> (fs w)) w1)
           else (OK tt, set_fs (<[f2 := content]> (delete f1 (fs w))) w1)
       | None => (Raise (IOError f1), w1)
       end.
Proof.
  unfold move, mbind, prog_bind, get, lift, move_cmd, w1. fold dir.
  destruct (path_exists dir w) eqn:Hex; cbn [negb andb].
  - unfold mret, prog_ret.
    destruct copy, (Py.is_utf8 f1), (Py.is_ascii f2);
      cbn [negb]; try reflexivity;
      destruct (DRYRUN w); cbn [negb]; try reflexivity;
      unfold shutil_copy, shutil_move; destruct (fs w !! f1);
      try reflexivity; destruct (String.eqb f1 f2); reflexivity.
  - unfold makedirs. destruct (String.eqb dir ""); [reflexivity|].
    destruct copy, (Py.is_utf8 f1), (Py.is_ascii f2);
      cbn [negb]; try reflexivity;
      cbn [DRYRUN set_dirs];
      destruct (DRYRUN w); cbn [negb]; try reflexivity;
      unfold shutil_copy, shutil_move; cbn [fs set_dirs];
      destruct (fs w !! f1); try reflexivity;
      destruct (String.eqb f1 f2); reflexivity.
Qed.

Lemma w1_fields :
  fs w1 = fs w /\ bibfile w1 = bibfile w /\ DRYRUN w1 = DRYRUN w.
Proof. unfold w1. now destruct (path_exists dir w). Qed.


End Move.







(** * Properties of the lookup cache *)

(** C10.  A DOI that is a key of the cache is answered from the cache: the
    result and the state are the same whatever the wrapped function is, so
    it is not called.  On a miss the wrapped function runs; its result is
    stored under the DOI and the whole cache is written to the side file,
    unless [DRYRUN] is set; when it raises, the exception goes on to the
    caller and the cache is as it was, without an entry for the DOI. *)
Theorem cached_lookup (co : collaborators) (file : string)
    (fun_ : string -> prog world string) (doi : string)
    (cache : gmap string string) (w : world) :
  (forall res, cache !! doi = Some res ->
     decorated co file fun_ doi (cache, w) = (OK res, (cache, w)))
  /\ (forall res w1, cache !! doi = None -> fun_ doi w = (OK res, w1) ->
      decorated co file fun_ doi (cache, w)
      = (OK res,
         (<[doi := res]> cache,
          if DRYRUN w1 then w1
          else set_fs (<[file := json_dumps co (<[doi := res]> cache)]>
                         (fs w1)) w1))
      /\ <[doi := res]> cache !! doi = Some res)
  /\ (forall ex w1, cache !! doi = None -> fun_ doi w = (Raise ex, w1) ->
      decorated co file fun_ doi (cache, w) = (Raise ex, (cache, w1))
      /\ cache !! doi = None).
Proof.
  unfold decorated. repeat split.
  - intros res ->. reflexivity.
  - rewrite H, H0. now destruct (DRYRUN w1).
  - apply lookup_insert_eq.
  - now rewrite H, H0.
  - assumption.
Qed.

(** * Properties of the [add] sub-command *)

Section Preserves.

Context {S O : Type} (obs : S -> O).

Lemma preserves_ret {A} (a : A) : preserves obs (mret a).
Proof. intros s. reflexivity. Qed.

Lemma preserves_lift {A} (r : result A) : preserves obs (lift r).
Proof. intros s. reflexivity. Qed.

Lemma preserves_get : preserves obs get.
Proof. intros s. reflexivity. Qed.

Lemma preserves_bind {A B} (m : prog S A) (f : A -> prog S B) :
  preserves obs m -> (forall a, preserves obs (f a)) ->
  preserves obs (m ≫= f).
Proof.
  intros Hm Hf s. unfold mbind, prog_bind.
  specialize (Hm s). destruct (m s) as [[a|ex] s']; simpl in *.
  - now rewrite Hf.
  - exact Hm.
Qed.

End Preserves.

Create HintDb keeps.

#[local] Hint Resolve preserves_ret preserves_lift preserves_get : keeps.

Ltac keeps :=
  repeat first
    [ apply preserves_bind; [|intros ?]
    | apply preserves_ret | apply preserves_lift | apply preserves_get
    | match goal with
      | |- preserves _ (if ?b then _ else _) => destruct b
      | |- preserves _ (match ?x with _ => _ end) => destruct x
      | |- preserves _ (let '(_, _) := ?x in _) => destruct x
      end
    | solve [eauto with keeps] ].

Section AddKeepsBibliography.

Variable co : collaborators.

Lemma makedirs_keeps d : preserves bibfile (makedirs d).
Proof. intros w. unfold makedirs. now destruct (String.eqb d ""). Qed.

Lemma shutil_copy_keeps f1 f2 : preserves bibfile (shutil_copy f1 f2).
Proof.
  intros w. unfold shutil_copy.
  destruct (fs w !! f1); [|reflexivity]. now destruct (String.eqb f1 f2).
Qed.

Lemma shutil_move_keeps f1 f2 : preserves bibfile (shutil_move f1 f2).
Proof. intros w. unfold shutil_move. now destruct (fs w !! f1). Qed.

#[local] Hint Resolve makedirs_keeps shutil_copy_keeps shutil_move_keeps
  : keeps.

Lemma move_keeps f1 f2 copy : preserves bibfile (move f1 f2 copy).
Proof. unfold move. keeps. Qed.

#[local] Hint Resolve move_keeps : keeps.

Lemma readpdf_keeps pdf first last keeptxt :
  preserves bibfile (readpdf co pdf first last keeptxt).
Proof.
  intros w. unfold readpdf. destruct (pdftotext co pdf first last);
    [|reflexivity].
  cbn [fs set_fs]. destruct (_ !! _); [|reflexivity]. now destruct keeptxt.
Qed.

#[local] Hint Resolve readpdf_keeps : keeps.

Lemma extract_doi_keeps pdf sd : preserves bibfile (extract_doi co pdf sd).
Proof. unfold extract_doi. keeps. Qed.

Lemma rename_several_keeps newdir copy files :
  forall efiles, preserves bibfile (rename_several newdir copy files efiles).
Proof.
  induction files as [|x files IH]; intros efiles; simpl; keeps.
Qed.

#[local] Hint Resolve extract_doi_keeps rename_several_keeps : keeps.

Lemma rename_entry_files_keeps my e copy :
  preserves bibfile (rename_entry_files my e copy).
Proof. unfold rename_entry_files. keeps. Qed.

Lemma fetch_bibtex_keeps doi :
  preserves (fun s : gmap string string * world => bibfile s.2)
            (fetch_bibtex co doi).
Proof.
  intros [c w]. unfold fetch_bibtex, decorated, fetch_bibtex_uncached, lift,
    mbind, prog_bind.
  destruct (c !! doi); [reflexivity|].
  destruct (urlopen co _) as [html|]; [|reflexivity].
  destruct (Py.is_utf8 html); [|reflexivity].
  now destruct (DRYRUN w).
Qed.

Lemma in_world_keeps {A} (m : prog world A) :
  preserves bibfile m -> preserves bib_of (in_world m).
Proof.
  intros H st. unfold in_world, bib_of. specialize (H (env st)).
  now destruct (m (env st)).
Qed.

Lemma in_self_keeps {A} (m : prog MyRef A) : preserves bib_of (in_self m).
Proof. intros st. unfold in_self. now destruct (m (self st)). Qed.

Lemma in_cache_keeps {A} (m : prog (gmap string string * world) A) :
  preserves (fun s : gmap string string * world => bibfile s.2) m ->
  preserves bib_of (in_cache m).
Proof.
  intros H st. unfold in_cache, bib_of. specialize (H (cache st, env st)).
  now destruct (m (cache st, env st)) as [r [c w]].
Qed.

(** The in-memory pipeline does not write the bibliography file. *)
Lemma add_pdf_keeps pdf rename copy overwrite attachments sd :
  preserves bib_of (add_pdf co pdf rename copy overwrite attachments sd).
Proof.
  unfold add_pdf.
  apply preserves_bind; [apply in_world_keeps, extract_doi_keeps|intros doi].
  apply preserves_bind; [apply in_cache_keeps, fetch_bibtex_keeps|intros b].
  apply preserves_bind; [apply preserves_lift|intros bib].
  apply preserves_bind; [apply preserves_lift|intros entry].
  apply preserves_bind; [apply in_self_keeps|intros [i entry']].
  apply preserves_bind; [apply preserves_lift|intros entry''].
  apply preserves_bind; [apply in_self_keeps|intros _].
  destruct rename; [|apply preserves_ret].
  apply preserves_bind; [apply preserves_get|intros st].
  apply preserves_bind; [|intros ?; apply in_self_keeps].
  apply in_world_keeps, rename_entry_files_keeps.
Qed.

End AddKeepsBibliography.

Lemma MyRef_init_world co bibtex filesdir key_field w :
  (MyRef_init co bibtex filesdir key_field w).2 = w.
Proof.
  unfold MyRef_init. destruct (bibfile w); [|reflexivity].
  destruct (bibtexparser_loads co s); [|reflexivity].
  now destruct (sort _) as [[u|ex] my].
Qed.

(** The bibliography file once the [MyRef] object is built, or the
    building has failed: as it was, or empty when there was none. *)
Lemma construct_bibfile co o w :
  bibfile
    (if bool_decide (is_Some (bibfile w))
     then MyRef_init co (o_bibtex o) (o_filesdir o) "ID" w
     else newbib co (o_bibtex o) (o_filesdir o) w).2
  = Some (default "" (bibfile w)).
Proof.
  unfold newbib. destruct (bibfile w) as [content|] eqn:Hb.
  - rewrite bool_decide_eq_true_2 by eauto.
    now rewrite MyRef_init_world, Hb.
  - rewrite bool_decide_eq_false_2 by (intros [? ?]; discriminate).
    now rewrite MyRef_init_world.
Qed.

(** C9 does not hold as stated: when there is no bibliography file,
    [newbib] creates an empty one before the pipeline starts, and a failure
    of the pipeline leaves that file behind. *)
Lemma addpdf_failure_creates_bibliography :
  bibfile empty_world = None
  /\ addpdf unreadable_co (add_options false) (∅, empty_world)
     = (Raise CalledProcessError, (∅, set_bibfile (Some "") empty_world))
  /\ bibfile (set_bibfile (Some "") empty_world) = Some "".
Proof. repeat split; vm_compute; reflexivity. Qed.

(** What [add] leaves in the bibliography file, by outcome. *)
Lemma addpdf_bibfile co o c w :
  (forall ex, (addpdf co o (c, w)).1 = Raise ex ->
     bibfile (addpdf co o (c, w)).2.2 = bibfile (constructed co o w).2)
  /\ (o_dry_run o = true ->
      bibfile (addpdf co o (c, w)).2.2 = bibfile (constructed co o w).2)
  /\ ((addpdf co o (c, w)).1 = OK tt -> o_dry_run o = false ->
      exists db, bibfile (addpdf co o (c, w)).2.2
                 = Some (bibtexparser_dumps co db)).
Proof.
  unfold addpdf, constructed. cbv zeta.
  change (bibfile (set_DRYRUN (o_dry_run o) w)) with (bibfile w).
  destruct (if bool_decide (is_Some (bibfile w)) then _ else _)
    as [[my|ex0] w1]; cbn [snd].
  2:{ cbn [fst snd]. split; [auto|]. split; [auto|]. discriminate. }
  pose proof (add_pdf_keeps co (o_pdf o) (o_rename o) (o_copy o)
                (negb (o_append o)) (o_attachments o) true
                (Process my c w1)) as Hk.
  unfold bib_of in Hk. cbn [env] in Hk.
  destruct (add_pdf _ _ _ _ _ _ _ _) as [[u|ex1] st]; cbn [snd] in Hk.
  - destruct (o_dry_run o); cbn [negb fst snd].
    + split; [discriminate|]. split; [congruence|]. discriminate.
    + unfold save, modify. cbn [fst snd bibfile set_bibfile].
      split; [discriminate|]. split; [discriminate|]. eauto.
  - cbn [fst snd]. split; [congruence|]. split; [congruence|]. discriminate.
Qed.

(** C9, amended.  [save] runs only when the whole pipeline has succeeded
    and the run is not dry: when [add] fails, and in every dry run, the
    bibliography file is as the construction of the [MyRef] object left
    it, and after a success that is not a dry run it is the dump of the
    collection.  The construction leaves a bibliography file that existed
    with its content; when there was none and the run is not dry, it
    leaves the empty file that [newbib] creates. *)
Theorem addpdf_saves_only_on_success (co : collaborators) (o : options)
    (c : gmap string string) (w : world) :
  let run := addpdf co o (c, w) in
  let built := constructed co o w in
  ((exists ex, run.1 = Raise ex) \/ o_dry_run o = true ->
     bibfile run.2.2 = bibfile built.2)
  /\ (forall content, bibfile w = Some content ->
      bibfile built.2 = Some content)
  /\ (bibfile w = None -> o_dry_run o = false -> bibfile built.2 = Some "")
  /\ (run.1 = OK tt -> o_dry_run o = false ->
      exists db, bibfile run.2.2 = Some (bibtexparser_dumps co db)).
Proof.
  cbv zeta. destruct (addpdf_bibfile co o c w) as (Hfail & Hdry & Hok).
  assert (Hc : bibfile (constructed co o w).2 = Some (default "" (bibfile w))).
  { unfold constructed. cbv zeta.
    exact (construct_bibfile co o (set_DRYRUN (o_dry_run o) w)). }
  split; [|split; [|split; [|exact Hok]]].
  - intros [[ex Hex]|Hd]; [exact (Hfail ex Hex) | exact (Hdry Hd)].
  - intros content Hb. rewrite Hc, Hb. reflexivity.
  - intros Hb _. rewrite Hc, Hb. reflexivity.
Qed.

(** * Further properties of the file associations *)

Section Strip.

Variable p : ascii -> bool.

Lemma lstrip_empty s : Py.lstrip p s = "" <-> str_all p s = true.
Proof.
  induction s as [|c s IH]; simpl; [tauto|].
  destruct (p c); simpl; [exact IH|]. split; discriminate.
Qed.

Lemma rstrip_empty s : Py.rstrip p s = "" <-> str_all p s = true.
Proof.
  induction s as [|c s IH]; simpl; [tauto|].
  destruct (Py.rstrip p s) as [|d r].
  - destruct (p c); simpl; [tauto|]. split; discriminate.
  - split; [discriminate|]. intros [_ H]%andb_prop.
    apply IH in H. discriminate.
Qed.

Lemma str_all_lstrip s : str_all p (Py.lstrip p s) = true -> str_all p s = true.
Proof.
  induction s as [|c s IH]; simpl; [trivial|].
  destruct (p c) eqn:Hc; simpl; [exact IH|]. now rewrite Hc.
Qed.

(** [strip] leaves nothing exactly of the strings made of the stripped
    characters. *)
Lemma strip_empty s : Py.strip p s = "" <-> str_all p s = true.
Proof.
  unfold Py.strip. rewrite rstrip_empty. split.
  - apply str_all_lstrip.
  - intros H. apply lstrip_empty in H. now rewrite H.
Qed.

End Strip.

(** X1.  A record has no associated file exactly when it has no [file]
    field or the field holds only white space; any other field gives at
    least one association. *)
Theorem getentryfiles_empty (e : record) :
  getentryfiles e = []
  <-> str_all Py.is_space (default "" (e !! "file")) = true.
Proof.
  rewrite getentryfiles_items. cbv zeta.
  rewrite <- (strip_empty Py.is_space).
  destruct (String.eqb_spec
              (Py.strip Py.is_space (default "" (e !! "file"))) "")
    as [Heq|Hne].
  - tauto.
  - split; [|contradiction]. intros H%fmap_nil_inv.
    now destruct (split_nonempty ";" (Py.strip Py.is_space (default "" (e !! "file")))).
Qed.

Section Colons.

Lemma contains_count c s : Py.contains c s = true <-> 1 <= count c s.
Proof.
  induction s as [|a s IH]; simpl; [split; [discriminate | lia]|].
  destruct (Ascii.eqb a c); simpl; [split; [lia | trivial]|exact IH].
Qed.

Lemma length_split c s : length (Py.split c s) = S (count c s).
Proof.
  induction s as [|a s IH]; [reflexivity|]. simpl.
  destruct (Ascii.eqb a c); simpl; [now rewrite IH|].
  destruct (Py.split c s); simpl in *; lia.
Qed.

(** An item unpacks to a pair unless its token holds two colons. *)
Lemma unpack_file_item ef :
  match unpack2 (file_item ef) with
  | OK _ => count ":" ef <= 1
  | Raise ex => 2 <= count ":" ef
                /\ ex = ValueError "too many values to unpack"
  end.
Proof.
  unfold file_item. destruct (Py.contains ":" ef) eqn:Hc.
  - apply contains_count in Hc.
    pose proof (length_split ":" ef) as Hl.
    destruct (Py.split ":" ef) as [|a [|b [|c l]]]; simpl in *;
      try lia. split; [lia | reflexivity].
  - simpl. destruct (count ":" ef) as [|n] eqn:Hn; [lia|].
    assert (Py.contains ":" ef = true) by (apply contains_count; lia).
    congruence.
Qed.

Lemma mapM_unpack_items toks :
  match mapM unpack2 (map file_item toks) with
  | OK pairs => Forall (fun tok => count ":" tok <= 1) toks
                /\ length pairs = length toks
  | Raise ex => Exists (fun tok => 2 <= count ":" tok) toks
                /\ ex = ValueError "too many values to unpack"
  end.
Proof.
  induction toks as [|tok toks IH]; simpl; [auto|].
  unfold mbind, result_bind, mret, result_ret.
  pose proof (unpack_file_item tok) as Htok.
  destruct (unpack2 (file_item tok)) as [pr|ex].
  - destruct (mapM unpack2 (map file_item toks)) as [pairs|ex].
    + destruct IH as [IH Hlen]. split; [now constructor | simpl; lia].
    + destruct IH as [IH ->]. split; [now apply Exists_cons_tl | reflexivity].
  - destruct Htok as [Htok ->]. split; [now apply Exists_cons_hd | reflexivity].
Qed.

End Colons.

(** X2.  Replacing the files of a record never fails.  Appending to them
    fails, with a [ValueError] and before the record is changed, exactly
    when a token of the [file] field holds two colons or more (as a field
    written [:paper.pdf:PDF] does). *)
Theorem setentryfiles_failure (e : record) (files : list string) :
  (exists e', setentryfiles e files true = OK e')
  /\ ((exists ex, setentryfiles e files false = Raise ex)
      <-> Exists (fun tok => 2 <= count ":" tok) (file_tokens e))
  /\ (forall ex, setentryfiles e files false = Raise ex ->
                 ex = ValueError "too many values to unpack").
Proof.
  split; [rewrite setentryfiles_overwrite; eauto|].
  assert (Hitems : getentryfiles e = map file_item (file_tokens e)).
  { rewrite getentryfiles_items. unfold file_tokens. cbv zeta.
    now destruct (String.eqb _ ""). }
  pose proof (mapM_unpack_items (file_tokens e)) as Hm.
  rewrite <- Hitems in Hm. fold (associations e) in Hm.
  destruct (associations e) as [pairs|ex0] eqn:Ha.
  - rewrite (setentryfiles_append e files pairs Ha).
    destruct Hm as [Hall _]. split; [|discriminate].
    split; [intros [? ?]; discriminate|].
    intros Hex. apply Exists_exists in Hex as (tok & Hin & Htok).
    rewrite Forall_forall in Hall. specialize (Hall tok Hin). lia.
  - destruct Hm as [Hex ->].
    assert (Hr : setentryfiles e files false
                 = Raise (ValueError "too many values to unpack")).
    { unfold setentryfiles. cbn [negb].
      assert (Hf : mapM (fun x => '(fname, ftype) ← unpack2 x; mret fname)
                        (getentryfiles e)
                   = Raise (ValueError "too many values to unpack")).
      { unfold associations in Ha. revert Ha.
        generalize (getentryfiles e). intros l.
        induction l as [|x l IH]; simpl; [discriminate|].
        unfold mbind, result_bind, mret, result_ret in *.
        destruct (unpack2 x) as [[f t]|].
        - destruct (mapM unpack2 l); [discriminate|].
          intros H. now rewrite (IH H).
        - intros [= ->]. reflexivity. }
      now rewrite Hf. }
    rewrite Hr. split; [split; eauto|]. now intros ex [= <-].
Qed.

Section WriteAndRead.

Lemma contains_drop c : forall n s,
  Py.contains c s = false -> Py.contains c (Py.drop n s) = false.
Proof.
  induction n as [|n IH]; intros s H; [exact H|].
  destruct s as [|a s]; [reflexivity|]. simpl in *.
  apply orb_false_elim in H as [_ H]. exact (IH s H).
Qed.

Lemma tail_ok_drop p : forall n s,
  tail_ok p s = true -> tail_ok p (Py.drop n s) = true.
Proof.
  induction n as [|n IH]; intros s H; [exact H|].
  destruct s as [|a s]; [reflexivity|]. cbn [Py.drop]. apply IH.
  destruct s; [reflexivity | exact H].
Qed.

(** The extension that [os.path.splitext] gives is empty or an end of the
    path. *)
Lemma splitext_suffix file :
  (OsPath.splitext file).2 = "" \/ exists n, (OsPath.splitext file).2 = Py.drop n file.
Proof.
  unfold OsPath.splitext.
  destruct (Nat.ltb _ _); [|now left].
  destruct (String.eqb _ ""); [now left|]. right. eauto.
Qed.

Lemma typed_path_plain file :
  plain_path file ->
  (Py.contains ":" (typed_path file).1 = false
   /\ Py.contains ":" (typed_path file).2 = false)
  /\ Py.contains ";" (tagged_pair (typed_path file)) = false
  /\ head_ok Py.is_space (tagged_pair (typed_path file)) = true
  /\ tail_ok Py.is_space (tagged_pair (typed_path file)) = true.
Proof.
  intros (Hc & Hs & Hh & Ht). unfold typed_path, tagged_pair. cbn [fst snd].
  assert (Hext : forall c, Py.contains c file = false ->
                 Py.contains c (Py.drop 1 (OsPath.splitext file).2) = false).
  { intros c H. destruct (splitext_suffix file) as [->|[n ->]];
      [reflexivity|]. now apply contains_drop, contains_drop. }
  assert (Htail : tail_ok Py.is_space (Py.drop 1 (OsPath.splitext file).2)
                  = true).
  { destruct (splitext_suffix file) as [->|[n ->]]; [reflexivity|].
    now apply tail_ok_drop, tail_ok_drop. }
  rewrite append_cons, append_nil.
  split; [split; [exact Hc | exact (Hext _ Hc)]|].
  split; [|split].
  - rewrite contains_app, Hs.
    change (Py.contains ";" (String ":" (Py.drop 1 (OsPath.splitext file).2)))
      with (Py.contains ";" (Py.drop 1 (OsPath.splitext file).2)).
    now rewrite (Hext _ Hs).
  - apply head_ok_app; [exact Hh | reflexivity].
  - apply tail_ok_app; [discriminate|]. now apply tail_ok_colon.
Qed.

Lemma join_head_ok toks :
  Forall (fun t => head_ok Py.is_space t = true) toks ->
  head_ok Py.is_space (Py.join ";" toks) = true.
Proof.
  intros H. destruct H as [|t toks Ht Hall]; [reflexivity|].
  destruct toks as [|t' toks]; [exact Ht|].
  rewrite join_cons2. apply head_ok_app; [exact Ht | reflexivity].
Qed.

Lemma join_tail_ok_all toks :
  Forall (fun t => t <> "" /\ tail_ok Py.is_space t = true) toks ->
  tail_ok Py.is_space (Py.join ";" toks) = true.
Proof.
  induction 1 as [|t toks [Hne Ht] Hall IH]; [reflexivity|].
  destruct toks as [|t' toks]; [exact Ht|].
  rewrite join_cons2, append_cons, append_nil.
  apply tail_ok_app; [discriminate|].
  apply Forall_cons in Hall as [[Hne' _] _].
  destruct (Py.join ";" (t' :: toks)) as [|c r] eqn:Hj; [|exact IH].
  exfalso. destruct toks as [|t'' toks]; simpl in Hj; [congruence|].
  destruct t'; [congruence | discriminate].
Qed.

(** A field written from pairs without colon and semicolon, which neither
    starts nor ends with white space, is read back as these pairs. *)
Lemma associations_of_pairs e pairs :
  pairs <> [] ->
  Forall (fun pr : string * string =>
            (Py.contains ":" pr.1 = false /\ Py.contains ":" pr.2 = false)
            /\ Py.contains ";" (tagged_pair pr) = false) pairs ->
  head_ok Py.is_space (Py.join ";" (map tagged_pair pairs)) = true ->
  tail_ok Py.is_space (Py.join ";" (map tagged_pair pairs)) = true ->
  associations (<["file" := Py.join ";" (map tagged_pair pairs)]> e)
  = OK pairs.
Proof.
  intros Hne Hw Hhead Htail.
  unfold associations. rewrite getentryfiles_items. cbv zeta.
  rewrite lookup_insert_eq. cbn [default]. unfold id.
  rewrite (strip_id _ _ Hhead Htail).
  destruct pairs as [|pr pairs]; [congruence|].
  destruct (String.eqb_spec (Py.join ";" (map tagged_pair (pr :: pairs))) "")
    as [Hnil|_]; [now destruct (join_tagged_nonempty pr pairs)|].
  rewrite (split_join ";" (map tagged_pair (pr :: pairs)));
    [apply unpack_pairs, Hw | discriminate |].
  eapply Forall_fmap, Forall_impl; [exact Hw|]. now intros ? [_ ?].
Qed.

End WriteAndRead.

(** X3.  Writing and reading the [file] field is a round trip on plain
    paths: after [setentryfiles] with [overwrite=True], [getentryfiles]
    gives the new paths, in order, each with the extension of its last
    component (without the dot) as its type. *)
Theorem setentryfiles_read_back (e : record) (files : list string) :
  files <> [] -> Forall plain_path files ->
  exists e',
    setentryfiles e files true = OK e'
    /\ associations e' = OK (map typed_path files)
    /\ (forall k, k <> "file" -> e' !! k = e !! k).
Proof.
  intros Hne Hplain. eexists. split; [apply setentryfiles_overwrite|].
  split; [|intros k Hk; now apply lookup_insert_ne].
  assert (Hmap : map tagged_path files = map tagged_pair (map typed_path files)).
  { rewrite map_map. reflexivity. }
  rewrite Hmap.
  assert (Hall : Forall (fun pr : string * string =>
                   ((Py.contains ":" pr.1 = false
                     /\ Py.contains ":" pr.2 = false)
                    /\ Py.contains ";" (tagged_pair pr) = false)
                   /\ head_ok Py.is_space (tagged_pair pr) = true
                   /\ tail_ok Py.is_space (tagged_pair pr) = true)
                  (map typed_path files)).
  { apply Forall_fmap. eapply Forall_impl; [exact Hplain|].
    intros f Hf. destruct (typed_path_plain f Hf) as (H1 & H2 & H3 & H4).
    simpl. auto. }
  apply associations_of_pairs.
  - destruct files; [congruence | discriminate].
  - eapply Forall_impl; [exact Hall|]. now intros ? [? _].
  - apply join_head_ok, Forall_fmap.
    eapply Forall_impl; [exact Hall|]. now intros ? (_ & ? & _).
  - apply join_tail_ok_all, Forall_fmap.
    eapply Forall_impl; [exact Hall|]. intros pr (_ & _ & Ht).
    split; [|exact Ht]. unfold compose, tagged_pair.
    rewrite append_cons, append_nil. destruct (pr.1); discriminate.
Qed.

Lemma setentryfiles_read_back_witness :
  exists e',
    setentryfiles (entry "smith2020" "2020")
                  ["/tmp/x.pdf"; "/tmp/notes.final.txt"; "/tmp/README"] true
    = OK e'
    /\ associations e'
       = OK [("/tmp/x.pdf", "pdf"); ("/tmp/notes.final.txt", "txt");
             ("/tmp/README", "")]
    /\ (forall k, k <> "file" -> e' !! k = entry "smith2020" "2020" !! k).
Proof.
  apply (setentryfiles_read_back (entry "smith2020" "2020")
           ["/tmp/x.pdf"; "/tmp/notes.final.txt"; "/tmp/README"]).
  - discriminate.
  - repeat constructor.
Defined.

(** * Further properties of the library index *)

Section NewKey.

Lemma lookup_inserted {A} (l : list A) (x : A) i :
  i <= length l -> (take i l ++ x :: drop i l) !! i = Some x.
Proof.
  intros Hi. rewrite lookup_app_r by (rewrite length_take; lia).
  rewrite length_take. replace (i - i `min` length l) with 0 by lia.
  reflexivity.
Qed.

Lemma inserted_perm {A} (l : list A) (x : A) i :
  take i l ++ x :: drop i l ≡ₚ x :: l.
Proof.
  rewrite <- Permutation_middle. now rewrite take_drop.
Qed.

(** The place of a key that was not there is the place it was put at. *)
Lemma lookup_inserted_unique (keys : list string) k i j :
  k ∉ keys -> i <= length keys ->
  (take i keys ++ k :: drop i keys) !! j = Some k -> j = i.
Proof.
  intros Hk Hi Hj.
  destruct (Nat.lt_trichotomy j i) as [Hlt|[->|Hgt]]; [|reflexivity|].
  - rewrite lookup_app_l in Hj by (rewrite length_take; lia).
    rewrite lookup_take_lt in Hj by lia.
    destruct Hk. eapply list_elem_of_lookup_2, Hj.
  - rewrite lookup_app_r in Hj by (rewrite length_take; lia).
    rewrite length_take in Hj.
    replace (j - i `min` length keys) with (S (j - i - 1)) in Hj by lia.
    simpl in Hj. rewrite lookup_drop in Hj.
    destruct Hk. eapply list_elem_of_lookup_2, Hj.
Qed.

End NewKey.

(** X4.  Inserting a record whose identifier is not in the sorted
    collection adds this record, once, and nothing else: the other records
    keep their order around it, the call returns the record itself, and a
    later [insert_entry] of the same identifier (in any letter case) finds
    it. *)
Theorem insert_entry_new_key (my : MyRef) (keys : list string) (e : record)
    (k : string) (replace : bool) :
  keys_of my = OK keys -> nondecreasing keys -> key my e = OK k ->
  k ∉ keys ->
  exists i my',
    insert_entry e replace my = (OK (i, e), my')
    /\ entries my' = take i (entries my) ++ e :: drop i (entries my)
    /\ entries my' !! i = Some e
    /\ length (entries my') = S (length (entries my))
    /\ entries my' ≡ₚ e :: entries my
    /\ (forall e2, key my e2 = OK k ->
          insert_entry e2 false my' = (OK (i, e), my')).
Proof.
  intros Hkeys Hsorted Hk Hnew.
  pose proof (insert_entry_absent my keys Hkeys Hsorted e k Hk replace Hnew)
    as Hrun.
  destruct (bisect_left_spec keys k Hsorted) as (Hlen & _ & _).
  pose proof (keys_length my keys Hkeys) as Hl.
  set (i := bisect_left keys k) in *.
  set (my' := set_entries (take i (entries my) ++ e :: drop i (entries my)) my)
    in *.
  assert (Hi : entries my' !! i = Some e).
  { unfold my'. cbn [entries set_entries]. apply lookup_inserted. lia. }
  exists i, my'. split; [exact Hrun|]. split; [reflexivity|].
  split; [exact Hi|]. split; [|split].
  - unfold my'. cbn [entries set_entries].
    rewrite length_app, length_take. simpl. rewrite length_drop. lia.
  - apply inserted_perm.
  - intros e2 Hk2.
    pose proof (keys_after_insert my keys Hkeys e k Hk) as Hkeys'.
    pose proof (nondecreasing_insert keys Hsorted k) as Hsorted'.
    fold i in Hkeys', Hsorted'. fold my' in Hkeys'.
    assert (Hin : k ∈ take i keys ++ k :: drop i keys) by set_solver.
    destruct (insert_entry_present my' _ Hkeys' Hsorted' e2 k Hk2 false Hin)
      as (existing & Hex & _ & Hrun2).
    pose proof (proj1 (bisect_left_found _ Hsorted' k) Hin) as Hfound.
    apply lookup_inserted_unique in Hfound; [|exact Hnew|exact Hlen].
    rewrite Hfound in Hex, Hrun2. rewrite Hi in Hex. injection Hex as <-.
    exact Hrun2.
Qed.

Lemma insert_entry_new_key_witness :
  exists i my',
    insert_entry (entry "Clark2005" "2005") false demo_my
    = (OK (i, entry "Clark2005" "2005"), my')
    /\ entries my'
       = take i (entries demo_my)
         ++ entry "Clark2005" "2005" :: drop i (entries demo_my)
    /\ entries my' !! i = Some (entry "Clark2005" "2005")
    /\ length (entries my') = S (length (entries demo_my))
    /\ entries my' ≡ₚ entry "Clark2005" "2005" :: entries demo_my
    /\ (forall e2, key demo_my e2 = OK "clark2005" ->
          insert_entry e2 false my'
          = (OK (i, entry "Clark2005" "2005"), my')).
Proof.
  apply (insert_entry_new_key demo_my ["adams1999"; "baker2001"; "smith2020"]
           (entry "Clark2005" "2005") "clark2005" false).
  - vm_compute. reflexivity.
  - repeat constructor.
  - vm_compute. reflexivity.
  - intros H. repeat (apply elem_of_cons in H as [H|H]; [discriminate|]).
    now apply elem_of_nil in H.
Defined.

(** X5.  [insert_entry] never makes two records share an identifier: when
    the normalized identifiers of a sorted collection are pairwise
    different, they still are after the call, whatever the record and the
    [replace] flag. *)
Theorem insert_entry_no_duplicates (my : MyRef) (keys : list string)
    (e : record) (replace : bool) :
  keys_of my = OK keys -> nondecreasing keys -> NoDup keys ->
  exists keys',
    keys_of (insert_entry e replace my).2 = OK keys'
    /\ nondecreasing keys' /\ NoDup keys'.
Proof.
  intros Hkeys Hsorted Hnodup.
  destruct (key my e) as [k|ex] eqn:Hk.
  2:{ exists keys. unfold insert_entry. fold (keys_of my).
      rewrite Hkeys, Hk. auto. }
  destruct (decide (k ∈ keys)) as [Hin|Hin].
  - destruct (insert_entry_present my keys Hkeys Hsorted e k Hk replace Hin)
      as (ei & _ & _ & ->).
    exists keys. destruct replace; cbn [snd].
    + split; [exact (keys_after_replace my keys Hkeys Hsorted e k Hk Hin)|].
      auto.
    + auto.
  - rewrite (insert_entry_absent my keys Hkeys Hsorted e k Hk replace Hin).
    cbn [snd]. eexists. split; [apply keys_after_insert; eassumption|].
    split; [apply nondecreasing_insert, Hsorted|].
    rewrite inserted_perm. now apply NoDup_cons_2.
Qed.

Lemma insert_entry_no_duplicates_witness :
  exists keys',
    keys_of (insert_entry (entry "Clark2005" "2005") false demo_my).2
    = OK keys'
    /\ nondecreasing keys' /\ NoDup keys'.
Proof.
  apply (insert_entry_no_duplicates demo_my
           ["adams1999"; "baker2001"; "smith2020"]).
  - vm_compute. reflexivity.
  - repeat constructor.
  - repeat (apply NoDup_cons_2;
            [intros H; repeat (apply elem_of_cons in H as [H|H];
                               [discriminate|]);
             now apply elem_of_nil in H|]).
    apply NoDup_nil_2.
Defined.

Section Load.

(** Sorting a list that is in order leaves it as it is. *)
Lemma sorted_in_order l :
  Sorted key_le (map fst l) -> sorted l = l.
Proof.
  induction l as [|x l IH]; [reflexivity|]. simpl. intros Hs.
  apply Sorted_inv in Hs as [Hs Hx]. rewrite (IH Hs).
  destruct l as [|y l]; [reflexivity|]. simpl in *.
  apply HdRel_inv in Hx. unfold key_le in Hx. now rewrite Hx.
Qed.

Lemma sort_result my :
  sort my =
  match keys_of my with
  | OK keys =>
      (OK tt, set_entries (map snd (sorted (zip keys (entries my)))) my)
  | Raise ex => (Raise ex, my)
  end.
Proof. reflexivity. Qed.

Lemma sort_keeps_records my keys :
  keys_of my = OK keys ->
  map snd (sorted (zip keys (entries my))) ≡ₚ entries my
  /\ (nondecreasing keys ->
      map snd (sorted (zip keys (entries my))) = entries my).
Proof.
  intros Hkeys. pose proof (keys_length my keys Hkeys) as Hl. split.
  - rewrite sorted_perm. now rewrite snd_zip by lia.
  - intros Hs. rewrite sorted_in_order; [now rewrite snd_zip by lia|].
    now rewrite fst_zip by lia.
Qed.

End Load.

(** X6.  Building the index neither drops nor adds a record: the
    collection is a rearrangement of the records of the bibliography file,
    so that two records with the same identifier in the file are both in
    it.  When the records of the file are in order already, they are kept
    as they are.  The world is not changed. *)
Theorem MyRef_init_keeps_records (co : collaborators)
    (bibtex filesdir key_field : string) (w w' : world) (my : MyRef) :
  MyRef_init co bibtex filesdir key_field w = (OK my, w') ->
  exists content db keys,
    bibfile w = Some content
    /\ bibtexparser_loads co content = OK db
    /\ mapM (key my) db = OK keys
    /\ entries my ≡ₚ db
    /\ (nondecreasing keys -> entries my = db)
    /\ w' = w.
Proof.
  unfold MyRef_init.
  destruct (bibfile w) as [content|] eqn:Hb; [|discriminate].
  destruct (bibtexparser_loads co content) as [db|] eqn:Hl; [|discriminate].
  rewrite sort_result.
  set (my0 := mkMyRef filesdir "/tmp" bibtex db key_field).
  destruct (keys_of my0) as [keys|] eqn:Hkeys; [|discriminate].
  intros [= <- <-]. exists content, db, keys.
  destruct (sort_keeps_records my0 keys Hkeys) as [Hperm Hsame].
  split; [reflexivity|]. split; [exact Hl|]. split; [exact Hkeys|].
  split; [exact Hperm|]. split; [exact Hsame | reflexivity].
Qed.

Lemma MyRef_init_keeps_records_witness :
  exists content db keys,
    bibfile demo_world = Some content
    /\ bibtexparser_loads demo_co content = OK db
    /\ mapM (key demo_my) db = OK keys
    /\ entries demo_my ≡ₚ db
    /\ (nondecreasing keys -> entries demo_my = db)
    /\ demo_world = demo_world.
Proof.
  apply (MyRef_init_keeps_records demo_co "myref.bib" "files" "ID"
           demo_world demo_world demo_my).
  vm_compute. reflexivity.
Defined.

(** X7.  Saving and loading is a round trip: when the parser reads the
    dump of the collection as the collection, a [MyRef] built from the file
    that [save] wrote holds the same records in the same order. *)
Theorem save_load_round_trip (co : collaborators) (my : MyRef) (w : world) :
  sorted_index my ->
  bibtexparser_loads co (bibtexparser_dumps co (entries my))
  = OK (entries my) ->
  exists my',
    MyRef_init co (bibtex my) (filesdir my) (key_field my) (save co my w).2
    = (OK my', (save co my w).2)
    /\ entries my' = entries my
    /\ bibfile (save co my w).2 = Some (bibtexparser_dumps co (entries my)).
Proof.
  intros (keys & Hkeys & Hsorted) Hloads.
  unfold save, modify, MyRef_init. cbn [snd bibfile set_bibfile].
  rewrite Hloads, sort_result.
  set (my0 := mkMyRef (filesdir my) "/tmp" (bibtex my) (entries my)
                      (key_field my)).
  assert (Hkeys0 : keys_of my0 = OK keys) by exact Hkeys.
  rewrite Hkeys0. eexists. split; [reflexivity|]. split; [|reflexivity].
  cbn [entries set_entries].
  exact (proj2 (sort_keeps_records my0 keys Hkeys0) Hsorted).
Qed.

Lemma save_load_round_trip_witness :
  exists my',
    MyRef_init faithful_co "myref.bib" "files" "ID"
               (save faithful_co demo_my demo_world).2
    = (OK my', (save faithful_co demo_my demo_world).2)
    /\ entries my' = entries demo_my
    /\ bibfile (save faithful_co demo_my demo_world).2 = Some "@saved".
Proof.
  apply (save_load_round_trip faithful_co demo_my demo_world).
  - exists ["adams1999"; "baker2001"; "smith2020"].
    split; [vm_compute; reflexivity | repeat constructor].
  - reflexivity.
Defined.

Section KeyErrors.

Lemma key_raises my x ex :
  key my x = Raise ex -> x !! key_field my = None /\ ex = KeyError (key_field my).
Proof.
  unfold key, getitem, mbind, result_bind.
  destruct (x !! key_field my); [discriminate|]. now intros [= <-].
Qed.

Lemma key_ok my x k :
  key my x = OK k -> exists v, x !! key_field my = Some v.
Proof.
  unfold key, getitem, mbind, result_bind.
  destruct (x !! key_field my); [eauto | discriminate].
Qed.

Lemma keys_of_raises my ex :
  keys_of my = Raise ex ->
  ex = KeyError (key_field my)
  /\ Exists (fun x => x !! key_field my = None) (entries my).
Proof.
  unfold keys_of. induction (entries my) as [|x l IH]; simpl; [discriminate|].
  unfold mbind, result_bind, mret, result_ret.
  destruct (key my x) as [k|ex0] eqn:Hx.
  - destruct (mapM (key my) l); [discriminate|]. intros H.
    destruct (IH H) as [-> Hex]. split; [reflexivity | now apply Exists_cons_tl].
  - intros [= <-]. apply key_raises in Hx as [Hx ->].
    split; [reflexivity | now apply Exists_cons_hd].
Qed.

Lemma keys_of_ok my keys :
  keys_of my = OK keys ->
  Forall (fun x => is_Some (x !! key_field my)) (entries my).
Proof.
  intros H. apply mapM_OK in H.
  induction H as [|x k l ks Hx _ IH]; constructor; [|exact IH].
  now apply key_ok in Hx.
Qed.

End KeyErrors.

(** X8.  [insert_entry] raises exactly when the record, or a record of the
    collection, has no value for the key field; it then raises
    [KeyError] for that field and the collection is as it was.  No other
    exception comes out of it, sorted collection or not. *)
Theorem insert_entry_key_error (my : MyRef) (e : record) (replace : bool) :
  ((exists ex, (insert_entry e replace my).1 = Raise ex)
   <-> e !! key_field my = None
       \/ Exists (fun x => x !! key_field my = None) (entries my))
  /\ (forall ex, (insert_entry e replace my).1 = Raise ex ->
        ex = KeyError (key_field my) /\ (insert_entry e replace my).2 = my).
Proof.
  unfold insert_entry. fold (keys_of my).
  destruct (keys_of my) as [keys|ex0] eqn:Hkeys.
  2:{ apply keys_of_raises in Hkeys as [-> Hex]. cbn [fst snd].
      split; [split; eauto|]. now intros ex [= <-]. }
  pose proof (keys_of_ok my keys Hkeys) as Hall.
  pose proof (keys_length my keys Hkeys) as Hlen.
  destruct (key my e) as [k|ex0] eqn:Hk.
  2:{ apply key_raises in Hk as [Hk ->]. cbn [fst snd].
      split; [split; eauto|]. now intros ex [= <-]. }
  apply key_ok in Hk as [v Hv].
  assert (Hno : ~ (e !! key_field my = None
                   \/ Exists (fun x => x !! key_field my = None) (entries my))).
  { intros [H|H]; [congruence|].
    apply Exists_exists in H as (x & Hin & Hx).
    rewrite Forall_forall in Hall. destruct (Hall x Hin). congruence. }
  assert (Hok : exists r s,
            (if Nat.ltb (bisect_left keys k) (length keys)
                && bool_decide (keys !! bisect_left keys k = Some k)
             then
               match
                 entries (if replace
                          then set_entries
                                 (<[bisect_left keys k := e]> (entries my)) my
                          else my) !! bisect_left keys k
               with
               | Some ei =>
                   (OK (bisect_left keys k, ei),
                    if replace
                    then set_entries
                           (<[bisect_left keys k := e]> (entries my)) my
                    else my)
               | None =>
                   (Raise IndexError,
                    if replace
                    then set_entries
                           (<[bisect_left keys k := e]> (entries my)) my
                    else my)
               end
             else
               (OK (bisect_left keys k, e),
                set_entries
                  (take (bisect_left keys k) (entries my)
                   ++ e :: drop (bisect_left keys k) (entries my)) my))
            = (OK r, s)).
  { destruct (Nat.ltb_spec (bisect_left keys k) (length keys)) as [Hlt|Hge];
      cbn [andb]; [|eauto].
    destruct (bool_decide _); [|eauto].
    destruct replace; cbn [entries set_entries].
    - rewrite list_lookup_insert_eq by lia. eauto.
    - destruct (lookup_lt_is_Some_2 (entries my) (bisect_left keys k))
        as [ei ->]; [lia | eauto]. }
  destruct Hok as (r & s0 & ->). cbn [fst snd].
  split; [split; [intros [? ?]; discriminate | contradiction]|].
  discriminate.
Qed.

(** * Further properties of the file operations *)





Section ReadPdf.

Variable co : collaborators.

Lemma set_fs_set_fs f g w : set_fs f (set_fs g w) = set_fs f w.
Proof. reflexivity. Qed.

(** [readpdf] without [keeptxt]: pdftotext writes its text file, the code
    reads the file at [txtfile_of pdf] and removes it. *)
Lemma readpdf_world pdf first last w :
  readpdf co pdf first last false w =
  match pdftotext co pdf first last with
  | Some text =>
      match <[pdftotext_target pdf := text]> (fs w) !! txtfile_of pdf with
      | Some txt =>
          (OK txt,
           set_fs (delete (txtfile_of pdf)
                     (<[pdftotext_target pdf := text]> (fs w))) w)
      | None =>
          (Raise (IOError (txtfile_of pdf)),
           set_fs (<[pdftotext_target pdf := text]> (fs w)) w)
      end
  | None => (Raise CalledProcessError, w)
  end.
Proof.
  unfold readpdf, txtfile_of.
  destruct (pdftotext co pdf first last) as [text|]; [|reflexivity].
  cbn [fs set_fs]. now destruct (_ !! _).
Qed.

(** What a call of [readpdf] leaves of the files. *)
Lemma readpdf_files pdf first last w r w' :
  readpdf co pdf first last false w = (r, w') ->
  bibfile w' = bibfile w /\ dirs w' = dirs w /\ DRYRUN w' = DRYRUN w
  /\ (forall p, p <> txtfile_of pdf -> p <> pdftotext_target pdf ->
                fs w' !! p = fs w !! p)
  /\ (is_Some (pdftotext co pdf first last) ->
      txtfile_of pdf <> pdftotext_target pdf ->
      fs w' !! txtfile_of pdf = None
      /\ fs w' !! pdftotext_target pdf = pdftotext co pdf first last).
Proof.
  rewrite readpdf_world.
  destruct (pdftotext co pdf first last) as [text|].
  2:{ intros [= <- <-]. do 3 (split; [reflexivity|]).
      split; [reflexivity|]. intros [? ?]. discriminate. }
  destruct (_ !! txtfile_of pdf) as [txt|] eqn:Hread; intros [= <- <-];
    cbn [bibfile dirs DRYRUN fs set_fs];
    do 3 (split; [reflexivity|]).
  - split.
    + intros p Hp1 Hp2. rewrite lookup_delete_ne by congruence.
      now rewrite lookup_insert_ne by congruence.
    + intros _ Hne. split; [apply lookup_delete_eq|].
      rewrite lookup_delete_ne by exact Hne. apply lookup_insert_eq.
  - split.
    + intros p Hp1 Hp2. now rewrite lookup_insert_ne by congruence.
    + intros _ Hne. split; [exact Hread | apply lookup_insert_eq].
Qed.

End ReadPdf.

(** X11.  What [extract_doi] does to the files.  When pdftotext fails on
    page 1 nothing is changed.  For a PDF named so that [readpdf] finds the
    text that pdftotext wrote ([paper.pdf]), the one change is that no file
    stands at the path of the text file afterwards, whether a DOI is found
    or not: a file that was there before the call is lost.  For another
    name ([paper.PDF]) the text of pdftotext is not read: a missing file
    at [pdf.replace('.pdf','.txt')] gives [IOError]; a file that is there
    (the PDF itself, for [paper.PDF]) is read in place of the text and
    removed, and the text file of pdftotext is left behind. *)
Theorem extract_doi_world (co : collaborators) (pdf : string)
    (space_digit : bool) (w : world) :
  (page_text co pdf 1 = None ->
   extract_doi co pdf space_digit w = (Raise CalledProcessError, w))
  /\ (own_text pdf -> is_Some (page_text co pdf 1) ->
      (extract_doi co pdf space_digit w).2
      = set_fs (delete (txtfile_of pdf) (fs w)) w)
  /\ (~ own_text pdf -> forall t1, page_text co pdf 1 = Some t1 ->
      (fs w !! txtfile_of pdf = None ->
       extract_doi co pdf space_digit w
       = (Raise (IOError (txtfile_of pdf)),
          set_fs (<[pdftotext_target pdf := t1]> (fs w)) w))
      /\ (forall txt, fs w !! txtfile_of pdf = Some txt ->
          (forall doi, (extract_doi co pdf space_digit w).1 = OK doi ->
                       parse_doi txt space_digit = OK doi)
          /\ fs (extract_doi co pdf space_digit w).2 !! txtfile_of pdf = None
          /\ is_Some (fs (extract_doi co pdf space_digit w).2
                        !! pdftotext_target pdf)
          /\ (forall p, p <> txtfile_of pdf -> p <> pdftotext_target pdf ->
                fs (extract_doi co pdf space_digit w).2 !! p = fs w !! p))).
Proof.
  unfold page_text, own_text. split; [|split].
  - intros Hnone. unfold extract_doi, mbind, prog_bind.
    now rewrite readpdf_world, Hnone.
  - intros Hown [t1 Ht1]. unfold extract_doi, mbind, prog_bind, lift.
    rewrite readpdf_world, Ht1, <- Hown, lookup_insert_eq.
    rewrite delete_insert_eq.
    destruct (parse_doi t1 space_digit) as [d|[]]; try reflexivity.
    rewrite readpdf_world. cbn [fs set_fs].
    destruct (pdftotext co pdf (Some 2) (Some 2)) as [t2|]; [|reflexivity].
    rewrite <- Hown, lookup_insert_eq. cbn [snd].
    now rewrite set_fs_set_fs, delete_insert_eq, delete_delete_eq.
  - intros Hne t1 Ht1. split.
    + intros Hnone. unfold extract_doi, mbind, prog_bind.
      rewrite readpdf_world, Ht1.
      rewrite lookup_insert_ne by (intros E; apply Hne; now rewrite E).
      now rewrite Hnone.
    + intros txt Htxt. unfold extract_doi, mbind, prog_bind, lift.
      rewrite readpdf_world, Ht1.
      rewrite lookup_insert_ne by (intros E; apply Hne; now rewrite E).
      rewrite Htxt.
      set (fs1 := delete (txtfile_of pdf)
                    (<[pdftotext_target pdf := t1]> (fs w))).
      assert (H1 : fs1 !! txtfile_of pdf = None) by apply lookup_delete_eq.
      assert (H2 : fs1 !! pdftotext_target pdf = Some t1).
      { unfold fs1. rewrite lookup_delete_ne by exact Hne.
        apply lookup_insert_eq. }
      assert (H3 : forall p, p <> txtfile_of pdf ->
                     p <> pdftotext_target pdf -> fs1 !! p = fs w !! p).
      { intros p Hp1 Hp2. unfold fs1.
        rewrite lookup_delete_ne by congruence.
        now rewrite lookup_insert_ne by congruence. }
      assert (Hdone : forall r : result string,
                (forall doi, r = OK doi -> parse_doi txt space_digit = OK doi)
                -> (forall doi, (r, set_fs fs1 w).1 = OK doi ->
                      parse_doi txt space_digit = OK doi)
                   /\ fs (r, set_fs fs1 w).2 !! txtfile_of pdf = None
                   /\ is_Some (fs (r, set_fs fs1 w).2
                                 !! pdftotext_target pdf)
                   /\ (forall p, p <> txtfile_of pdf ->
                         p <> pdftotext_target pdf ->
                         fs (r, set_fs fs1 w).2 !! p = fs w !! p)).
      { intros r Hr. cbn [fst snd fs set_fs]. rewrite H2. eauto. }
      destruct (parse_doi txt space_digit) as [d|ex] eqn:Hparse.
      { apply Hdone. auto. }
      destruct ex; try (apply Hdone; intros doi; discriminate).
      rewrite readpdf_world. cbn [fs set_fs].
      destruct (pdftotext co pdf (Some 2) (Some 2)) as [t2|].
      2:{ apply Hdone. intros doi; discriminate. }
      rewrite lookup_insert_ne by (intros E; apply Hne; now rewrite E).
      rewrite H1. cbn [fst snd fs set_fs].
      split; [intros doi; discriminate|].
      split; [rewrite lookup_insert_ne
                by (intros E; apply Hne; now rewrite E); exact H1|].
      split; [rewrite lookup_insert_eq; eauto|].
      intros p Hp1 Hp2. rewrite lookup_insert_ne by congruence. auto.
Qed.

(** * What a dry run leaves alone *)

Section DryRun.

Variable co : collaborators.
Variable path : string.

Lemma move_dry f1 f2 copy : preserves (dry_file path) (move f1 f2 copy).
Proof.
  intros w. rewrite move_cases.
  destruct (w1_fields f2 w) as (Hfs & _ & Hdry). unfold dry_file.
  destruct (negb _ && _); [reflexivity|].
  destruct (negb (Py.is_utf8 f1)); [cbn [snd]; now rewrite Hdry, Hfs|].
  destruct (negb (Py.is_ascii f2)); [cbn [snd]; now rewrite Hdry, Hfs|].
  destruct (DRYRUN w) eqn:Hd.
  - cbn [snd]. now rewrite Hdry, Hfs.
  - destruct (fs w !! f1);
      [destruct copy; [destruct (String.eqb f1 f2)|]|];
      cbn [snd DRYRUN set_fs]; now rewrite Hdry.
Qed.

Lemma readpdf_dry pdf first last :
  path <> txtfile_of pdf -> path <> pdftotext_target pdf ->
  preserves (dry_file path) (readpdf co pdf first last false).
Proof.
  intros Hp1 Hp2 w.
  destruct (readpdf co pdf first last false w) as [r w'] eqn:E.
  destruct (readpdf_files co _ _ _ _ _ _ E) as (_ & _ & Hdry & Hfs & _).
  unfold dry_file. cbn [snd]. now rewrite Hdry, (Hfs path Hp1 Hp2).
Qed.

Lemma extract_doi_dry pdf sd :
  path <> txtfile_of pdf -> path <> pdftotext_target pdf ->
  preserves (dry_file path) (extract_doi co pdf sd).
Proof.
  intros Hp1 Hp2. unfold extract_doi.
  apply preserves_bind; [now apply readpdf_dry|intros t1].
  destruct (parse_doi t1 sd) as [d|[]]; try apply preserves_lift.
  apply preserves_bind; [now apply readpdf_dry|intros t2].
  apply preserves_lift.
Qed.

Lemma rename_several_dry newdir copy files :
  forall efiles,
    preserves (dry_file path) (rename_several newdir copy files efiles).
Proof.
  induction files as [|x files IH]; intros efiles; simpl.
  - apply preserves_ret.
  - apply preserves_bind; [apply preserves_lift|intros [file ftype]].
    apply preserves_bind; [|intros _; apply IH].
    destruct (negb _); [apply move_dry | apply preserves_ret].
Qed.

Lemma rename_entry_files_dry my e copy :
  preserves (dry_file path) (rename_entry_files my e copy).
Proof.
  unfold rename_entry_files.
  apply preserves_bind; [apply preserves_lift|intros year].
  destruct (getentryfiles e) as [|x [|y files]].
  - apply preserves_ret.
  - apply preserves_bind; [apply preserves_lift|intros [file type]].
    destruct (OsPath.splitext file) as [base ext].
    apply preserves_bind; [apply preserves_lift|intros ID].
    apply preserves_bind; [|intros _; apply preserves_ret].
    destruct (negb _); [apply move_dry | apply preserves_ret].
  - apply preserves_bind; [apply preserves_lift|intros ID].
    apply preserves_bind; [apply rename_several_dry|intros efiles].
    apply preserves_ret.
Qed.

Lemma fetch_bibtex_dry doi :
  preserves (fun s : gmap string string * world => dry_file path s.2)
            (fetch_bibtex co doi).
Proof.
  intros [c w]. unfold fetch_bibtex, decorated, fetch_bibtex_uncached, lift,
    mbind, prog_bind.
  destruct (c !! doi); [reflexivity|].
  destruct (urlopen co _) as [html|]; [|reflexivity].
  destruct (Py.is_utf8 html); [|reflexivity].
  unfold dry_file.
  destruct (DRYRUN w) eqn:Hd; cbn [negb snd DRYRUN set_fs]; rewrite ?Hd;
    reflexivity.
Qed.

Lemma in_world_obs {A O} (obs : world -> O) (m : prog world A) :
  preserves obs m -> preserves (fun st => obs (env st)) (in_world m).
Proof.
  intros H st. unfold in_world. specialize (H (env st)).
  now destruct (m (env st)).
Qed.

Lemma in_self_obs {A O} (obs : world -> O) (m : prog MyRef A) :
  preserves (fun st => obs (env st)) (in_self m).
Proof. intros st. unfold in_self. now destruct (m (self st)). Qed.

Lemma in_cache_obs {A O} (obs : world -> O)
    (m : prog (gmap string string * world) A) :
  preserves (fun s : gmap string string * world => obs s.2) m ->
  preserves (fun st => obs (env st)) (in_cache m).
Proof.
  intros H st. unfold in_cache. specialize (H (cache st, env st)).
  now destruct (m (cache st, env st)) as [r [c w]].
Qed.

Lemma add_pdf_dry pdf rename copy overwrite attachments sd :
  path <> txtfile_of pdf -> path <> pdftotext_target pdf ->
  preserves (fun st => dry_file path (env st))
            (add_pdf co pdf rename copy overwrite attachments sd).
Proof.
  intros Hp1 Hp2. unfold add_pdf.
  apply preserves_bind;
    [now apply (in_world_obs (dry_file path)), extract_doi_dry|intros doi].
  apply preserves_bind;
    [apply (in_cache_obs (dry_file path)), fetch_bibtex_dry|intros b].
  apply preserves_bind; [apply preserves_lift|intros bib].
  apply preserves_bind; [apply preserves_lift|intros entry].
  apply preserves_bind;
    [apply (in_self_obs (dry_file path))|intros [i entry']].
  apply preserves_bind; [apply preserves_lift|intros entry''].
  apply preserves_bind; [apply (in_self_obs (dry_file path))|intros _].
  destruct rename; [|apply preserves_ret].
  apply preserves_bind; [apply preserves_get|intros st].
  apply preserves_bind; [|intros e3; apply (in_self_obs (dry_file path))].
  apply (in_world_obs (dry_file path)), rename_entry_files_dry.
Qed.

End DryRun.

(** X12.  A dry run of [add] changes no file of the library, the lookup
    cache included, whatever the options and whether the run succeeds or
    fails.  The two paths whose file may change are the one at which
    pdftotext writes its text and the one that [readpdf] reads and
    removes, which it does without looking at the flag (one path, for a
    PDF named as [paper.pdf] is). *)
Theorem addpdf_dry_run (co : collaborators) (o : options)
    (c : gmap string string) (w : world) (path : string) :
  o_dry_run o = true ->
  path <> txtfile_of (o_pdf o) -> path <> pdftotext_target (o_pdf o) ->
  fs (addpdf co o (c, w)).2.2 !! path = fs w !! path.
Proof.
  intros Hdry Hp1 Hp2. unfold addpdf. cbv zeta. rewrite Hdry.
  assert (Hc : dry_file path
                 (if bool_decide (is_Some (bibfile (set_DRYRUN true w)))
                  then MyRef_init co (o_bibtex o) (o_filesdir o) "ID"
                         (set_DRYRUN true w)
                  else newbib co (o_bibtex o) (o_filesdir o)
                         (set_DRYRUN true w)).2
               = (true, Some (fs w !! path))).
  { unfold newbib. destruct (bool_decide _).
    - now rewrite MyRef_init_world.
    - destruct (bibfile (set_DRYRUN true w)); [reflexivity|].
      now rewrite MyRef_init_world. }
  destruct (if bool_decide _ then _ else _) as [[my|ex0] w1]; cbn [snd] in Hc.
  2:{ cbn [snd]. unfold dry_file in Hc. destruct (DRYRUN w1); congruence. }
  pose proof (add_pdf_dry co path (o_pdf o) (o_rename o) (o_copy o)
                (negb (o_append o)) (o_attachments o) true Hp1 Hp2
                (Process my c w1)) as Hk.
  cbn [env] in Hk. rewrite Hc in Hk.
  destruct (add_pdf _ _ _ _ _ _ _ _) as [[u|ex1] st]; cbn [snd negb] in *;
    unfold dry_file in Hk; destruct (DRYRUN (env st)); congruence.
Qed.

Lemma addpdf_dry_run_witness :
  fs (addpdf demo_co (add_options true) (∅, demo_world)).2.2
    !! ".crossref-bibtex.json"
  = fs demo_world !! ".crossref-bibtex.json".
Proof.
  apply (addpdf_dry_run demo_co (add_options true) ∅ demo_world
           ".crossref-bibtex.json").
  - reflexivity.
  - vm_compute. discriminate.
  - vm_compute. discriminate.
Defined.

(** * The shape of an extracted DOI *)

Section DoiShape.

Import Re.

(** The part of the pattern after the lazy star. *)
Let tail_nodes (sd : bool) : list node :=
  (if sd then [NSet [CLit " "; CDigit] Star] else [])
  ++ [NClose; NSet [CLit ","; CLit " "; CLit Py.LF] Once].

(** What the group can hold before the clean-up. *)
Let raw_char (sd : bool) (c : ascii) : bool :=
  negb (Ascii.eqb c ",") && negb (Ascii.eqb c Py.LF)
  && (sd || negb (Ascii.eqb c " ")).

Lemma digit_raw_char sd c : Py.is_digit c = true -> raw_char sd c = true.
Proof.
  unfold raw_char.
  destruct (Ascii.eqb_spec c ",") as [->|]; [discriminate|].
  destruct (Ascii.eqb_spec c Py.LF) as [->|]; [discriminate|].
  destruct (Ascii.eqb_spec c " ") as [->|]; [discriminate|].
  intros _. now rewrite orb_true_r.
Qed.

Lemma tail_nodes_stop sd c s :
  doi_char c = false -> match_here (tail_nodes sd) true (String c s) <> None.
Proof.
  intros Hc.
  assert (Hstop : match_here [NClose; NSet [CLit ","; CLit " "; CLit Py.LF] Once]
                    true (String c s) = Some ("", s)).
  { cbn [match_here]. unfold in_cls. cbn [existsb in_item].
    unfold doi_char in Hc.
    destruct (Ascii.eqb c ","), (Ascii.eqb c " "), (Ascii.eqb c Py.LF);
      try discriminate; reflexivity. }
  destruct sd; unfold tail_nodes; cbn [app]; [|now rewrite Hstop].
  rewrite match_here_greedy. destruct (in_cls _ c); [|now rewrite Hstop].
  destruct (keep true c _); [discriminate | now rewrite Hstop].
Qed.

Lemma lazy_part_chars sd : forall s cap rest,
  match_here (NSet [CDot] StarLazy :: tail_nodes sd) true s = Some (cap, rest) ->
  str_all (raw_char sd) cap = true.
Proof.
  assert (Htail : forall s cap rest,
            match_here (tail_nodes sd) true s = Some (cap, rest) ->
            str_all (raw_char sd) cap = true).
  { intros s cap rest. apply captured_chars. intros cls c Hin Hc.
    destruct sd; simpl in Hin; [|tauto].
    destruct Hin as [<-|[]]. unfold in_cls in Hc. simpl in Hc.
    rewrite orb_false_r in Hc. apply orb_prop in Hc as [Hc|Hc].
    - apply Ascii.eqb_eq in Hc. now subst c.
    - now apply digit_raw_char. }
  induction s as [|c s IH]; intros cap rest H; rewrite match_here_lazy in H.
  - destruct (match_here (tail_nodes sd) true "") as [m|] eqn:Hm;
      [|discriminate].
    injection H as ->. exact (Htail _ _ _ Hm).
  - destruct (match_here (tail_nodes sd) true (String c s)) as [m|] eqn:Hm.
    { injection H as ->. exact (Htail _ _ _ Hm). }
    destruct (in_cls [CDot] c) eqn:Hc; [|discriminate].
    apply keep_Some in H as (cap' & Hk & ->).
    simpl. rewrite (IH _ _ Hk), andb_true_r.
    destruct (doi_char c) eqn:Hd;
      [|now apply (tail_nodes_stop sd c s) in Hd].
    unfold doi_char in Hd. unfold raw_char.
    destruct (Ascii.eqb c ","), (Ascii.eqb c " "), (Ascii.eqb c Py.LF);
      try discriminate; destruct sd; reflexivity.
Qed.

Lemma in_cls_digit c : in_cls [CDigit] c = true -> Py.is_digit c = true.
Proof. unfold in_cls. simpl. now rewrite orb_false_r. Qed.

(** A match is [10.], four digits, a slash and characters at which the
    pattern does not stop, spaces apart when the space digit fix is on. *)
Lemma doi_match_chars sd s cap rest :
  match_here (doi_nodes sd) false s = Some (cap, rest) ->
  exists d1 d2 d3 d4 tail,
    cap = String "1" (String "0" (String "." (String d1 (String d2
            (String d3 (String d4 (String "/" tail)))))))
    /\ Py.is_digit d1 = true /\ Py.is_digit d2 = true
    /\ Py.is_digit d3 = true /\ Py.is_digit d4 = true
    /\ str_all (raw_char sd) tail = true.
Proof.
  intros H. unfold doi_nodes in H. cbn [app] in H.
  apply match_here_once in H as (c0 & s0 & cap0 & -> & _ & H & ->).
  change (match_here (NOpen :: ?r) false s0) with (match_here r true s0) in H.
  apply match_here_once in H as (c1 & s1 & cap1 & -> & E1 & H & ->).
  apply match_here_once in H as (c2 & s2 & cap2 & -> & E2 & H & ->).
  apply match_here_once in H as (c3 & s3 & cap3 & -> & E3 & H & ->).
  apply match_here_once in H as (c4 & s4 & cap4 & -> & E4 & H & ->).
  apply match_here_once in H as (c5 & s5 & cap5 & -> & E5 & H & ->).
  apply match_here_once in H as (c6 & s6 & cap6 & -> & E6 & H & ->).
  apply match_here_once in H as (c7 & s7 & cap7 & -> & E7 & H & ->).
  apply match_here_once in H as (c8 & s8 & cap8 & -> & E8 & H & ->).
  apply in_cls_lit in E1, E2, E3, E8. subst.
  apply in_cls_digit in E4, E5, E6, E7.
  exists c4, c5, c6, c7, cap8. repeat (split; [solve [auto]|]).
  exact (lazy_part_chars sd _ _ _ H).
Qed.

Lemma rstrip_cons_keep p c s :
  p c = false -> Py.rstrip p (String c s) = String c (Py.rstrip p s).
Proof. intros Hc. cbn [Py.rstrip]. destruct (Py.rstrip p s); now rewrite ?Hc. Qed.

Lemma rstrip_cons_nonempty p c d s :
  Py.rstrip p (String d s) = String d (Py.rstrip p s) ->
  Py.rstrip p (String c (String d s))
  = String c (Py.rstrip p (String d s)).
Proof. intros H. cbn [Py.rstrip] in *. now rewrite H. Qed.

Lemma str_all_rstrip p q : forall s,
  str_all q s = true -> str_all q (Py.rstrip p s) = true.
Proof.
  induction s as [|c s IH]; [reflexivity|]. simpl. intros H.
  apply andb_prop in H as [Hc Hs]. specialize (IH Hs).
  destruct (Py.rstrip p s).
  - destruct (p c); [reflexivity|]. simpl. now rewrite Hc.
  - simpl in *. now rewrite Hc, IH.
Qed.

Lemma str_all_replace_char (q q' : ascii -> bool) a b :
  (forall c, q c = true -> q' (if Ascii.eqb a c then b else c) = true) ->
  forall s, str_all q s = true ->
            str_all q' (Py.replace (String a "") (String b "") s) = true.
Proof.
  intros Hq. induction s as [|c s IH]; [reflexivity|].
  rewrite replace_char_cons. simpl. intros H.
  apply andb_prop in H as [Hc Hs]. now rewrite (Hq c Hc), (IH Hs).
Qed.

Lemma tail_ok_replace_char p a b :
  p b = false ->
  forall s, tail_ok p s = true ->
            tail_ok p (Py.replace (String a "") (String b "") s) = true.
Proof.
  intros Hb. induction s as [|c s IH]; [reflexivity|].
  rewrite replace_char_cons. destruct s as [|d s].
  - simpl. intros Hc. destruct (Ascii.eqb a c); [now rewrite Hb | exact Hc].
  - intros H. change (tail_ok p (String d s) = true) in H.
    specialize (IH H). rewrite replace_char_cons in *. exact IH.
Qed.

Lemma raw_char_doi_char sd c :
  raw_char sd c = true ->
  doi_char (if sd then if Ascii.eqb " " c then "_"%char else c else c) = true.
Proof.
  unfold raw_char, doi_char.
  destruct (Ascii.eqb_spec " " c) as [<-|Hs].
  - destruct sd; [reflexivity | discriminate].
  - assert (Hs' : Ascii.eqb c " " = false) by (apply Ascii.eqb_neq; congruence).
    destruct sd; rewrite Hs';
      destruct (Ascii.eqb c ","), (Ascii.eqb c Py.LF);
      try discriminate; reflexivity.
Qed.

(** The clean-up of a match. *)
Lemma clean_doi_chars sd s cap rest :
  match_here (doi_nodes sd) false s = Some (cap, rest) ->
  exists d1 d2 d3 d4 tail,
    clean_doi sd cap
    = String "1" (String "0" (String "." (String d1 (String d2
        (String d3 (String d4 (String "/" tail)))))))
    /\ Py.is_digit d1 = true /\ Py.is_digit d2 = true
    /\ Py.is_digit d3 = true /\ Py.is_digit d4 = true
    /\ str_all doi_char tail = true
    /\ tail_ok (Py.one_of ".") (clean_doi sd cap) = true.
Proof.
  intros H. pose proof (doi_match_shape sd s cap rest H)
    as (_ & _ & _ & _ & _ & _ & Hlf).
  apply doi_match_chars in H
    as (d1 & d2 & d3 & d4 & tail & -> & D1 & D2 & D3 & D4 & Htail).
  assert (Hnd : forall d, Py.is_digit d = true -> Py.one_of "." d = false
                          /\ Ascii.eqb " " d = false).
  { intros d Hd. split.
    - destruct (Ascii.eqb_spec d ".") as [->|Hn]; [discriminate|].
      unfold Py.one_of. simpl. apply Ascii.eqb_neq in Hn. now rewrite Hn.
    - destruct (Ascii.eqb_spec " " d) as [<-|Hn]; [discriminate|reflexivity]. }
  destruct (Hnd d1 D1) as [P1 S1], (Hnd d2 D2) as [P2 S2],
           (Hnd d3 D3) as [P3 S3], (Hnd d4 D4) as [P4 S4].
  set (tail' := Py.rstrip (Py.one_of ".") tail).
  assert (Hstrip :
    Py.strip (Py.one_of ".")
      (String "1" (String "0" (String "." (String d1 (String d2
         (String d3 (String d4 (String "/" tail))))))))
    = String "1" (String "0" (String "." (String d1 (String d2
         (String d3 (String d4 (String "/" tail')))))))).
  { unfold Py.strip. cbn [Py.lstrip]. change (Py.one_of "." "1") with false.
    cbv iota.
    pose proof (rstrip_cons_keep (Py.one_of ".") "/" tail eq_refl) as R8.
    pose proof (rstrip_cons_nonempty _ d4 _ _ R8) as R7.
    pose proof (rstrip_cons_nonempty _ d3 _ _ R7) as R6.
    pose proof (rstrip_cons_nonempty _ d2 _ _ R6) as R5.
    pose proof (rstrip_cons_nonempty _ d1 _ _ R5) as R4.
    pose proof (rstrip_cons_nonempty _ "." _ _ R4) as R3.
    pose proof (rstrip_cons_nonempty _ "0" _ _ R3) as R2.
    pose proof (rstrip_cons_nonempty _ "1" _ _ R2) as R1.
    rewrite R1, R2, R3, R4, R5, R6, R7, R8. reflexivity. }
  assert (Hok : tail_ok (Py.one_of ".")
                  (Py.strip (Py.one_of ".")
                     (String "1" (String "0" (String "." (String d1 (String d2
                        (String d3 (String d4 (String "/" tail)))))))))
                = true) by apply strip_ok.
  assert (Htail' : str_all (raw_char sd) tail' = true)
    by now apply str_all_rstrip.
  unfold clean_doi. rewrite (replace_absent Py.LF "" _ Hlf).
  destruct sd.
  - exists d1, d2, d3, d4, (Py.replace " " "_" tail').
    split; [|repeat (split; [assumption|]); split].
    + rewrite Hstrip. rewrite !replace_char_cons.
      rewrite S1, S2, S3, S4. reflexivity.
    + apply (str_all_replace_char (raw_char true)); [|exact Htail'].
      intros c. apply (raw_char_doi_char true).
    + now apply tail_ok_replace_char.
  - exists d1, d2, d3, d4, tail'.
    split; [exact Hstrip|repeat (split; [assumption|]); split].
    + revert Htail'. generalize tail'. clear. intros t.
      induction t as [|c t IH]; [reflexivity|]. simpl. intros H.
      apply andb_prop in H as [Hc Ht].
      now rewrite (raw_char_doi_char false c Hc), (IH Ht).
    + exact Hok.
Qed.

End DoiShape.

(** X13.  A DOI that [parse_doi] returns is well formed: it reads [10.],
    four digits, a slash and at least one more character; it holds no
    comma, no space and no newline; and it does not end with a dot. *)
Theorem parse_doi_well_formed (txt : string) (space_digit : bool)
    (doi : string) :
  parse_doi txt space_digit = OK doi ->
  (exists d1 d2 d3 d4 c tail,
     doi = String "1" (String "0" (String "." (String d1 (String d2
             (String d3 (String d4 (String "/" (String c tail))))))))
     /\ Py.is_digit d1 = true /\ Py.is_digit d2 = true
     /\ Py.is_digit d3 = true /\ Py.is_digit d4 = true)
  /\ str_all doi_char doi = true
  /\ tail_ok (Py.one_of ".") doi = true.
Proof.
  rewrite parse_doi_first_match.
  destruct (first_match space_digit txt) as [m|] eqn:Hm; [|discriminate].
  destruct (Nat.ltb 8 _) eqn:Hlen; [|discriminate].
  intros [= <-]. unfold first_match, Re.findall in Hm.
  apply findall_from_head in Hm as (s' & rest & Hm).
  apply clean_doi_chars in Hm
    as (d1 & d2 & d3 & d4 & tail & E & D1 & D2 & D3 & D4 & Htail & Hok).
  rewrite E in *. apply Nat.ltb_lt in Hlen.
  destruct tail as [|c tail]; [simpl in Hlen; lia|].
  split; [exists d1, d2, d3, d4, c, tail; auto|]. split; [|exact Hok].
  assert (Hd : forall d, Py.is_digit d = true -> doi_char d = true).
  { intros d Hd. unfold doi_char.
    destruct (Ascii.eqb_spec d ",") as [->|]; [discriminate|].
    destruct (Ascii.eqb_spec d " ") as [->|]; [discriminate|].
    destruct (Ascii.eqb_spec d Py.LF) as [->|]; [discriminate|reflexivity]. }
  cbn [str_all]. rewrite (Hd d1 D1), (Hd d2 D2), (Hd d3 D3), (Hd d4 D4).
  exact Htail.
Qed.

Lemma parse_doi_well_formed_witness :
  (exists d1 d2 d3 d4 c tail,
     "10.5194/bg-8-515-2011"
     = String "1" (String "0" (String "." (String d1 (String d2
         (String d3 (String d4 (String "/" (String c tail))))))))
     /\ Py.is_digit d1 = true /\ Py.is_digit d2 = true
     /\ Py.is_digit d3 = true /\ Py.is_digit d4 = true)
  /\ str_all doi_char "10.5194/bg-8-515-2011" = true
  /\ tail_ok (Py.one_of ".") "10.5194/bg-8-515-2011" = true.
Proof.
  apply (parse_doi_well_formed "doi: 10.5194/bg-8-515-2011. " true).
  vm_compute. reflexivity.
Defined.

Section LetterCase.

Import Re.

Let no_upper (c : ascii) : bool := negb (Py.is_upper c).

Lemma lower_char_no_upper c : Py.is_upper (Py.lower_char c) = false.
Proof. destruct c as [[] [] [] [] [] [] [] []]; reflexivity. Qed.

Lemma lower_no_upper s : str_all no_upper (Py.lower s) = true.
Proof.
  induction s as [|c s IH]; [reflexivity|]. simpl.
  unfold no_upper at 1. now rewrite lower_char_no_upper, IH.
Qed.

Lemma lower_id s : str_all no_upper s = true -> Py.lower s = s.
Proof.
  induction s as [|c s IH]; [reflexivity|]. simpl. intros H.
  apply andb_prop in H as [Hc Hs]. rewrite (IH Hs).
  unfold Py.lower_char. apply negb_true_iff in Hc. now rewrite Hc.
Qed.

Lemma lower_lower s : Py.lower (Py.lower s) = Py.lower s.
Proof. apply lower_id, lower_no_upper. Qed.

(** The captured text is made of characters of the text. *)
Lemma captured_from_text (p : ascii -> bool) r :
  forall g s cap rest,
    str_all p s = true -> match_here r g s = Some (cap, rest) ->
    str_all p cap = true.
Proof.
  induction r as [|n r IH]; intros g s cap rest Hs H.
  - simpl in H. injection H as <- <-. reflexivity.
  - destruct n as [cls q| |]; [|exact (IH true s cap rest Hs H)
                                |exact (IH false s cap rest Hs H)].
    destruct q.
    + apply match_here_once in H as (c & s' & cap' & -> & Hc & H & ->).
      simpl in Hs. apply andb_prop in Hs as [Hpc Hs].
      specialize (IH g s' cap' rest Hs H).
      destruct g; [simpl; now rewrite Hpc, IH | exact IH].
    + revert cap H. induction s as [|c s' IHs]; intros cap H;
        rewrite match_here_greedy in H.
      * exact (IH g _ cap rest Hs H).
      * destruct (in_cls cls c) eqn:Hc; [|exact (IH g _ cap rest Hs H)].
        destruct (keep g c _) as [m|] eqn:Hk;
          [|exact (IH g _ cap rest Hs H)].
        injection H as ->.
        apply keep_Some in Hk as (cap' & Hk & ->).
        simpl in Hs. apply andb_prop in Hs as [Hpc Hs'].
        specialize (IHs Hs' cap' Hk).
        destruct g; [simpl; now rewrite Hpc, IHs | exact IHs].
    + revert cap H. induction s as [|c s' IHs]; intros cap H;
        rewrite match_here_lazy in H.
      * destruct (match_here r g "") as [m|] eqn:Hm; [|discriminate].
        injection H as ->. exact (IH g _ cap rest Hs Hm).
      * destruct (match_here r g (String c s')) as [m|] eqn:Hm.
        { injection H as ->. exact (IH g _ cap rest Hs Hm). }
        destruct (in_cls cls c) eqn:Hc; [|discriminate].
        apply keep_Some in H as (cap' & Hk & ->).
        simpl in Hs. apply andb_prop in Hs as [Hpc Hs'].
        specialize (IHs Hs' cap' Hk).
        destruct g; [simpl; now rewrite Hpc, IHs | exact IHs].
Qed.

(** So is every match that [findall] gives. *)
Lemma findall_from_text (p : ascii -> bool) re : forall s skip m,
  str_all p s = true -> head (findall_from re skip s) = Some m ->
  str_all p m = true.
Proof.
  induction s as [|c s IH]; intros skip m Hs H.
  - destruct skip; simpl in H; [|discriminate].
    destruct (match_here re false "") as [[cap rest]|] eqn:Hm;
      [|discriminate].
    injection H as ->. exact (captured_from_text p re _ _ _ _ Hs Hm).
  - destruct skip as [|k].
    + unfold findall_from in H; fold findall_from in H.
      destruct (match_here re false (String c s)) as [[cap rest]|] eqn:Hm.
      * injection H as ->. exact (captured_from_text p re _ _ _ _ Hs Hm).
      * simpl in Hs. apply andb_prop in Hs as [_ Hs]. exact (IH _ _ Hs H).
    + simpl in H. simpl in Hs. apply andb_prop in Hs as [_ Hs].
      exact (IH _ _ Hs H).
Qed.

Lemma str_all_lstrip_keeps (p q : ascii -> bool) : forall s,
  str_all q s = true -> str_all q (Py.lstrip p s) = true.
Proof.
  induction s as [|c s IH]; [reflexivity|]. intros H. simpl.
  destruct (p c); [|exact H]. simpl in H.
  apply andb_prop in H as [_ H]. exact (IH H).
Qed.

Lemma str_all_replace_from (q : ascii -> bool) old new :
  str_all q new = true ->
  forall s skip, str_all q s = true ->
                 str_all q (Py.replace_from old new skip s) = true.
Proof.
  intros Hnew. induction s as [|c s IH]; intros skip H; [reflexivity|].
  simpl in H. apply andb_prop in H as [Hc Hs].
  cbn [Py.replace_from]. destruct skip as [|k]; [|exact (IH _ Hs)].
  destruct (Py.startswith old (String c s)).
  - specialize (IH (String.length old - 1) Hs). revert IH.
    generalize (Py.replace_from old new (String.length old - 1) s).
    intros t Ht. clear -Hnew Ht. induction new as [|a new IHn].
    + now rewrite append_nil.
    + rewrite append_cons. simpl in *.
      apply andb_prop in Hnew as [-> Hnew]. exact (IHn Hnew).
  - simpl. now rewrite Hc, (IH 0 Hs).
Qed.

Lemma clean_doi_no_upper sd m :
  str_all no_upper m = true -> str_all no_upper (clean_doi sd m) = true.
Proof.
  intros H. unfold clean_doi, Py.strip, Py.replace.
  assert (H1 : str_all no_upper
                 (Py.rstrip (Py.one_of ".")
                    (Py.lstrip (Py.one_of ".")
                       (Py.replace_from (String Py.LF "") "" 0 m))) = true).
  { apply str_all_rstrip, str_all_lstrip_keeps, str_all_replace_from;
      [reflexivity | exact H]. }
  destruct sd; [|exact H1].
  apply str_all_replace_from; [reflexivity | exact H1].
Qed.

Lemma parse_doi_lower_case txt sd doi :
  parse_doi txt sd = OK doi -> Py.lower doi = doi.
Proof.
  rewrite parse_doi_first_match.
  destruct (first_match sd txt) as [m|] eqn:Hm; [|discriminate].
  destruct (Nat.ltb 8 _); [|discriminate]. intros [= <-].
  apply lower_id, clean_doi_no_upper.
  unfold first_match, findall in Hm.
  exact (findall_from_text no_upper _ _ _ _ (lower_no_upper txt) Hm).
Qed.

End LetterCase.

(** X14.  [parse_doi] does not look at the letter case of the text: a text
    and the same text in other letter case (here, its lower-case form) give
    the same result, and a DOI that is returned holds no upper-case
    letter. *)
Theorem parse_doi_letter_case (txt : string) (space_digit : bool) :
  parse_doi (Py.lower txt) space_digit = parse_doi txt space_digit
  /\ (forall txt', Py.lower txt' = Py.lower txt ->
        parse_doi txt' space_digit = parse_doi txt space_digit)
  /\ (forall doi, parse_doi txt space_digit = OK doi -> Py.lower doi = doi).
Proof.
  assert (H : forall a b, Py.lower a = Py.lower b ->
                          parse_doi a space_digit = parse_doi b space_digit).
  { intros a b E. unfold parse_doi. now rewrite E. }
  split; [apply H, lower_lower|]. split; [intros txt'; apply H|].
  intros doi. apply parse_doi_lower_case.
Qed.

(** * Further properties of the lookup cache *)

Section Memo.

Variable co : collaborators.
Variable file : string.
Variable fun_ : string -> prog world string.

(** The outcomes of [decorated]. *)
Lemma decorated_cases doi cache w :
  decorated co file fun_ doi (cache, w) =
  match cache !! doi with
  | Some res => (OK res, (cache, w))
  | None =>
      match (fun_ doi w).1 with
      | OK res =>
          (OK res,
           (<[doi := res]> cache,
            if DRYRUN (fun_ doi w).2 then (fun_ doi w).2
            else set_fs (<[file := json_dumps co (<[doi := res]> cache)]>
                           (fs (fun_ doi w).2)) (fun_ doi w).2))
      | Raise ex => (Raise ex, (cache, (fun_ doi w).2))
      end
  end.
Proof.
  unfold decorated. destruct (cache !! doi); [reflexivity|].
  destruct (fun_ doi w) as [[res|ex] w1]; [|reflexivity].
  cbn [fst snd]. now destruct (DRYRUN w1).
Qed.

End Memo.

(** X15.  A lookup that returned is remembered: a second lookup of the same
    DOI gives the same result and changes nothing, whatever function is
    wrapped, so that function is not called again.  The entries that the
    cache held before the first lookup are still there, with their
    values. *)
Theorem cached_second_call (co : collaborators) (file : string)
    (fun_ : string -> prog world string) (doi : string)
    (cache : gmap string string) (w : world) (res : string)
    (st : gmap string string * world) :
  decorated co file fun_ doi (cache, w) = (OK res, st) ->
  (forall g, decorated co file g doi st = (OK res, st))
  /\ st.1 !! doi = Some res
  /\ (forall k v, cache !! k = Some v -> st.1 !! k = Some v).
Proof.
  rewrite decorated_cases. destruct (cache !! doi) as [r|] eqn:Hc.
  - intros [= <- <-]. cbn [fst]. split; [|now split].
    intros g. now rewrite decorated_cases, Hc.
  - destruct (fun_ doi w).1 as [r|ex]; [|discriminate].
    intros [= <- <-]. cbn [fst].
    assert (Hl : <[doi := r]> cache !! doi = Some r) by apply lookup_insert_eq.
    split; [|split; [exact Hl|]].
    + intros g. rewrite (surjective_pairing (_, _)).
      destruct (DRYRUN (fun_ doi w).2);
        rewrite decorated_cases; cbn [fst snd]; now rewrite Hl.
    + intros k v Hk. rewrite lookup_insert_ne; [exact Hk|congruence].
Qed.

Lemma cached_second_call_witness :
  (forall g,
     decorated demo_co ".crossref-bibtex.json" g "10.5194/bg-8-515-2011"
       (fetch_bibtex demo_co "10.5194/bg-8-515-2011" (∅, demo_world)).2
     = (OK "@article{Perrette_2011}",
        (fetch_bibtex demo_co "10.5194/bg-8-515-2011" (∅, demo_world)).2))
  /\ (fetch_bibtex demo_co "10.5194/bg-8-515-2011" (∅, demo_world)).2.1
       !! "10.5194/bg-8-515-2011" = Some "@article{Perrette_2011}"
  /\ (forall k v, (∅ : gmap string string) !! k = Some v ->
        (fetch_bibtex demo_co "10.5194/bg-8-515-2011" (∅, demo_world)).2.1
          !! k = Some v).
Proof.
  apply (cached_second_call demo_co ".crossref-bibtex.json"
           (fetch_bibtex_uncached demo_co) "10.5194/bg-8-515-2011"
           ∅ demo_world).
  reflexivity.
Defined.

(** X16.  The cache outlives the run: after a lookup that went to the
    wrapped function and returned, outside a dry run, the side file holds
    the dump of the whole cache, so that, json reading its own dump, the
    cache that a later run loads from the file is the cache of this run,
    the new entry included.  In a dry run the side file is not written (see
    X12). *)
Theorem cached_file_round_trip (co : collaborators) (file : string)
    (fun_ : string -> prog world string) (doi : string)
    (cache : gmap string string) (w : world) (res : string)
    (st : gmap string string * world) :
  decorated co file fun_ doi (cache, w) = (OK res, st) ->
  cache !! doi = None -> DRYRUN st.2 = false ->
  json_loads co (json_dumps co st.1) = OK st.1 ->
  fs st.2 !! file = Some (json_dumps co st.1)
  /\ cached_load co file st.2 = OK st.1
  /\ st.1 = <[doi := res]> cache.
Proof.
  rewrite decorated_cases. intros H Hc. rewrite Hc in H.
  destruct (fun_ doi w).1 as [r|ex]; [|discriminate].
  injection H as <- <-. cbn [fst snd]. intros Hdry Hjson.
  destruct (DRYRUN (fun_ doi w).2) eqn:Hd; [congruence|].
  unfold cached_load. cbn [fs set_fs]. rewrite lookup_insert_eq.
  now rewrite Hjson.
Qed.

Lemma cached_file_round_trip_witness :
  fs (fetch_bibtex json_co "10.5194/bg-8-515-2011" (∅, demo_world)).2.2
    !! ".crossref-bibtex.json"
  = Some (json_dumps json_co
            (fetch_bibtex json_co "10.5194/bg-8-515-2011" (∅, demo_world)).2.1)
  /\ cached_load json_co ".crossref-bibtex.json"
       (fetch_bibtex json_co "10.5194/bg-8-515-2011" (∅, demo_world)).2.2
     = OK (fetch_bibtex json_co "10.5194/bg-8-515-2011" (∅, demo_world)).2.1
  /\ (fetch_bibtex json_co "10.5194/bg-8-515-2011" (∅, demo_world)).2.1
     = <["10.5194/bg-8-515-2011" := "@article{Perrette_2011}"]> ∅.
Proof.
  apply (cached_file_round_trip json_co ".crossref-bibtex.json"
           (fetch_bibtex_uncached json_co) "10.5194/bg-8-515-2011"
           ∅ demo_world "@article{Perrette_2011}").
  - reflexivity.
  - reflexivity.
  - reflexivity.
  - reflexivity.
Defined.

(** * The index while a PDF is added *)

Section AddKeepsIndex.

Variable co : collaborators.

Lemma insert_entry_returns my e replace i ei my' :
  sorted_index my -> insert_entry e replace my = (OK (i, ei), my') ->
  entries my' !! i = Some ei /\ sorted_index my'
  /\ key_field my' = key_field my
  /\ (length (entries my') = length (entries my)
      \/ length (entries my') = S (length (entries my))).
Proof.
  intros Hs H.
  assert (Hs' : sorted_index my').
  { change my' with (OK (i, ei), my').2. rewrite <- H.
    now apply sorted_index_insert_entry. }
  assert (Hf : key_field my' = key_field my).
  { change my' with (OK (i, ei), my').2. rewrite <- H.
    apply insert_entry_key_field. }
  destruct Hs as (keys & Hkeys & Hsorted).
  destruct (key my e) as [k|ex] eqn:Hk.
  2:{ unfold insert_entry in H. unfold keys_of in Hkeys.
      rewrite Hkeys, Hk in H. discriminate. }
  pose proof (keys_length my keys Hkeys) as Hlen.
  destruct (decide (k ∈ keys)) as [Hin|Hnin].
  - destruct (insert_entry_present my keys Hkeys Hsorted e k Hk replace Hin)
      as (existing & Hex & _ & Heq).
    rewrite Heq in H. pose proof (lookup_lt_Some _ _ _ Hex) as Hlt.
    destruct replace; injection H as <- <- <-.
    + cbn [entries set_entries]. rewrite list_lookup_insert_eq by exact Hlt.
      rewrite length_insert. auto.
    + auto.
  - rewrite (insert_entry_absent my keys Hkeys Hsorted e k Hk replace Hnin)
      in H.
    injection H as <- <- <-. cbn [entries set_entries].
    destruct (bisect_left_spec keys k Hsorted) as (Hb & _).
    split; [apply lookup_inserted; lia|]. split; [exact Hs'|].
    split; [exact Hf|]. right.
    rewrite length_app, length_take. cbn [length]. rewrite length_drop. lia.
Qed.

Lemma store_sorted my i ei e' :
  sorted_index my -> entries my !! i = Some ei ->
  e' !! key_field my = ei !! key_field my ->
  sorted_index (set_entries (<[i := e']> (entries my)) my).
Proof.
  intros (keys & Hkeys & Hsorted) Hi He. exists keys. split; [|exact Hsorted].
  unfold keys_of in *. cbn [entries set_entries].
  apply mapM_OK. apply mapM_OK in Hkeys.
  destruct (Forall2_lookup_l _ _ _ _ _ Hkeys Hi) as (ki & Hki & Hkey).
  rewrite <- (list_insert_id keys i ki Hki).
  apply Forall2_insert; [exact Hkeys|].
  unfold key, getitem in *. cbn [key_field set_entries]. now rewrite He.
Qed.

Lemma setentryfiles_fields e files overwrite e' :
  setentryfiles e files overwrite = OK e' ->
  forall k, k <> "file" -> e' !! k = e !! k.
Proof.
  unfold setentryfiles, mbind, result_bind, mret, result_ret.
  destruct (if negb overwrite then _ else _); [|discriminate].
  intros [= <-] k Hk. now rewrite lookup_insert_ne.
Qed.

Lemma rename_entry_files_fields my e copy w e' w' :
  rename_entry_files my e copy w = (OK e', w') ->
  forall k, k <> "file" -> e' !! k = e !! k.
Proof.
  unfold rename_entry_files, mbind, prog_bind, lift, mret, prog_ret.
  destruct (getitem e "year"); [|discriminate].
  destruct (getentryfiles e) as [|x [|y files]].
  - now intros [= <- <-].
  - destruct (unpack2 x) as [[file type]|]; [|discriminate].
    destruct (OsPath.splitext file) as [base ext].
    destruct (getitem e "ID"); [|discriminate].
    destruct (negb _);
      [destruct (move _ _ _ w) as [[u|ex] w1]; [|discriminate]|];
      intros [= <- <-] k Hk; now rewrite lookup_insert_ne.
  - destruct (getitem e "ID"); [|discriminate].
    destruct (rename_several _ _ _ _ w) as [[u|ex] w1]; [|discriminate].
    intros [= <- <-] k Hk. now rewrite lookup_insert_ne.
Qed.

Lemma insert_entry_raises my e replace ex my' :
  sorted_index my -> insert_entry e replace my = (Raise ex, my') -> my' = my.
Proof.
  intros (keys & Hkeys & Hsorted) H.
  destruct (key my e) as [k|ex'] eqn:Hk.
  - destruct (decide (k ∈ keys)) as [Hin|Hnin].
    + destruct (insert_entry_present my keys Hkeys Hsorted e k Hk replace Hin)
        as (existing & _ & _ & Heq).
      rewrite Heq in H. destruct replace; discriminate.
    + rewrite (insert_entry_absent my keys Hkeys Hsorted e k Hk replace Hnin)
        in H. discriminate.
  - unfold insert_entry in H. unfold keys_of in Hkeys.
    rewrite Hkeys, Hk in H. now injection H.
Qed.

End AddKeepsIndex.

(** The index and its key field through [add_pdf], in every outcome. *)
Lemma add_pdf_index (co : collaborators) (pdf : string)
    (rename copy overwrite : bool) (attachments : option (list string))
    (space_digit : bool) (st : process) :
  sorted_index (self st) -> key_field (self st) <> "file" ->
  sorted_index
    (self (add_pdf co pdf rename copy overwrite attachments space_digit st).2)
  /\ key_field
       (self (add_pdf co pdf rename copy overwrite attachments space_digit
                st).2)
     = key_field (self st)
  /\ (length (entries (self (add_pdf co pdf rename copy overwrite attachments
                              space_digit st).2))
      = length (entries (self st))
      \/ length (entries (self (add_pdf co pdf rename copy overwrite
                                 attachments space_digit st).2))
         = S (length (entries (self st)))).
Proof.
  intros Hs Hkf. destruct st as [my c w]. cbn [self] in Hs, Hkf |- *.
  set (Inv := fun my' : MyRef =>
         sorted_index my' /\ key_field my' = key_field my
         /\ (length (entries my') = length (entries my)
             \/ length (entries my') = S (length (entries my)))).
  change (Inv (self (add_pdf co pdf rename copy overwrite attachments
                       space_digit (Process my c w)).2)).
  assert (H0 : Inv my) by (unfold Inv; auto).
  unfold add_pdf, mbind, prog_bind, in_world at 1. cbn [self cache env].
  destruct (extract_doi co pdf space_digit w) as [[doi|ex] w1];
    [|exact H0].
  unfold in_cache at 1. cbn [self cache env].
  destruct (fetch_bibtex co doi (c, w1)) as [[b|ex] [c2 w2]]; [|exact H0].
  unfold lift at 1. destruct (bibtexparser_loads co b) as [bib|ex];
    [|exact H0].
  unfold lift at 1.
  destruct (match bib with [] => _ | e :: _ => _ end) as [entry0|ex];
    [|exact H0].
  unfold in_self at 1. cbn [self cache env].
  destruct (insert_entry entry0 false my) as [[[i e1]|ex] my3] eqn:E.
  2:{ cbn [snd self]. now rewrite (insert_entry_raises _ _ _ _ _ Hs E). }
  destruct (insert_entry_returns _ _ _ _ _ _ Hs E) as (Hi & Hs3 & Hf3 & Hl3).
  assert (H3 : Inv my3) by (unfold Inv; rewrite Hf3; auto).
  unfold lift at 1.
  destruct (setentryfiles e1 _ overwrite) as [e2|ex] eqn:E2; [|exact H3].
  unfold in_self at 1, store, modify. cbn [self cache env].
  set (my4 := set_entries (<[i := e2]> (entries my3)) my3).
  assert (Hlt : i < length (entries my3)) by exact (lookup_lt_Some _ _ _ Hi).
  assert (Hkf3 : key_field my3 <> "file") by now rewrite Hf3.
  assert (Hs4 : sorted_index my4).
  { apply (store_sorted my3 i e1 e2 Hs3 Hi).
    exact (setentryfiles_fields _ _ _ _ E2 _ Hkf3). }
  assert (H4 : Inv my4).
  { unfold Inv, my4. cbn [entries key_field set_entries].
    rewrite length_insert, Hf3. split; [exact Hs4|]. auto. }
  destruct rename; [|exact H4].
  unfold get at 1, in_world at 1. cbn [self cache env].
  destruct (rename_entry_files my4 e2 copy w2) as [[e3|ex] w3] eqn:E3;
    [|exact H4].
  unfold in_self, modify. cbn [self cache env snd].
  assert (Hi4 : entries my4 !! i = Some e2).
  { unfold my4. cbn [entries set_entries].
    now rewrite list_lookup_insert_eq. }
  split; [|split].
  - apply (store_sorted my4 i e2 e3 Hs4 Hi4).
    apply (rename_entry_files_fields _ _ _ _ _ _ E3). exact Hkf3.
  - cbn [key_field set_entries]. exact Hf3.
  - unfold my4. cbn [entries set_entries]. rewrite !length_insert.
    exact Hl3.
Qed.

(** X17.  [add_pdf] keeps the index in order: on a sorted collection whose
    key field is not [file] (the field it rewrites), the collection is
    sorted when the call returns and when it raises, at whatever stage; its
    key field is the same and it holds the records it held or one more. *)
Theorem add_pdf_keeps_index (co : collaborators) (pdf : string)
    (rename copy overwrite : bool) (attachments : option (list string))
    (space_digit : bool) (st : process) :
  sorted_index (self st) -> key_field (self st) <> "file" ->
  sorted_index
    (self (add_pdf co pdf rename copy overwrite attachments space_digit st).2)
  /\ key_field
       (self (add_pdf co pdf rename copy overwrite attachments space_digit
                st).2)
     = key_field (self st)
  /\ (length (entries (self (add_pdf co pdf rename copy overwrite attachments
                              space_digit st).2))
      = length (entries (self st))
      \/ length (entries (self (add_pdf co pdf rename copy overwrite
                                 attachments space_digit st).2))
         = S (length (entries (self st)))).
Proof.
  exact (add_pdf_index co pdf rename copy overwrite attachments space_digit st).
Qed.

Lemma add_pdf_keeps_index_witness :
  sorted_index
    (self (add_pdf demo_co "/tmp/x.pdf" true false true None true
             (Process demo_my ∅ demo_world)).2)
  /\ key_field
       (self (add_pdf demo_co "/tmp/x.pdf" true false true None true
                (Process demo_my ∅ demo_world)).2)
     = key_field (self (Process demo_my ∅ demo_world))
  /\ (length (entries (self (add_pdf demo_co "/tmp/x.pdf" true false true None
                              true (Process demo_my ∅ demo_world)).2))
      = length (entries (self (Process demo_my ∅ demo_world)))
      \/ length (entries (self (add_pdf demo_co "/tmp/x.pdf" true false true
                                 None true (Process demo_my ∅ demo_world)).2))
         = S (length (entries (self (Process demo_my ∅ demo_world))))).
Proof.
  apply (add_pdf_keeps_index demo_co "/tmp/x.pdf" true false true None true
           (Process demo_my ∅ demo_world)).
  - exists ["adams1999"; "baker2001"; "smith2020"]. split; [reflexivity|].
    repeat constructor.
  - discriminate.
Defined.

Section SavedIndex.

Variable co : collaborators.

Lemma MyRef_init_key_field bibtex filesdir kf w my w' :
  MyRef_init co bibtex filesdir kf w = (OK my, w') -> key_field my = kf.
Proof.
  unfold MyRef_init. destruct (bibfile w); [|discriminate].
  destruct (bibtexparser_loads co s) as [db|]; [|discriminate].
  rewrite sort_result. destruct (keys_of _); [|discriminate].
  now intros [= <- <-].
Qed.

Lemma constructed_index o w my w' :
  constructed co o w = (OK my, w') ->
  sorted_index my /\ key_field my = "ID".
Proof.
  unfold constructed. cbv zeta. destruct (bool_decide _).
  - intros H. split; [exact (MyRef_init_sorted _ _ _ _ _ _ _ H)|].
    exact (MyRef_init_key_field _ _ _ _ _ _ H).
  - intros H. split; [exact (newbib_sorted _ _ _ _ _ _ H)|].
    unfold newbib in H. destruct (bibfile _); [discriminate|].
    exact (MyRef_init_key_field _ _ _ _ _ _ H).
Qed.

End SavedIndex.

(** X18.  What [add] saves is in order: when the command returns outside a
    dry run, the bibliography file holds the dump of a collection that is
    sorted by the lower-case [ID] of its records, each of which has an
    [ID]. *)
Theorem addpdf_saves_sorted (co : collaborators) (o : options)
    (c : gmap string string) (w : world) :
  (addpdf co o (c, w)).1 = OK tt -> o_dry_run o = false ->
  exists my,
    bibfile (addpdf co o (c, w)).2.2
    = Some (bibtexparser_dumps co (entries my))
    /\ key_field my = "ID" /\ sorted_index my.
Proof.
  intros H Hdry. unfold addpdf in *. cbv zeta in *.
  pose proof (constructed_index co o w) as Hc. unfold constructed in Hc.
  cbv zeta in Hc.
  destruct (if bool_decide _ then _ else _) as [[my|ex0] w1];
    [|discriminate].
  destruct (Hc my w1 eq_refl) as (Hs & Hf).
  assert (Hkf : key_field my <> "file") by (rewrite Hf; discriminate).
  pose proof (add_pdf_index co (o_pdf o) (o_rename o) (o_copy o)
                (negb (o_append o)) (o_attachments o) true
                (Process my c w1) Hs Hkf) as (Hs' & Hf' & _).
  cbn [self] in Hf'.
  destruct (add_pdf _ _ _ _ _ _ _ _) as [[u|ex1] st]; [|discriminate].
  cbn [snd] in Hs', Hf'. rewrite Hdry in *. cbn [negb] in *.
  unfold save, modify in *. cbn [fst snd bibfile set_bibfile] in *.
  exists (self st). split; [reflexivity|]. split; [congruence | exact Hs'].
Qed.

Lemma addpdf_saves_sorted_witness :
  exists my,
    bibfile (addpdf demo_co (add_options false) (∅, demo_world)).2.2
    = Some (bibtexparser_dumps demo_co (entries my))
    /\ key_field my = "ID" /\ sorted_index my.
Proof.
  apply (addpdf_saves_sorted demo_co (add_options false) ∅ demo_world).
  - vm_compute. reflexivity.
  - reflexivity.
Defined.

(** * Further properties of the renaming *)

(** X19.  [rename_entry_files] reads the [year] of the record before it
    looks at the files: a record without [year] makes it raise [KeyError],
    even when the record has no file to rename.  With a [year] and no file
    it returns without any change.  With files to rename and no [ID] it
    raises [KeyError] before any file is touched. *)
Theorem rename_entry_files_missing_field (my : MyRef) (e : record)
    (copy : bool) (w : world) :
  (e !! "year" = None ->
   rename_entry_files my e copy w = (Raise (KeyError "year"), w))
  /\ (is_Some (e !! "year") -> getentryfiles e = [] ->
      rename_entry_files my e copy w = (OK e, w))
  /\ (is_Some (e !! "year") -> e !! "ID" = None ->
      2 <= length (getentryfiles e) ->
      rename_entry_files my e copy w = (Raise (KeyError "ID"), w))
  /\ (forall file type,
        is_Some (e !! "year") -> e !! "ID" = None ->
        getentryfiles e = [[file; type]] ->
        rename_entry_files my e copy w = (Raise (KeyError "ID"), w)).
Proof.
  unfold rename_entry_files, mbind, prog_bind, lift, mret, prog_ret, getitem.
  split; [now intros ->|]. split; [|split].
  - intros [year ->] ->. reflexivity.
  - intros [year ->] -> Hlen.
    destruct (getentryfiles e) as [|x [|y files]]; simpl in Hlen; try lia.
    reflexivity.
  - intros file type [year ->] -> ->. cbn [unpack2].
    now destruct (OsPath.splitext file).
Qed.



(** * The order of records with the same key *)

Section Stable.

Variable my : MyRef.

Lemma insert_by_key_filter (k : string) x l :
  filter (fun p : string * record => p.1 = k) (insert_by_key x l)
  = filter (fun p : string * record => p.1 = k) (x :: l).
Proof.
  induction l as [|y l IH]; [reflexivity|]. simpl.
  destruct (String.leb x.1 y.1) eqn:Hle; [reflexivity|].
  rewrite filter_cons, IH, !filter_cons.
  destruct (decide (x.1 = k)) as [Hx|]; [|reflexivity].
  destruct (decide (y.1 = k)) as [Hy|]; [|reflexivity].
  rewrite <- Hy in Hx. rewrite Hx, leb_refl in Hle. discriminate.
Qed.

Lemma sorted_filter (k : string) l :
  filter (fun p : string * record => p.1 = k) (sorted l)
  = filter (fun p : string * record => p.1 = k) l.
Proof.
  induction l as [|x l IH]; [reflexivity|]. simpl.
  now rewrite insert_by_key_filter, !filter_cons, IH.
Qed.

Lemma keyed_has_key p k :
  keyed my p -> has_key (key_field my) k p.2 <-> p.1 = k.
Proof.
  unfold keyed, has_key, key, getitem, mbind, result_bind, mret, result_ret.
  destruct (p.2 !! key_field my) as [v|]; [|discriminate].
  intros [= <-]. simpl. split; congruence.
Qed.

Lemma filter_keyed k l :
  Forall (keyed my) l ->
  filter (has_key (key_field my) k) (map snd l)
  = map snd (filter (fun p : string * record => p.1 = k) l).
Proof.
  induction 1 as [|p l Hp _ IH]; [reflexivity|]. cbn [map].
  rewrite !filter_cons, IH. pose proof (keyed_has_key p k Hp) as Hiff.
  destruct (decide (has_key _ k p.2)), (decide (p.1 = k));
    try reflexivity; tauto.
Qed.

End Stable.

(** X21.  [sort] is stable: the records that have the same normalized key
    stand in the sorted collection in the order they had before, so that
    of two records with one identifier the first of the file stays the
    first. *)
Theorem sort_stable (my my' : MyRef) (r : unit) (k : string) :
  sort my = (OK r, my') ->
  filter (has_key (key_field my) k) (entries my')
  = filter (has_key (key_field my) k) (entries my).
Proof.
  rewrite sort_result. destruct (keys_of my) as [keys|] eqn:Hkeys;
    [|discriminate].
  intros [= _ <-]. cbn [entries set_entries].
  pose proof (keys_length my keys Hkeys) as Hl.
  assert (Hz : Forall (keyed my) (zip keys (entries my))).
  { apply zip_keyed. now apply mapM_OK. }
  rewrite (filter_keyed my) by now rewrite sorted_perm.
  rewrite sorted_filter, <- (filter_keyed my) by exact Hz.
  now rewrite snd_zip by lia.
Qed.

Lemma sort_stable_witness :
  filter (has_key "ID" "smith2020")
    [entry "adams1999" "1999"; entry "Smith2020" "2020";
     entry "smith2020" "2021"]
  = filter (has_key "ID" "smith2020")
      [entry "Smith2020" "2020"; entry "adams1999" "1999";
       entry "smith2020" "2021"].
Proof.
  apply (sort_stable
           (mkMyRef "files" "/tmp" "myref.bib"
              [entry "Smith2020" "2020"; entry "adams1999" "1999";
               entry "smith2020" "2021"] "ID")
           (mkMyRef "files" "/tmp" "myref.bib"
              [entry "adams1999" "1999"; entry "Smith2020" "2020";
               entry "smith2020" "2021"] "ID") tt "smith2020").
  vm_compute. reflexivity.
Defined.

(** * Failures of the construction and of the pipeline *)

(** X22.  [MyRef(bibtex, filesdir, key_field)] fails in three cases and no
    other: the bibliography file does not exist, bibtexparser cannot read
    it, or one of its records has no value for the key field. *)
Theorem MyRef_init_failure (co : collaborators)
    (bibtex filesdir field : string) (w : world) :
  (exists ex, (MyRef_init co bibtex filesdir field w).1 = Raise ex)
  <-> bibfile w = None
      \/ (exists content ex,
            bibfile w = Some content
            /\ bibtexparser_loads co content = Raise ex)
      \/ (exists content db,
            bibfile w = Some content
            /\ bibtexparser_loads co content = OK db
            /\ Exists (fun x => x !! field = None) db).
Proof.
  unfold MyRef_init. destruct (bibfile w) as [content|].
  2:{ split; [auto | intros _; cbn; eauto]. }
  destruct (bibtexparser_loads co content) as [db|ex0] eqn:Hl.
  2:{ split; [intros _; right; left; eauto | intros _; cbn; eauto]. }
  rewrite sort_result.
  destruct (keys_of (mkMyRef filesdir "/tmp" bibtex db field))
    as [keys|ex1] eqn:Hk.
  - split; [intros [ex H]; discriminate|].
    intros [H|[(c & ex & [= <-] & H)|(c & db' & [= <-] & Hdb & H)]];
      [discriminate | congruence |].
    rewrite Hl in Hdb. injection Hdb as <-.
    apply keys_of_ok in Hk. cbn [entries key_field] in Hk.
    apply Exists_exists in H as (x & Hx & Hnone).
    rewrite Forall_forall in Hk. destruct (Hk x Hx) as [v Hv]. congruence.
  - split; [|intros _; cbn; eauto]. intros _. right. right.
    exists content, db. split; [reflexivity|]. split; [exact Hl|].
    apply keys_of_raises in Hk as [_ Hk]. exact Hk.
Qed.

(** X23.  A lookup is remembered even when its result is of no use: when
    the text that [fetch_bibtex] returns holds no entry, [add_pdf] raises
    [IndexError] with the collection as it was, but the text is in the
    cache by then, so that a later lookup of the same DOI returns it
    again without the server being asked. *)
Theorem add_pdf_empty_bibtex (co : collaborators) (pdf : string)
    (rename copy overwrite : bool) (attachments : option (list string))
    (space_digit : bool) (st : process) (doi b : string) (w1 w2 : world)
    (c2 : gmap string string) :
  extract_doi co pdf space_digit (env st) = (OK doi, w1) ->
  fetch_bibtex co doi (cache st, w1) = (OK b, (c2, w2)) ->
  bibtexparser_loads co b = OK [] ->
  add_pdf co pdf rename copy overwrite attachments space_digit st
  = (Raise IndexError, Process (self st) c2 w2)
  /\ c2 !! doi = Some b
  /\ (forall g w', decorated co ".crossref-bibtex.json" g doi (c2, w')
                   = (OK b, (c2, w'))).
Proof.
  intros Hdoi Hfetch Hloads.
  assert (Hc : c2 !! doi = Some b).
  { unfold fetch_bibtex in Hfetch. rewrite decorated_cases in Hfetch.
    destruct (cache st !! doi) as [r|] eqn:Hr.
    - now injection Hfetch as <- <- <-.
    - destruct (fetch_bibtex_uncached co doi w1).1; [|discriminate].
      injection Hfetch as <- <- _. apply lookup_insert_eq. }
  split; [|split; [exact Hc|]].
  - unfold add_pdf, mbind, prog_bind, in_world at 1. rewrite Hdoi.
    unfold in_cache at 1. cbn [self cache env]. rewrite Hfetch.
    unfold lift. now rewrite Hloads.
  - intros g w'. now rewrite decorated_cases, Hc.
Qed.

Lemma add_pdf_empty_bibtex_witness :
  add_pdf blank_co "/tmp/x.pdf" false false true None true
    (Process demo_my ∅ demo_world)
  = (Raise IndexError,
     Process (self (Process demo_my ∅ demo_world))
       (fetch_bibtex blank_co "10.5194/bg-8-515-2011"
          (∅, (extract_doi blank_co "/tmp/x.pdf" true demo_world).2)).2.1
       (fetch_bibtex blank_co "10.5194/bg-8-515-2011"
          (∅, (extract_doi blank_co "/tmp/x.pdf" true demo_world).2)).2.2)
  /\ (fetch_bibtex blank_co "10.5194/bg-8-515-2011"
        (∅, (extract_doi blank_co "/tmp/x.pdf" true demo_world).2)).2.1
       !! "10.5194/bg-8-515-2011" = Some ""
  /\ (forall g w',
        decorated blank_co ".crossref-bibtex.json" g "10.5194/bg-8-515-2011"
          ((fetch_bibtex blank_co "10.5194/bg-8-515-2011"
              (∅, (extract_doi blank_co "/tmp/x.pdf" true demo_world).2)).2.1,
           w')
        = (OK "",
           ((fetch_bibtex blank_co "10.5194/bg-8-515-2011"
               (∅, (extract_doi blank_co "/tmp/x.pdf" true
                      demo_world).2)).2.1,
            w'))).
Proof.
  apply (add_pdf_empty_bibtex blank_co "/tmp/x.pdf" false false true None
           true (Process demo_my ∅ demo_world) "10.5194/bg-8-515-2011" ""
           (extract_doi blank_co "/tmp/x.pdf" true demo_world).2).
  - vm_compute. reflexivity.
  - vm_compute. reflexivity.
  - reflexivity.
Defined.

(** * Adding a PDF for a record that is there *)

(** X24.  Adding a PDF whose record is in the collection already (same
    normalized key) adds no record and does not take over the fields that
    were fetched: whether the call returns or raises after the lookup, the
    collection is as it was but for one record, the one with that key,
    which keeps all its fields except [file]. *)
Theorem add_pdf_known_record (co : collaborators) (pdf : string)
    (rename copy overwrite : bool) (attachments : option (list string))
    (space_digit : bool) (st : process) (doi b : string) (w1 w2 : world)
    (c2 : gmap string string) (e0 : record) (others : list record)
    (keys : list string) (k : string) :
  extract_doi co pdf space_digit (env st) = (OK doi, w1) ->
  fetch_bibtex co doi (cache st, w1) = (OK b, (c2, w2)) ->
  bibtexparser_loads co b = OK (e0 :: others) ->
  keys_of (self st) = OK keys -> nondecreasing keys ->
  key (self st) e0 = OK k -> k ∈ keys ->
  exists i existing e',
    entries (self st) !! i = Some existing
    /\ key (self st) existing = OK k
    /\ entries (self (add_pdf co pdf rename copy overwrite attachments
                        space_digit st).2)
       = <[i := e']> (entries (self st))
    /\ (forall f, f <> "file" -> e' !! f = existing !! f).
Proof.
  intros Hdoi Hfetch Hloads Hkeys Hsorted Hk Hin.
  destruct st as [my c w]. cbn [self cache env] in *.
  destruct (insert_entry_present my keys Hkeys Hsorted e0 k Hk false Hin)
    as (existing & Hex & Hkex & Hins).
  exists (bisect_left keys k), existing.
  unfold add_pdf, mbind, prog_bind, in_world at 1. cbn [self cache env].
  rewrite Hdoi. unfold in_cache at 1. cbn [self cache env]. rewrite Hfetch.
  unfold lift at 1. rewrite Hloads. unfold lift at 1.
  unfold in_self at 1. cbn [self cache env]. rewrite Hins.
  unfold lift at 1.
  destruct (setentryfiles existing _ overwrite) as [e2|ex] eqn:E2.
  2:{ exists existing. cbn [snd self].
      rewrite list_insert_id by exact Hex. auto. }
  pose proof (setentryfiles_fields _ _ _ _ E2) as Hf2.
  unfold in_self at 1, store, modify. cbn [self cache env].
  destruct rename.
  2:{ exists e2. cbn [snd self entries set_entries]. auto. }
  unfold get at 1, in_world at 1. cbn [self cache env].
  destruct (rename_entry_files _ e2 copy w2) as [[e3|ex] w3] eqn:E3.
  - exists e3. unfold in_self, modify. cbn [snd self entries set_entries].
    rewrite list_insert_insert_eq. repeat (split; [solve [auto]|]).
    intros f Hf. rewrite (rename_entry_files_fields _ _ _ _ _ _ E3 f Hf).
    auto.
  - exists e2. cbn [snd self entries set_entries]. auto.
Qed.

Lemma add_pdf_known_record_witness :
  exists i existing e',
    entries (self (Process known_my ∅ demo_world)) !! i = Some existing
    /\ key (self (Process known_my ∅ demo_world)) existing
       = OK "perrette_2011"
    /\ entries (self (add_pdf demo_co "/tmp/x.pdf" false false true None true
                        (Process known_my ∅ demo_world)).2)
       = <[i := e']> (entries (self (Process known_my ∅ demo_world)))
    /\ (forall f, f <> "file" -> e' !! f = existing !! f).
Proof.
  apply (add_pdf_known_record demo_co "/tmp/x.pdf" false false true None true
           (Process known_my ∅ demo_world) "10.5194/bg-8-515-2011"
           "@article{Perrette_2011}"
           (extract_doi demo_co "/tmp/x.pdf" true demo_world).2
           (fetch_bibtex demo_co "10.5194/bg-8-515-2011"
              (∅, (extract_doi demo_co "/tmp/x.pdf" true demo_world).2)).2.2
           (fetch_bibtex demo_co "10.5194/bg-8-515-2011"
              (∅, (extract_doi demo_co "/tmp/x.pdf" true demo_world).2)).2.1
           (entry "Perrette_2011" "2011") [] ["perrette_2011"]
           "perrette_2011").
  - vm_compute. reflexivity.
  - vm_compute. reflexivity.
  - reflexivity.
  - reflexivity.
  - repeat constructor.
  - reflexivity.
  - apply list_elem_of_here.
Defined.

(** * When [move] fails *)


